(** * sales-forecast-api: a shallow embedding of the forecasting pipeline

    The development follows the layout of the repository:

    - [Preprocess]  app/services/preprocess.py (column detection, schema
                    normalisation, anchored aggregation, sanitising);
    - [Predictor]   app/services/predictor.py (the forecaster and its backtest);
    - [Pipeline]    app/services/pipeline.py (the orchestrator);
    - [Routes]      app/routes.py (the request dispatcher);
    - [Auth]        app/auth.py (tokens and their comparison);
    - [Config]      app/config.py (what is read from the environment).

    Conventions of the embedding.

    - A Python exception is a class and a message ([exn]); fallible code
      returns [result].  The named conditions of the specification are the
      [ValueError]s raised at fixed places of the source, told apart by the
      message they carry.
    - pandas frames are kept column-major, a list of labelled columns, so
      that a label can occur twice as it can in pandas.
    - Timestamps are calendar days counted from 1970-01-01: both resampling
      rules used here ([W-MON] and [MS]) bin by the normalised date, and
      every date the pipeline prints is rendered through [.date()].
    - Numbers are exact rationals ([Q]); a float square root is kept
      symbolically ([JSqrt]).
    - The text of a request, its keys and the headers of its rows among it,
      is held in UTF-8, and [Unicode.lower] is [str.lower()] on it.  The
      value of an HTTP header or of an environment variable is a text of
      code points below 256, one character each, which [lower] lower-cases
      as far as a comparison with ASCII words can tell.
    - What pandas and Prophet do outside the source, and what this file does
      not define itself, are fields of [externals]: timestamp parsing,
      frequency inference off the two anchored grids, and the forecasting
      engine.  Every definition takes them as an argument, every theorem
      holds for all of them, and [reference_externals] is one concrete
      choice used to evaluate the code on examples. *)

From Stdlib Require Import ZArith QArith Qminmax Qround Qabs String Ascii List Lia.
From Stdlib Require DecimalString.
From Stdlib Require Import Sorted Lqa.
From stdpp Require Import base option list strings gmap.

(** ** Exceptions and results *)

Inductive exn_class :=
| ValueError | KeyError | TypeError | AttributeError
| Unmodelled (* behaviour of a library this file does not model *).

Inductive exn := Exn (cls : exn_class) (msg : string).

Definition class_of (e : exn) : exn_class := let 'Exn c _ := e in c.
Definition message_of (e : exn) : string := let 'Exn _ m := e in m.

Inductive result (A : Type) :=
| Ok (a : A)
| Raise (e : exn).
Arguments Ok {A} a.
Arguments Raise {A} e.

#[global] Instance result_ret : MRet result := λ A a, Ok a.
#[global] Instance result_bind : MBind result :=
  λ A B f m, match m with Ok a => f a | Raise e => Raise e end.

(** ** Scalars, strings and dictionaries *)

(** A cell of a frame: a missing value (None, NaN, NaT), a number, a text, a
    timestamp, or any other Python object. *)
Inductive cell :=
| NaN
| Num (q : Q)
| Text (s : string)
| Stamp (d : Z)
| Obj.

Definition is_null (c : cell) : bool :=
  match c with NaN => true | _ => false end.

(** [str.lower()] on a text of code points below 256, one character each, as
    the value of a header is, for the comparison with a word within ASCII:
    the ASCII letters of the text alone matter to it. *)
Definition lower_ascii (c : ascii) : ascii :=
  let n := nat_of_ascii c in
  if ((65 <=? n)%nat && (n <=? 90)%nat)%bool then ascii_of_nat (n + 32) else c.

Fixpoint lower (s : string) : string :=
  match s with
  | EmptyString => EmptyString
  | String c r => String (lower_ascii c) (lower r)
  end.

(** *** The lower case of a text in UTF-8 *)

(** [str.lower()] works on the code points of a text, by the tables of
    Unicode 14.0, which CPython 3.11 carries. *)
Module Unicode.

Definition byte (c : ascii) : Z := Z.of_N (N_of_ascii c).

Definition char (b : Z) : ascii := ascii_of_N (Z.to_N b).

Definition bytes (s : string) : list Z := byte <$> list_ascii_of_string s.

Definition text (bs : list Z) : string := string_of_list_ascii (char <$> bs).

Definition continuation (b : Z) : bool := ((128 <=? b) && (b <? 192))%Z.

(** A byte that starts no well-formed sequence, which the text of a [str]
    never has, stands for itself above the code points. *)
Definition stray (b : Z) : Z := (1114112 + b)%Z.

Definition two (b0 b1 : Z) : option Z :=
  if ((194 <=? b0) && (b0 <? 224))%Z && continuation b1
  then Some ((b0 - 192) * 64 + (b1 - 128))%Z
  else None.

(** Three bytes, a lone surrogate among them. *)
Definition three (b0 b1 b2 : Z) : option Z :=
  if ((224 <=? b0) && (b0 <? 240))%Z && continuation b1 && continuation b2 then
    let p := ((b0 - 224) * 4096 + (b1 - 128) * 64 + (b2 - 128))%Z in
    if (2048 <=? p)%Z then Some p else None
  else None.

Definition four (b0 b1 b2 b3 : Z) : option Z :=
  if ((240 <=? b0) && (b0 <? 245))%Z && continuation b1 && continuation b2
     && continuation b3 then
    let p := ((b0 - 240) * 262144 + (b1 - 128) * 4096 + (b2 - 128) * 64
              + (b3 - 128))%Z in
    if ((65536 <=? p) && (p <? 1114112))%Z then Some p else None
  else None.

(** The code points of a text. *)
Fixpoint decode (bs : list Z) : list Z :=
  match bs with
  | [] => []
  | b0 :: r0 =>
      if (b0 <? 128)%Z then b0 :: decode r0
      else
        match r0 with
        | b1 :: r1 =>
            match two b0 b1 with
            | Some p => p :: decode r1
            | None =>
                match r1 with
                | b2 :: r2 =>
                    match three b0 b1 b2 with
                    | Some p => p :: decode r2
                    | None =>
                        match r2 with
                        | b3 :: r3 =>
                            match four b0 b1 b2 b3 with
                            | Some p => p :: decode r3
                            | None => stray b0 :: decode r0
                            end
                        | [] => stray b0 :: decode r0
                        end
                    end
                | [] => stray b0 :: decode r0
                end
            end
        | [] => stray b0 :: decode r0
        end
  end.

Definition encode_point (p : Z) : list Z :=
  if (p <? 128)%Z then [p]
  else if (p <? 2048)%Z then [192 + p / 64; 128 + p mod 64]%Z
  else if (p <? 65536)%Z then
    [224 + p / 4096; 128 + (p / 64) mod 64; 128 + p mod 64]%Z
  else if (p <? 1114112)%Z then
    [240 + p / 262144; 128 + (p / 4096) mod 64; 128 + (p / 64) mod 64;
     128 + p mod 64]%Z
  else [p - 1114112]%Z.

Definition encode (l : list Z) : list Z := l ≫= encode_point.

(** The code points with a lower case of one code point: from [lo] to [hi]
    by [step], each [delta] away from its lower case. *)
Definition LOWER : list (Z * Z * Z * Z) :=
  [
  (65, 90, 1, 32); (192, 214, 1, 32); (216, 222, 1, 32); (256, 302, 2, 1);
   (306, 310, 2, 1); (313, 327, 2, 1); (330, 374, 2, 1); (376, 376, 1, (-121));
   (377, 381, 2, 1); (385, 385, 1, 210); (386, 388, 2, 1); (390, 390, 1, 206);
   (391, 391, 1, 1); (393, 394, 1, 205); (395, 395, 1, 1); (398, 398, 1, 79);
   (399, 399, 1, 202); (400, 400, 1, 203); (401, 401, 1, 1); (403, 403, 1, 205);
   (404, 404, 1, 207); (406, 406, 1, 211); (407, 407, 1, 209); (408, 408, 1, 1);
   (412, 412, 1, 211); (413, 413, 1, 213); (415, 415, 1, 214); (416, 420, 2, 1);
   (422, 422, 1, 218); (423, 423, 1, 1); (425, 425, 1, 218); (428, 428, 1, 1);
   (430, 430, 1, 218); (431, 431, 1, 1); (433, 434, 1, 217); (435, 437, 2, 1);
   (439, 439, 1, 219); (440, 440, 1, 1); (444, 444, 1, 1); (452, 452, 1, 2);
   (453, 453, 1, 1); (455, 455, 1, 2); (456, 456, 1, 1); (458, 458, 1, 2);
   (459, 475, 2, 1); (478, 494, 2, 1); (497, 497, 1, 2); (498, 500, 2, 1);
   (502, 502, 1, (-97)); (503, 503, 1, (-56)); (504, 542, 2, 1); (544, 544, 1, (-130));
   (546, 562, 2, 1); (570, 570, 1, 10795); (571, 571, 1, 1); (573, 573, 1, (-163));
   (574, 574, 1, 10792); (577, 577, 1, 1); (579, 579, 1, (-195)); (580, 580, 1, 69);
   (581, 581, 1, 71); (582, 590, 2, 1); (880, 882, 2, 1); (886, 886, 1, 1);
   (895, 895, 1, 116); (902, 902, 1, 38); (904, 906, 1, 37); (908, 908, 1, 64);
   (910, 911, 1, 63); (913, 929, 1, 32); (931, 939, 1, 32); (975, 975, 1, 8);
   (984, 1006, 2, 1); (1012, 1012, 1, (-60)); (1015, 1015, 1, 1); (1017, 1017, 1, (-7));
   (1018, 1018, 1, 1); (1021, 1023, 1, (-130)); (1024, 1039, 1, 80); (1040, 1071, 1, 32);
   (1120, 1152, 2, 1); (1162, 1214, 2, 1); (1216, 1216, 1, 15); (1217, 1229, 2, 1);
   (1232, 1326, 2, 1); (1329, 1366, 1, 48); (4256, 4293, 1, 7264); (4295, 4295, 1, 7264);
   (4301, 4301, 1, 7264); (5024, 5103, 1, 38864); (5104, 5109, 1, 8); (7312, 7354, 1, (-3008));
   (7357, 7359, 1, (-3008)); (7680, 7828, 2, 1); (7838, 7838, 1, (-7615)); (7840, 7934, 2, 1);
   (7944, 7951, 1, (-8)); (7960, 7965, 1, (-8)); (7976, 7983, 1, (-8)); (7992, 7999, 1, (-8));
   (8008, 8013, 1, (-8)); (8025, 8031, 2, (-8)); (8040, 8047, 1, (-8)); (8072, 8079, 1, (-8));
   (8088, 8095, 1, (-8)); (8104, 8111, 1, (-8)); (8120, 8121, 1, (-8)); (8122, 8123, 1, (-74));
   (8124, 8124, 1, (-9)); (8136, 8139, 1, (-86)); (8140, 8140, 1, (-9)); (8152, 8153, 1, (-8));
   (8154, 8155, 1, (-100)); (8168, 8169, 1, (-8)); (8170, 8171, 1, (-112)); (8172, 8172, 1, (-7));
   (8184, 8185, 1, (-128)); (8186, 8187, 1, (-126)); (8188, 8188, 1, (-9)); (8486, 8486, 1, (-7517));
   (8490, 8490, 1, (-8383)); (8491, 8491, 1, (-8262)); (8498, 8498, 1, 28); (8544, 8559, 1, 16);
   (8579, 8579, 1, 1); (9398, 9423, 1, 26); (11264, 11311, 1, 48); (11360, 11360, 1, 1);
   (11362, 11362, 1, (-10743)); (11363, 11363, 1, (-3814)); (11364, 11364, 1, (-10727)); (11367, 11371, 2, 1);
   (11373, 11373, 1, (-10780)); (11374, 11374, 1, (-10749)); (11375, 11375, 1, (-10783)); (11376, 11376, 1, (-10782));
   (11378, 11378, 1, 1); (11381, 11381, 1, 1); (11390, 11391, 1, (-10815)); (11392, 11490, 2, 1);
   (11499, 11501, 2, 1); (11506, 11506, 1, 1); (42560, 42604, 2, 1); (42624, 42650, 2, 1);
   (42786, 42798, 2, 1); (42802, 42862, 2, 1); (42873, 42875, 2, 1); (42877, 42877, 1, (-35332));
   (42878, 42886, 2, 1); (42891, 42891, 1, 1); (42893, 42893, 1, (-42280)); (42896, 42898, 2, 1);
   (42902, 42920, 2, 1); (42922, 42922, 1, (-42308)); (42923, 42923, 1, (-42319)); (42924, 42924, 1, (-42315));
   (42925, 42925, 1, (-42305)); (42926, 42926, 1, (-42308)); (42928, 42928, 1, (-42258)); (42929, 42929, 1, (-42282));
   (42930, 42930, 1, (-42261)); (42931, 42931, 1, 928); (42932, 42946, 2, 1); (42948, 42948, 1, (-48));
   (42949, 42949, 1, (-42307)); (42950, 42950, 1, (-35384)); (42951, 42953, 2, 1); (42960, 42960, 1, 1);
   (42966, 42968, 2, 1); (42997, 42997, 1, 1); (65313, 65338, 1, 32); (66560, 66599, 1, 40);
   (66736, 66771, 1, 40); (66928, 66938, 1, 39); (66940, 66954, 1, 39); (66956, 66962, 1, 39);
   (66964, 66965, 1, 39); (68736, 68786, 1, 64); (71840, 71871, 1, 32); (93760, 93791, 1, 32);
   (125184, 125217, 1, 34)]%Z.

Definition CASED : list (Z * Z) :=
  [
  (65, 90); (97, 122); (170, 170); (181, 181); (186, 186); (192, 214);
   (216, 246); (248, 442); (444, 447); (452, 659); (661, 696); (704, 705);
   (736, 740); (837, 837); (880, 883); (886, 887); (890, 893); (895, 895);
   (902, 902); (904, 906); (908, 908); (910, 929); (931, 1013); (1015, 1153);
   (1162, 1327); (1329, 1366); (1376, 1416); (4256, 4293); (4295, 4295); (4301, 4301);
   (4304, 4346); (4349, 4351); (5024, 5109); (5112, 5117); (7296, 7304); (7312, 7354);
   (7357, 7359); (7424, 7615); (7680, 7957); (7960, 7965); (7968, 8005); (8008, 8013);
   (8016, 8023); (8025, 8025); (8027, 8027); (8029, 8029); (8031, 8061); (8064, 8116);
   (8118, 8124); (8126, 8126); (8130, 8132); (8134, 8140); (8144, 8147); (8150, 8155);
   (8160, 8172); (8178, 8180); (8182, 8188); (8305, 8305); (8319, 8319); (8336, 8348);
   (8450, 8450); (8455, 8455); (8458, 8467); (8469, 8469); (8473, 8477); (8484, 8484);
   (8486, 8486); (8488, 8488); (8490, 8493); (8495, 8500); (8505, 8505); (8508, 8511);
   (8517, 8521); (8526, 8526); (8544, 8575); (8579, 8580); (9398, 9449); (11264, 11492);
   (11499, 11502); (11506, 11507); (11520, 11557); (11559, 11559); (11565, 11565); (42560, 42605);
   (42624, 42653); (42786, 42887); (42891, 42894); (42896, 42954); (42960, 42961); (42963, 42963);
   (42965, 42969); (42997, 42998); (43000, 43002); (43824, 43866); (43868, 43880); (43888, 43967);
   (64256, 64262); (64275, 64279); (65313, 65338); (65345, 65370); (66560, 66639); (66736, 66771);
   (66776, 66811); (66928, 66938); (66940, 66954); (66956, 66962); (66964, 66965); (66967, 66977);
   (66979, 66993); (66995, 67001); (67003, 67004); (67456, 67456); (67459, 67461); (67463, 67504);
   (67506, 67514); (68736, 68786); (68800, 68850); (71840, 71903); (93760, 93823); (119808, 119892);
   (119894, 119964); (119966, 119967); (119970, 119970); (119973, 119974); (119977, 119980); (119982, 119993);
   (119995, 119995); (119997, 120003); (120005, 120069); (120071, 120074); (120077, 120084); (120086, 120092);
   (120094, 120121); (120123, 120126); (120128, 120132); (120134, 120134); (120138, 120144); (120146, 120485);
   (120488, 120512); (120514, 120538); (120540, 120570); (120572, 120596); (120598, 120628); (120630, 120654);
   (120656, 120686); (120688, 120712); (120714, 120744); (120746, 120770); (120772, 120779); (122624, 122633);
   (122635, 122654); (125184, 125251); (127280, 127305); (127312, 127337); (127344, 127369)]%Z.

Definition CASE_IGNORABLE : list (Z * Z) :=
  [
  (39, 39); (46, 46); (58, 58); (94, 94); (96, 96); (168, 168);
   (173, 173); (175, 175); (180, 180); (183, 184); (688, 879); (884, 885);
   (890, 890); (900, 901); (903, 903); (1155, 1161); (1369, 1369); (1375, 1375);
   (1425, 1469); (1471, 1471); (1473, 1474); (1476, 1477); (1479, 1479); (1524, 1524);
   (1536, 1541); (1552, 1562); (1564, 1564); (1600, 1600); (1611, 1631); (1648, 1648);
   (1750, 1757); (1759, 1768); (1770, 1773); (1807, 1807); (1809, 1809); (1840, 1866);
   (1958, 1968); (2027, 2037); (2042, 2042); (2045, 2045); (2070, 2093); (2137, 2139);
   (2184, 2184); (2192, 2193); (2200, 2207); (2249, 2306); (2362, 2362); (2364, 2364);
   (2369, 2376); (2381, 2381); (2385, 2391); (2402, 2403); (2417, 2417); (2433, 2433);
   (2492, 2492); (2497, 2500); (2509, 2509); (2530, 2531); (2558, 2558); (2561, 2562);
   (2620, 2620); (2625, 2626); (2631, 2632); (2635, 2637); (2641, 2641); (2672, 2673);
   (2677, 2677); (2689, 2690); (2748, 2748); (2753, 2757); (2759, 2760); (2765, 2765);
   (2786, 2787); (2810, 2815); (2817, 2817); (2876, 2876); (2879, 2879); (2881, 2884);
   (2893, 2893); (2901, 2902); (2914, 2915); (2946, 2946); (3008, 3008); (3021, 3021);
   (3072, 3072); (3076, 3076); (3132, 3132); (3134, 3136); (3142, 3144); (3146, 3149);
   (3157, 3158); (3170, 3171); (3201, 3201); (3260, 3260); (3263, 3263); (3270, 3270);
   (3276, 3277); (3298, 3299); (3328, 3329); (3387, 3388); (3393, 3396); (3405, 3405);
   (3426, 3427); (3457, 3457); (3530, 3530); (3538, 3540); (3542, 3542); (3633, 3633);
   (3636, 3642); (3654, 3662); (3761, 3761); (3764, 3772); (3782, 3782); (3784, 3789);
   (3864, 3865); (3893, 3893); (3895, 3895); (3897, 3897); (3953, 3966); (3968, 3972);
   (3974, 3975); (3981, 3991); (3993, 4028); (4038, 4038); (4141, 4144); (4146, 4151);
   (4153, 4154); (4157, 4158); (4184, 4185); (4190, 4192); (4209, 4212); (4226, 4226);
   (4229, 4230); (4237, 4237); (4253, 4253); (4348, 4348); (4957, 4959); (5906, 5908);
   (5938, 5939); (5970, 5971); (6002, 6003); (6068, 6069); (6071, 6077); (6086, 6086);
   (6089, 6099); (6103, 6103); (6109, 6109); (6155, 6159); (6211, 6211); (6277, 6278);
   (6313, 6313); (6432, 6434); (6439, 6440); (6450, 6450); (6457, 6459); (6679, 6680);
   (6683, 6683); (6742, 6742); (6744, 6750); (6752, 6752); (6754, 6754); (6757, 6764);
   (6771, 6780); (6783, 6783); (6823, 6823); (6832, 6862); (6912, 6915); (6964, 6964);
   (6966, 6970); (6972, 6972); (6978, 6978); (7019, 7027); (7040, 7041); (7074, 7077);
   (7080, 7081); (7083, 7085); (7142, 7142); (7144, 7145); (7149, 7149); (7151, 7153);
   (7212, 7219); (7222, 7223); (7288, 7293); (7376, 7378); (7380, 7392); (7394, 7400);
   (7405, 7405); (7412, 7412); (7416, 7417); (7468, 7530); (7544, 7544); (7579, 7679);
   (8125, 8125); (8127, 8129); (8141, 8143); (8157, 8159); (8173, 8175); (8189, 8190);
   (8203, 8207); (8216, 8217); (8228, 8228); (8231, 8231); (8234, 8238); (8288, 8292);
   (8294, 8303); (8305, 8305); (8319, 8319); (8336, 8348); (8400, 8432); (11388, 11389);
   (11503, 11505); (11631, 11631); (11647, 11647); (11744, 11775); (11823, 11823); (12293, 12293);
   (12330, 12333); (12337, 12341); (12347, 12347); (12441, 12446); (12540, 12542); (40981, 40981);
   (42232, 42237); (42508, 42508); (42607, 42610); (42612, 42621); (42623, 42623); (42652, 42655);
   (42736, 42737); (42752, 42785); (42864, 42864); (42888, 42890); (42994, 42996); (43000, 43001);
   (43010, 43010); (43014, 43014); (43019, 43019); (43045, 43046); (43052, 43052); (43204, 43205);
   (43232, 43249); (43263, 43263); (43302, 43309); (43335, 43345); (43392, 43394); (43443, 43443);
   (43446, 43449); (43452, 43453); (43471, 43471); (43493, 43494); (43561, 43566); (43569, 43570);
   (43573, 43574); (43587, 43587); (43596, 43596); (43632, 43632); (43644, 43644); (43696, 43696);
   (43698, 43700); (43703, 43704); (43710, 43711); (43713, 43713); (43741, 43741); (43756, 43757);
   (43763, 43764); (43766, 43766); (43867, 43871); (43881, 43883); (44005, 44005); (44008, 44008);
   (44013, 44013); (64286, 64286); (64434, 64450); (65024, 65039); (65043, 65043); (65056, 65071);
   (65106, 65106); (65109, 65109); (65279, 65279); (65287, 65287); (65294, 65294); (65306, 65306);
   (65342, 65342); (65344, 65344); (65392, 65392); (65438, 65439); (65507, 65507); (65529, 65531);
   (66045, 66045); (66272, 66272); (66422, 66426); (67456, 67461); (67463, 67504); (67506, 67514);
   (68097, 68099); (68101, 68102); (68108, 68111); (68152, 68154); (68159, 68159); (68325, 68326);
   (68900, 68903); (69291, 69292); (69446, 69456); (69506, 69509); (69633, 69633); (69688, 69702);
   (69744, 69744); (69747, 69748); (69759, 69761); (69811, 69814); (69817, 69818); (69821, 69821);
   (69826, 69826); (69837, 69837); (69888, 69890); (69927, 69931); (69933, 69940); (70003, 70003);
   (70016, 70017); (70070, 70078); (70089, 70092); (70095, 70095); (70191, 70193); (70196, 70196);
   (70198, 70199); (70206, 70206); (70367, 70367); (70371, 70378); (70400, 70401); (70459, 70460);
   (70464, 70464); (70502, 70508); (70512, 70516); (70712, 70719); (70722, 70724); (70726, 70726);
   (70750, 70750); (70835, 70840); (70842, 70842); (70847, 70848); (70850, 70851); (71090, 71093);
   (71100, 71101); (71103, 71104); (71132, 71133); (71219, 71226); (71229, 71229); (71231, 71232);
   (71339, 71339); (71341, 71341); (71344, 71349); (71351, 71351); (71453, 71455); (71458, 71461);
   (71463, 71467); (71727, 71735); (71737, 71738); (71995, 71996); (71998, 71998); (72003, 72003);
   (72148, 72151); (72154, 72155); (72160, 72160); (72193, 72202); (72243, 72248); (72251, 72254);
   (72263, 72263); (72273, 72278); (72281, 72283); (72330, 72342); (72344, 72345); (72752, 72758);
   (72760, 72765); (72767, 72767); (72850, 72871); (72874, 72880); (72882, 72883); (72885, 72886);
   (73009, 73014); (73018, 73018); (73020, 73021); (73023, 73029); (73031, 73031); (73104, 73105);
   (73109, 73109); (73111, 73111); (73459, 73460); (78896, 78904); (92912, 92916); (92976, 92982);
   (92992, 92995); (94031, 94031); (94095, 94111); (94176, 94177); (94179, 94180); (110576, 110579);
   (110581, 110587); (110589, 110590); (113821, 113822); (113824, 113827); (118528, 118573); (118576, 118598);
   (119143, 119145); (119155, 119170); (119173, 119179); (119210, 119213); (119362, 119364); (121344, 121398);
   (121403, 121452); (121461, 121461); (121476, 121476); (121499, 121503); (121505, 121519); (122880, 122886);
   (122888, 122904); (122907, 122913); (122915, 122916); (122918, 122922); (123184, 123197); (123566, 123566);
   (123628, 123631); (125136, 125142); (125252, 125259); (127995, 127999); (917505, 917505); (917536, 917631);
   (917760, 917999)]%Z.

Definition in_run (p : Z) (run : Z * Z * Z * Z) : bool :=
  let '(lo, hi, step, _) := run in
  ((lo <=? p) && (p <=? hi) && ((p - lo) mod step =? 0))%Z.

Definition in_ranges (p : Z) (ranges : list (Z * Z)) : bool :=
  existsb (λ '(lo, hi), ((lo <=? p) && (p <=? hi))%Z) ranges.

Definition is_cased (p : Z) : bool := in_ranges p CASED.

Definition is_case_ignorable (p : Z) : bool := in_ranges p CASE_IGNORABLE.

(** [_PyUnicode_ToLowerFull]: the capital I with a dot is the one code point
    with a lower case of two. *)
Definition to_lower_full (p : Z) : list Z :=
  if (p <? 128)%Z then [if ((65 <=? p) && (p <=? 90))%Z then p + 32 else p]%Z
  else if (p =? 304)%Z then [105; 775]%Z
  else match List.find (in_run p) LOWER with
       | Some (_, _, _, delta) => [p + delta]%Z
       | None => [p]
       end.

Fixpoint skip_ignorable (l : list Z) : list Z :=
  match l with
  | c :: rest => if is_case_ignorable c then skip_ignorable rest else l
  | [] => []
  end.

(** [handle_capital_sigma]: the final form after a cased letter and before
    none, case-ignorable code points apart; [before] is read backwards. *)
Definition handle_capital_sigma (before after : list Z) : Z :=
  let final_sigma :=
    match skip_ignorable before with
    | c :: _ => is_cased c
    | [] => false
    end
    && match skip_ignorable after with
       | c :: _ => negb (is_cased c)
       | [] => true
       end in
  if final_sigma then 962%Z else 963%Z.

Fixpoint lower_from (before after : list Z) : list Z :=
  match after with
  | [] => []
  | c :: rest =>
      (if (c =? 931)%Z then [handle_capital_sigma before rest]
       else to_lower_full c)
      ++ lower_from (c :: before) rest
  end.

(** [str.lower()] *)
Definition lower (s : string) : string :=
  text (encode (lower_from [] (decode (bytes s)))).

(** What the proofs say of bytes and code points. *)
Definition in_byte (b : Z) : Prop := (0 ≤ b < 256)%Z.

(** A code point, or a stray byte. *)
Definition valid_point (p : Z) : Prop :=
  (0 ≤ p < 1114112 ∨ 1114240 ≤ p < 1114368)%Z.

(** A byte of ASCII that is no capital letter. *)
Definition plain (b : Z) : Prop := (0 ≤ b < 128 ∧ ¬ (65 ≤ b ≤ 90))%Z.

(** A run of [LOWER] stays among the code points, and leaves ASCII or
    enters it in two cases: the capital letters and the Kelvin sign. *)
Definition run_in_range (run : Z * Z * Z * Z) : bool :=
  let '(lo, hi, step, delta) := run in
  ((0 <=? lo + delta) && (hi + delta <? 1114112)
   && ((hi <? 128) || ((lo =? 8490) && (hi =? 8490) && (delta =? -8383))
       || ((128 <=? lo) && (128 <=? lo + delta))))%Z.

(** The lower case of a text, as bytes, after the code points [before]. *)
Definition lower_bytes (before hb : list Z) : list Z :=
  encode (lower_from before (decode hb)).

End Unicode.

(** A Python dict with string keys, in insertion order. *)
Fixpoint dict_get {A} (k : string) (d : list (string * A)) : option A :=
  match d with
  | [] => None
  | (k', v) :: rest => if String.eqb k' k then Some v else dict_get k rest
  end.

(** A JSON value, as the request carries it and the response returns it.
    [JSqrt q] is the float square root of [q]. *)
#[warnings="-register-all"]
Inductive json :=
| JNull
| JBool (b : bool)
| JInt (z : Z)
| JNum (q : Q)
| JSqrt (q : Q)
| JStr (s : string)
| JList (l : list json)
| JObj (o : list (string * json)).

(** [d[k] = v]: the value of an existing key is replaced in place, a new key
    goes last. *)
Fixpoint dict_set {A} (k : string) (v : A) (d : list (string * A))
  : list (string * A) :=
  match d with
  | [] => [(k, v)]
  | (k', v') :: rest =>
      if String.eqb k' k then (k, v) :: rest else (k', v') :: dict_set k v rest
  end.

(** ** Calendar

    Days are counted from 1970-01-01, a Thursday. *)

(** The calendar repeats every 400 years, an era of 146097 days that starts
    on the first of March.  A day of the era and the date it is, the year
    counted within the era: *)
Definition civil_of_doe (doe : Z) : Z * Z * Z :=
  let yoe := ((doe - doe / 1460 + doe / 36524 - doe / 146096) / 365)%Z in
  let doy := (doe - (365 * yoe + yoe / 4 - yoe / 100))%Z in
  let mp := ((5 * doy + 2) / 153)%Z in
  let d := (doy - (153 * mp + 2) / 5 + 1)%Z in
  let m := (if mp <? 10 then mp + 3 else mp - 9)%Z in
  ((yoe + (if m <=? 2 then 1 else 0))%Z, m, d).

Definition doe_of_civil (yoe m d : Z) : Z :=
  let mp := ((m + 9) mod 12)%Z in
  let doy := ((153 * mp + 2) / 5 + d - 1)%Z in
  (yoe * 365 + yoe / 4 - yoe / 100 + doy)%Z.

Definition civil_from_days (z : Z) : Z * Z * Z :=
  let z := (z + 719468)%Z in
  let era := (z / 146097)%Z in
  let '(y, m, d) := civil_of_doe (z - era * 146097) in
  ((y + era * 400)%Z, m, d).

Definition days_from_civil (y m d : Z) : Z :=
  let y := (if m <=? 2 then y - 1 else y)%Z in
  let era := (y / 400)%Z in
  (era * 146097 + doe_of_civil (y - era * 400) m d - 719468)%Z.

(** The first of month [m] of year [yoe] of an era falls within the era and
    reads back as that date. *)
Definition first_reads_back (yoe m : Z) : bool :=
  let doe := doe_of_civil yoe m 1 in
  let '(y, m', d) := civil_of_doe doe in
  (0 <=? doe)%Z && (doe <? 146097)%Z
  && (y =? yoe + (if m <=? 2 then 1 else 0))%Z && (m' =? m)%Z && (d =? 1)%Z.

(** [Timestamp.weekday()], Monday = 0. *)
Definition weekday (d : Z) : Z := ((d + 3) mod 7)%Z.

(** Months counted from year 0, and the first day of such a month. *)
Definition month_index (d : Z) : Z :=
  let '(y, m, _) := civil_from_days d in (y * 12 + (m - 1))%Z.

Definition month_first (i : Z) : Z := days_from_civil (i / 12) (i mod 12 + 1) 1.

(** A month starts before the next one does. *)
Definition month_grows (i : Z) : bool := (month_first i <? month_first (i + 1))%Z.

(** The year of a day of the era, and its month counted from the March that
    opens the era: what [civil_of_doe] computes on its way. *)
Definition era_year (doe : Z) : Z :=
  ((doe - doe / 1460 + doe / 36524 - doe / 146096) / 365)%Z.

Definition era_month (doe : Z) : Z :=
  let yoe := era_year doe in
  let doy := (doe - (365 * yoe + yoe / 4 - yoe / 100))%Z in
  (12 * yoe + (5 * doy + 2) / 153)%Z.

(** Decimal rendering of a natural number, left-padded with zeros. *)
Definition digit (n : Z) : ascii := ascii_of_nat (48 + Z.to_nat (n mod 10)).

Fixpoint digits (width : nat) (n : Z) (acc : string) : string :=
  match width with
  | O => acc
  | S w => digits w (n / 10) (String (digit n) acc)
  end.

(** [date.isoformat()], for the years 0000 to 9999 a Timestamp can hold. *)
Definition isoformat (d : Z) : string :=
  let '(y, m, dd) := civil_from_days d in
  digits 4 y ("-" +:+ digits 2 m ("-" +:+ digits 2 dd "")).

(** ** Frames *)

(** A frame is the list of its labelled columns. *)
Definition column : Type := string * list cell.
Abbreviation DataFrame := (list column).

Definition columns (df : DataFrame) : list string := df.*1.

Definition nrows (df : DataFrame) : nat :=
  match df with
  | [] => 0%nat
  | (_, vs) :: _ => length vs
  end.

(** [df.empty]: no column or no row. *)
Definition empty (df : DataFrame) : bool :=
  match df with
  | [] => true
  | (_, vs) :: _ => Nat.eqb (length vs) 0
  end.

(** The columns carrying label [l]; pandas returns a Series when there is
    exactly one and a frame when the label is repeated. *)
Definition labelled (l : string) (df : DataFrame) : DataFrame :=
  filter (λ c : column, c.1 = l) df.

(** Keys in order of first appearance. *)
Definition first_seen (ks : list string) : list string :=
  foldl (λ acc k, if decide (k ∈ acc) then acc else acc ++ [k]) [] ks.

(** [pd.DataFrame.from_records(records)] on a list of dicts: the columns are
    the keys in order of first appearance, a key a record lacks is NaN. *)
Definition from_records (records : list (list (string * cell))) : DataFrame :=
  (λ c, (c, (λ r, default NaN (dict_get c r)) <$> records))
    <$> first_seen (concat ((λ r : list (string * cell), r.*1) <$> records)).

(** ** External collaborators *)

(** The anchored frequency rules: [W-MON] and [MS] are the only two the
    dispatcher ever builds a pipeline with; [OtherRule] stands for any other
    alias pandas' frequency inference may answer. *)
Inductive rule :=
| W_MON
| MS
| OtherRule (alias : string).

(** A forecast row of the engine: [ds], [yhat], [yhat_lower], [yhat_upper]. *)
Record forecast_row := ForecastRow {
  f_ds : Z;
  f_yhat : Q;
  f_yhat_lower : Q;
  f_yhat_upper : Q
}.

Record externals := Externals {
  (** [pd.to_datetime(column)], which raises on a column it cannot parse. *)
  to_datetime : list cell → result (list (option Z));
  (** [pd.to_datetime(column, errors="coerce")]. *)
  to_datetime_coerce : list cell → list (option Z);
  (** [pd.infer_freq] on three or more dates that form neither anchored grid. *)
  infer_freq_other : list Z → option rule;
  (** [pd.date_range(start, end, freq)] for an alias other than the two rules. *)
  date_range_other : string → Z → Z → list Z;
  (** Prophet fitted on a series, asked for [periods] future periods at
      [rule] with [include_history=False]. *)
  prophet : list (Z * Q) → rule → Z → result (list forecast_row)
}.

(** ** app/services/preprocess.py *)

Module Preprocess.

Definition DATE_CANDIDATES : list string :=
  ["tarih"; "date"; "gun"; "day"; "zaman"; "time"]%string.

Definition TARGET_CANDIDATES : list string :=
  ["satis"; "sales"; "miktar"; "quantity"; "adet"; "amount"; "value";
   "satis_miktari"]%string.

Definition ColumnNotFound : exn := Exn ValueError "Zorunlu kolon bulunamadı".

(** [{c.lower(): c for c in df.columns}]: a later header replaces an earlier
    one with the same lower-cased name. *)
Definition lower_map (cols : list string) : gmap string string :=
  foldl (λ m c, <[Unicode.lower c := c]> m) ∅ cols.

Fixpoint find_alias (m : gmap string string) (candidates : list string)
  : option string :=
  match candidates with
  | [] => None
  | alias :: rest =>
      match m !! alias with
      | Some c => Some c
      | None => find_alias m rest
      end
  end.

Definition stamp_cell (o : option Z) : cell :=
  match o with Some d => Stamp d | None => NaN end.

(** A column of timestamps and missing values is returned as it is, without
    parsing. *)
Definition as_stamps (vs : list cell) : option (list (option Z)) :=
  mapM (λ c, match c with
             | Stamp d => Some (Some d)
             | NaN => Some None
             | _ => None
             end) vs.

Definition pd_to_datetime (ext : externals) (vs : list cell)
  : result (list (option Z)) :=
  match as_stamps vs with
  | Some ds => Ok ds
  | None => to_datetime ext vs
  end.

Definition pd_to_datetime_coerce (ext : externals) (vs : list cell)
  : list (option Z) :=
  match as_stamps vs with
  | Some ds => ds
  | None => to_datetime_coerce ext vs
  end.

(** [pd.to_datetime(df[c])] returns without raising.  A repeated label makes
    [df[c]] a frame, which [to_datetime] refuses. *)
Definition parses (ext : externals) (df : DataFrame) (c : string) : bool :=
  match labelled c df with
  | [(_, vs)] => match pd_to_datetime ext vs with Ok _ => true | Raise _ => false end
  | _ => false
  end.

Fixpoint first_parseable (ext : externals) (df : DataFrame) (cols : list string)
  : option string :=
  match cols with
  | [] => None
  | c :: rest => if parses ext df c then Some c else first_parseable ext df rest
  end.

Definition find (ext : externals) (df : DataFrame)
    (candidates : list string) (is_date : bool) : result string :=
  match find_alias (lower_map (columns df)) candidates with
  | Some c => Ok c
  | None =>
      if is_date then
        match first_parseable ext df (columns df) with
        | Some c => Ok c
        | None => Raise ColumnNotFound
        end
      else Raise ColumnNotFound
  end.

Record detected := Detected { date : string; target : string }.

Definition detect_columns (ext : externals) (df : DataFrame) : result detected :=
  date_col ← find ext df DATE_CANDIDATES true;
  target_col ← find ext df TARGET_CANDIDATES false;
  Ok (Detected date_col target_col).

(** *** normalize_schema *)

(** [out.rename(columns={mapping["date"]: "ds", mapping["target"]: "y"})]:
    when both keys are the same header the dict literal keeps the later
    entry. *)
Definition rename (mapping : detected) (df : DataFrame) : DataFrame :=
  (λ c : column,
     if String.eqb c.1 (target mapping) then ("y"%string, c.2)
     else if String.eqb c.1 (date mapping) then ("ds"%string, c.2)
     else c) <$> df.

(** [out[l] = values] for a label that occurs. *)
Definition set_column (l : string) (vs : list cell) (df : DataFrame) : DataFrame :=
  (λ c : column, if String.eqb c.1 l then (l, vs) else c) <$> df.

(** Row [i] has no missing value in any of the columns [cols]. *)
Definition complete_row (cols : DataFrame) (i : nat) : bool :=
  forallb (λ c : column, negb (is_null (default NaN (c.2 !! i)))) cols.

Definition take_rows (rows : list nat) (df : DataFrame) : DataFrame :=
  (λ c : column, (c.1, (λ i, default NaN (c.2 !! i)) <$> rows)) <$> df.

(** [out.dropna(subset=subset)]; a label of [subset] that is no column is a
    [KeyError]. *)
Definition dropna (subset : list string) (df : DataFrame) : result DataFrame :=
  if forallb (λ l, bool_decide (l ∈ columns df)) subset then
    let cols := filter (λ c : column, c.1 ∈ subset) df in
    Ok (take_rows (filter (λ i, complete_row cols i = true) (seq 0 (nrows df))) df)
  else Raise (Exn KeyError "['y']").

(** [out[labels]]: every column carrying a requested label, label by label. *)
Definition select (labels : list string) (df : DataFrame) : DataFrame :=
  labels ≫= (λ l, labelled l df).

Definition stamp_of (c : cell) : Z :=
  match c with Stamp d => d | _ => 0%Z end.

Fixpoint insert_by (x : Z * nat) (l : list (Z * nat)) : list (Z * nat) :=
  match l with
  | [] => [x]
  | y :: r => if (x.1 <=? y.1)%Z then x :: l else y :: insert_by x r
  end.

(** The keys in ascending order, each with the row it came from; rows with
    equal keys keep their relative order. *)
Definition sort_keys (keys : list Z) : list (Z * nat) :=
  foldr insert_by [] (zip keys (seq 0 (length keys))).

Definition argsort (keys : list Z) : list nat := (sort_keys keys).*2.

(** [out.sort_values("ds")], which refuses a label that is not unique. *)
Definition sort_values_ds (df : DataFrame) : result DataFrame :=
  match labelled "ds" df with
  | [(_, ds)] => Ok (take_rows (argsort (stamp_of <$> ds)) df)
  | [] => Raise (Exn KeyError "ds")
  | _ => Raise (Exn ValueError "The column label 'ds' is not unique.")
  end.

Definition normalize_schema (ext : externals) (df : DataFrame)
    (mapping : detected) (feature_columns : list string) : result DataFrame :=
  let out := rename mapping df in
  out ← match labelled "ds" out with
        | [(_, vs)] =>
            Ok (set_column "ds" (stamp_cell <$> pd_to_datetime_coerce ext vs) out)
        | [] => Raise (Exn KeyError "ds")
        | _ => Raise (Exn ValueError "cannot assemble with duplicate keys")
        end;
  out ← dropna ["ds"; "y"]%string out;
  let kept := filter (λ c, c ∈ columns out) feature_columns in
  sort_values_ds (select ("ds" :: "y" :: kept)%string out).

(** *** aggregate_time_series *)

(** A frame whose columns are exactly [ds] (timestamps) and [y] (numbers),
    row by row. *)
Abbreviation series := (list (Z * Q)).

Definition Qsum (l : list Q) : Q := foldr Qplus 0%Q l.

Definition minimum (l : list Z) : Z := foldr Z.min (default 0%Z (head l)) l.
Definition maximum (l : list Z) : Z := foldr Z.max (default 0%Z (head l)) l.

(** The first Monday on or after a day. *)
Definition bin_label_week (d : Z) : Z := (d + (- (d + 3)) mod 7)%Z.

(** The label of the bin a day falls in.  [W-MON] bins are closed and
    labelled on the right, Tuesday to Monday under the Monday that ends
    them; [MS] bins are closed and labelled on the left, a month under its
    first day. *)
Definition bin_label (r : rule) (d : Z) : Z :=
  match r with
  | W_MON => bin_label_week d
  | MS => month_first (month_index d)
  | OtherRule _ => d
  end.

(** The bin labels from the bin of [lo] to the bin of [hi], none left out. *)
Definition bin_labels (r : rule) (lo hi : Z) : list Z :=
  match r with
  | W_MON =>
      (λ k, bin_label W_MON lo + 7 * k)%Z
        <$> seqZ 0 ((bin_label W_MON hi - bin_label W_MON lo) / 7 + 1)
  | MS => month_first <$> seqZ (month_index lo) (month_index hi - month_index lo + 1)
  | OtherRule _ => []
  end.

(** [series.resample(rule).sum()]: every bin between the first and the last
    observation, an empty bin summing to 0. *)
Definition resample_sum (r : rule) (rows : series) : series :=
  match rows with
  | [] => []
  | _ =>
      (λ l, (l, Qsum (filter (λ row, bin_label r row.1 = l) rows).*2))
        <$> bin_labels r (minimum rows.*1) (maximum rows.*1)
  end.

(** The numeric reading of a target cell; a missing value is skipped by the
    sum. *)
Definition number (c : cell) : option Q :=
  match c with
  | Num q => Some q
  | NaN => Some 0%Q
  | _ => None
  end.

Definition InvalidAggregationLevel : exn := Exn ValueError "Geçersiz aggregation_level".

Definition aggregate_time_series (ext : externals) (df : DataFrame)
    (level : string) (weekly_rule monthly_rule : rule) : result series :=
  if negb (String.eqb level "weekly" || String.eqb level "monthly") then
    Raise InvalidAggregationLevel
  else
    ds ← match labelled "ds" df with
         | [(_, vs)] => pd_to_datetime ext vs
         | [] => Raise (Exn KeyError "ds")
         | _ => Raise (Exn ValueError "cannot assemble with duplicate keys")
         end;
    let rule := if String.eqb level "weekly" then weekly_rule else monthly_rule in
    match labelled "y" df with
    | [(_, ys)] =>
        match rule, mapM id ds, mapM number ys with
        | OtherRule _, _, _ | _, None, _ | _, _, None =>
            Raise (Exn Unmodelled "resample")
        | _, Some ds, Some ys => Ok (resample_sum rule (zip ds ys))
        end
    | [] => Raise (Exn KeyError "y")
    | _ => Raise (Exn ValueError "Length mismatch")
    end.

(** *** sanitize_outliers_and_missing *)

(** The index is the rule's grid between its ends: ascending, on the anchor,
    no period left out. *)
Definition on_grid (r : rule) (idx : list Z) : bool :=
  bool_decide (idx = bin_labels r (minimum idx) (maximum idx)).

(** [pd.infer_freq]: pandas refuses fewer than three dates; it answers
    [W-MON] on a run of Mondays seven days apart and [MS] on a run of
    consecutive month starts. *)
Definition infer_freq (ext : externals) (idx : list Z) : result (option rule) :=
  if (length idx <? 3)%nat then
    Raise (Exn ValueError "Need at least 3 dates to infer frequency")
  else if on_grid W_MON idx then Ok (Some W_MON)
  else if on_grid MS idx then Ok (Some MS)
  else Ok (infer_freq_other ext idx).

(** [df["ds"].diff().dropna()] *)
Fixpoint diff (l : list Z) : list Z :=
  match l with
  | a :: (b :: _) as r => (b - a)%Z :: diff r
  | _ => []
  end.

(** [deltas.median().days] *)
Definition median_days (deltas : list Z) : Z :=
  let sorted := (sort_keys deltas).*1 in
  let n := length sorted in
  if Nat.even n then
    ((nth (n / 2 - 1) sorted 0 + nth (n / 2) sorted 0) / 2)%Z
  else nth (n / 2) sorted 0%Z.

Definition _infer_by_gap (df : series) : rule :=
  let deltas := diff df.*1 in
  if Nat.eqb (length deltas) 0 then W_MON
  else if (25 <=? median_days deltas)%Z then MS
  else if (6 <=? median_days deltas)%Z then W_MON
  else W_MON.

(** [pd.date_range(start, end, freq)]: the anchored dates from [start] to
    [end], both included. *)
Definition date_range (ext : externals) (start end_ : Z) (freq : rule) : list Z :=
  match freq with
  | W_MON =>
      (λ k, bin_label W_MON start + 7 * k)%Z
        <$> seqZ 0 ((end_ - bin_label W_MON start) / 7 + 1)
  | MS =>
      let first := (if (month_first (month_index start) =? start)%Z
                    then month_index start else month_index start + 1)%Z in
      month_first <$> seqZ first (month_index end_ - first + 1)
  | OtherRule alias => date_range_other ext alias start end_
  end.

Fixpoint lookup_day (d : Z) (s : series) : option Q :=
  match s with
  | [] => None
  | (d', y) :: rest => if (d' =? d)%Z then Some y else lookup_day d rest
  end.

(** [out.set_index("ds").reindex(full_index)]: a period the series lacks
    becomes a gap; an index with a repeated date cannot be reindexed. *)
Definition reindex (s : series) (full_index : list Z) : result (list (option Q)) :=
  if bool_decide (NoDup s.*1) then Ok ((λ d, lookup_day d s) <$> full_index)
  else Raise (Exn ValueError "cannot reindex on an axis with duplicate labels").

Fixpoint ffill_from (last : option Q) (l : list (option Q)) : list (option Q) :=
  match l with
  | [] => []
  | x :: r =>
      let v := match x with Some _ => x | None => last end in
      v :: ffill_from v r
  end.

Definition ffill (l : list (option Q)) : list (option Q) := ffill_from None l.
Definition bfill (l : list (option Q)) : list (option Q) := reverse (ffill (reverse l)).

Fixpoint insertQ (x : Q) (l : list Q) : list Q :=
  match l with
  | [] => [x]
  | y :: r => if Qle_bool x y then x :: l else y :: insertQ x r
  end.

Definition sortQ (l : list Q) : list Q := foldr insertQ [] l.

(** [Series.quantile(q)], linear interpolation between the two order
    statistics around position [q * (n - 1)]. *)
Definition quantile (q : Q) (vs : list Q) : Q :=
  let sorted := sortQ vs in
  let pos := (q * (inject_Z (Z.of_nat (length vs)) - 1))%Q in
  let lo := Qfloor pos in
  let a := nth (Z.to_nat lo) sorted 0%Q in
  let b := nth (Z.to_nat (lo + 1)) sorted a in
  (a + (b - a) * (pos - inject_Z lo))%Q.

(** [Series.clip(lower, upper)] on one value. *)
Definition clip (lower upper v : Q) : Q := Qmin (Qmax v lower) upper.

(** The IQR fences of a column. *)
Definition fences (vs : list Q) : Q * Q :=
  let q1 := quantile (1 # 4) vs in
  let q3 := quantile (3 # 4) vs in
  let iqr := (q3 - q1)%Q in
  ((q1 - (3 # 2) * iqr)%Q, (q3 + (3 # 2) * iqr)%Q).

Definition sanitize_outliers_and_missing (ext : externals) (df : series)
  : result series :=
  if (length df <? 2)%nat then Ok df
  else
    inferred ← infer_freq ext df.*1;
    let inferred := match inferred with
                    | Some r => r
                    | None => _infer_by_gap df
                    end in
    let full_index :=
      date_range ext (minimum df.*1) (maximum df.*1) inferred in
    y ← reindex df full_index;
    match mapM id (bfill (ffill y)) with
    | Some y =>
        let '(lower, upper) := fences y in
        Ok (zip full_index (clip lower upper <$> y))
    | None => Raise (Exn Unmodelled "a column of NaN only")
    end.

End Preprocess.

(** ** app/services/predictor.py *)

(** The two Prophet instances [fit_predict] may build, and the record of a
    fit: which instance, on which rows, for how many future periods. *)
Inductive instance := model | bt_model.

Inductive event := Fit (m : instance) (train : Preprocess.series) (r : rule) (periods : Z).

(** A computation that fits models on its way: the fits in order, and the
    outcome. *)
Definition traced (A : Type) : Type := list event * result A.

#[global] Instance traced_ret : MRet traced := λ A a, ([], Ok a).
#[global] Instance traced_bind : MBind traced :=
  λ A B f m,
    match m with
    | (t, Ok a) => let '(t', r) := f a in (t ++ t', r)
    | (t, Raise e) => (t, Raise e)
    end.

Definition lift {A} (r : result A) : traced A := ([], r).

Module Predictor.
Import Preprocess.

Record EnsembleForecaster := {
  frequency : string;
  horizon : Z;
  return_confidence : bool;
  weekly_rule : rule;
  monthly_rule : rule
}.

Definition _freq_rule (self : EnsembleForecaster) : rule :=
  if String.eqb (frequency self) "monthly" then monthly_rule self
  else weekly_rule self.

(** [Prophet(...).fit(train)] followed by [predict] on [periods] future
    periods, recorded in the trace. *)
Definition fit_and_predict (ext : externals) (m : instance)
    (train : series) (r : rule) (periods : Z) : traced (list forecast_row) :=
  ([Fit m train r periods], prophet ext train r periods).

(** The forecast frame handed to the orchestrator: [bounds] tells whether the
    columns [yhat_lower] and [yhat_upper] are still there. *)
Record forecast_frame := {
  bounds : bool;
  rows : list forecast_row
}.

Definition n_val (self : EnsembleForecaster) (df : series) : Z :=
  Z.max 0 (Z.min (Z.max 4 (horizon self)) (Z.max 2 (Z.of_nat (length df) / 3))).

(** The guard of the backtest. *)
Definition backtest_guard (self : EnsembleForecaster) (df : series) : bool :=
  (n_val self df + 5 <=? Z.of_nat (length df))%Z && (2 <=? n_val self df)%Z.

(** [val_df.merge(bt_forecast, on="ds", how="inner")], as pairs [(y, yhat)]. *)
Definition merge (val_df : series) (bt_forecast : list forecast_row)
  : list (Q * Q) :=
  val_df ≫= (λ v, (λ f, (v.2, f_yhat f)) <$> filter (λ f, f_ds f = v.1) bt_forecast).

Definition mean (l : list Q) : Q := (Qsum l / inject_Z (Z.of_nat (length l)))%Q.

Record metrics := { mae : json; rmse : json; mape : json }.

Definition no_metrics : metrics := {| mae := JNull; rmse := JNull; mape := JNull |}.

Definition metrics_of (merged : list (Q * Q)) : metrics :=
  let non_zero := filter (λ p, Qeq_bool p.1 0 = false) merged in
  {| mae := JNum (mean ((λ p, Qabs (p.1 - p.2)) <$> merged));
     rmse := JSqrt (mean ((λ p, (p.1 - p.2) * (p.1 - p.2))%Q <$> merged));
     mape := match non_zero with
             | [] => JNull
             | _ => JNum (mean ((λ p, Qabs (p.1 - p.2) / p.1)%Q <$> non_zero) * 100)
             end |}.

(** [.min()] and [.max()] of the date column, rendered by [.date()]; an empty
    column has the missing timestamp for both. *)
Definition date_text (pick : list Z → Z) (df : series) : string :=
  match df with
  | [] => "NaT"
  | _ => isoformat (pick df.*1)
  end.

Definition sort_rows (l : list forecast_row) : list forecast_row :=
  omap (λ i, l !! i) (argsort (f_ds <$> l)).

Definition fit_predict (ext : externals) (self : EnsembleForecaster) (df : series)
  : traced (forecast_frame * list (string * json) * list (string * json)) :=
  let rule := _freq_rule self in
  out ← fit_and_predict ext model df rule (horizon self);
  let n_val := n_val self df in
  metrics ←
    (if backtest_guard self df then
       let train_df := take (length df - Z.to_nat n_val) df in
       let val_df := drop (length df - Z.to_nat n_val) df in
       bt_forecast ← fit_and_predict ext bt_model train_df rule n_val;
       let merged := merge val_df bt_forecast in
       mret (if (2 <=? length merged)%nat then metrics_of merged else no_metrics)
     else mret no_metrics);
  let model_info :=
    [("algorithm", JStr "Ensemble (Prophet)");
     ("accuracy_mae", mae metrics);
     ("accuracy_rmse", rmse metrics);
     ("accuracy_mape", mape metrics);
     ("backtest_points", JInt n_val)]%string in
  let data_summary :=
    [("input_rows", JInt (Z.of_nat (length df)));
     ("date_range", JStr (date_text minimum df +:+ " to " +:+ date_text maximum df));
     ("features_used",
      JList [JStr "trend"; JStr "weekly_seasonality"; JStr "yearly_seasonality"])]%string in
  mret ({| bounds := return_confidence self; rows := sort_rows out |},
        model_info, data_summary).

End Predictor.

(** ** app/services/pipeline.py *)

Module Pipeline.
Import Preprocess.

(** Truth value of a JSON value, as [bool(v)], [not v] and [if v] read it. *)
Definition truthy (v : json) : bool :=
  match v with
  | JNull => false
  | JBool b => b
  | JInt z => negb (z =? 0)%Z
  | JNum q => negb (Qeq_bool q 0)
  | JSqrt q => negb (Qeq_bool q 0)
  | JStr s => negb (String.eqb s "")
  | JList l => match l with [] => false | _ => true end
  | JObj o => match o with [] => false | _ => true end
  end.

Definition is_space (c : ascii) : bool :=
  let n := nat_of_ascii c in ((9 <=? n)%nat && (n <=? 13)%nat) || Nat.eqb n 32.

Fixpoint lstrip (s : string) : string :=
  match s with
  | String c r => if is_space c then lstrip r else s
  | EmptyString => EmptyString
  end.

Fixpoint contains (sub s : string) : bool :=
  String.prefix sub s ||
  match s with
  | String _ r => contains sub r
  | EmptyString => false
  end.

Record PredictionPipeline := {
  prediction_frequency : string;
  aggregation_level : string;
  prediction_period : Z;
  feature_columns : list string;
  return_confidence : bool;
  min_data_points : Z;
  weekly_rule : rule;
  monthly_rule : rule;
  non_negative : bool
}.

Definition EmptyDataset : exn := Exn ValueError "Boş veri kümesi".

Definition InsufficientData : exn :=
  Exn ValueError "Güvenilir tahmin için en az 30 veri noktası gereklidir.".

(** Steps 1 and 2 of [run]: detection, normalisation and aggregation, up to
    the frame [df_agg]. *)
Definition df_agg (ext : externals) (self : PredictionPipeline)
    (records : list (list (string * cell))) : result series :=
  let df := from_records records in
  if empty df then Raise EmptyDataset
  else
    detected ← detect_columns ext df;
    df_norm ← normalize_schema ext df detected (feature_columns self);
    aggregate_time_series ext df_norm (aggregation_level self)
      (weekly_rule self) (monthly_rule self).

(** Step 3 of [run]: sanitising, up to the frame [df_clean]. *)
Definition df_clean (ext : externals) (self : PredictionPipeline)
    (records : list (list (string * cell))) : result series :=
  df_agg ← df_agg ext self records;
  sanitize_outliers_and_missing ext df_agg.

(** [int(v)] *)
Definition py_int (v : json) : result Z :=
  match v with
  | JInt z => Ok z
  | JBool b => Ok (if b then 1 else 0)%Z
  | JNum q => Ok (Z.quot (Qnum q) (Z.pos (Qden q)))
  | _ => Raise (Exn TypeError "int() argument must be a string or a real number")
  end.

(** [_to_iso_date] on the timestamp of a forecast row. *)
Definition _to_iso_date (value : Z) : string := isoformat value.

(** Step 7 on one forecast row. *)
Definition item (self : PredictionPipeline) (forecast_df : Predictor.forecast_frame)
    (row : forecast_row) : json :=
  let yhat := f_yhat row in
  let lo := if Predictor.bounds forecast_df then Some (f_yhat_lower row) else None in
  let hi := if Predictor.bounds forecast_df then Some (f_yhat_upper row) else None in
  let '(yhat, lo, hi) :=
    if non_negative self then (Qmax 0 yhat, Qmax 0 <$> lo, Qmax 0 <$> hi)
    else (yhat, lo, hi) in
  JObj ([("date", JStr (_to_iso_date (f_ds row)));
         ("predicted_value", JNum yhat)]%string
        ++ (if return_confidence self && Predictor.bounds forecast_df then
              [("confidence_lower", from_option JNum JNull lo);
               ("confidence_upper", from_option JNum JNull hi)]%string
            else [])).

(** Step 8: a label that claims an ensemble without naming xgboost is
    rewritten to the primary model. *)
Definition squash (algo : option json) : json :=
  match algo with
  | Some v =>
      if negb (truthy v) then JStr "Prophet"
      else match v with
           | JStr s =>
               if String.prefix "ensemble" (lower (lstrip s))
                  && negb (contains "xgboost" (lower s))
               then JStr "Prophet" else v
           | _ => v
           end
  | None => JStr "Prophet"
  end.

(** Step 5: the forecaster of a pipeline. *)
Definition forecaster_of (self : PredictionPipeline) : Predictor.EnsembleForecaster :=
  {| Predictor.frequency := prediction_frequency self;
     Predictor.horizon := prediction_period self;
     Predictor.return_confidence := return_confidence self;
     Predictor.weekly_rule := weekly_rule self;
     Predictor.monthly_rule := monthly_rule self |}.

Definition run (ext : externals) (self : PredictionPipeline)
    (records : list (list (string * cell))) : traced json :=
  df_clean ← lift (df_clean ext self records);
  if (Z.of_nat (length df_clean) <? min_data_points self)%Z then
    lift (Raise InsufficientData)
  else
    let forecaster := forecaster_of self in
    '(forecast_df, model_info, data_summary) ←
      Predictor.fit_predict ext forecaster df_clean;
    let date_range :=
      JStr (Predictor.date_text minimum df_clean +:+ " to "
            +:+ Predictor.date_text maximum df_clean) in
    let features_used :=
      match dict_get "features_used" data_summary with
      | Some v =>
          if truthy v then v
          else JList [JStr "trend"; JStr "weekly_seasonality"; JStr "yearly_seasonality"]
      | None => JList [JStr "trend"; JStr "weekly_seasonality"; JStr "yearly_seasonality"]
      end in
    input_rows ← lift match dict_get "input_rows" data_summary with
                      | Some v => py_int v
                      | None => Ok (Z.of_nat (length df_clean))
                      end;
    let data_summary_out :=
      [("input_rows", JInt input_rows);
       ("date_range", default date_range (dict_get "date_range" data_summary));
       ("features_used", features_used)]%string in
    let preds := item self forecast_df <$> Predictor.sort_rows (Predictor.rows forecast_df) in
    let mi := dict_set "algorithm" (squash (dict_get "algorithm" model_info)) model_info in
    mret (JObj [("success", JBool true);
                ("data_summary", JObj data_summary_out);
                ("predictions", JList preds);
                ("model_info", JObj mi)]%string).

(** The same pipeline, asked for other feature columns. *)
Definition with_features (self : PredictionPipeline) (features : list string)
  : PredictionPipeline :=
  {| prediction_frequency := prediction_frequency self;
     aggregation_level := aggregation_level self;
     prediction_period := prediction_period self;
     feature_columns := features;
     return_confidence := return_confidence self;
     min_data_points := min_data_points self;
     weekly_rule := weekly_rule self;
     monthly_rule := monthly_rule self;
     non_negative := non_negative self |}.

Definition build_pipeline (prediction_frequency aggregation_level : string)
    (prediction_period : Z) (feature_columns : list string)
    (return_confidence : bool) (min_data_points : Z) : PredictionPipeline :=
  {| prediction_frequency := prediction_frequency;
     aggregation_level := aggregation_level;
     prediction_period := prediction_period;
     feature_columns := feature_columns;
     return_confidence := return_confidence;
     min_data_points := min_data_points;
     weekly_rule := W_MON;
     monthly_rule := MS;
     non_negative := true |}.

End Pipeline.

(** ** app/routes.py *)

Module Routes.
Import Pipeline.

(** What the view reads of [current_app.config]. *)
Record config := { MIN_DATA_POINTS : Z }.

(** What a call of [predict] does: it answers with a status and a body; or
    it answers 200 at once and starts a thread, which posts a body to the
    callback address or none; or an exception leaves the view; or the
    request takes pandas where this development does not follow it. *)
Inductive outcome :=
| Response (status : Z) (body : json)
| Processing (body : json) (posted : option json)
| Uncaught (e : exn)
| NotModelled.

Definition _bad_request (message error_code : string) : outcome :=
  Response 400 (JObj [("error", JStr error_code); ("message", JStr message)]%string).

Definition _unprocessable (message error_code : string) : outcome :=
  Response 422 (JObj [("error", JStr error_code); ("message", JStr message)]%string).

Definition cell_of_json (v : json) : cell :=
  match v with
  | JNull => NaN
  | JInt z => Num (inject_Z z)
  | JNum q => Num q
  | JStr s => Text s
  | _ => Obj
  end.

(** The rows of [data] as records; a row that is not a JSON object is not
    followed. *)
Definition records_of (data : list json) : option (list (list (string * cell))) :=
  mapM (λ row, match row with
               | JObj o => Some (prod_map id cell_of_json <$> o)
               | _ => None
               end) data.

(** [feature_columns or []], read as the headers it can name: the texts of a
    list (a scalar of another type names no header).  Any other truthy shape
    is not followed. *)
Definition features_of (v : option json) : option (list string) :=
  match v with
  | None => Some []
  | Some v =>
      if negb (truthy v) then Some []
      else match v with
           | JList l =>
               (λ ls, concat ls) <$> mapM (λ c, match c with
                                     | JStr s => Some [s]
                                     | JList _ | JObj _ => None
                                     | _ => Some []
                                     end) l
           | _ => None
           end
  end.

Definition callback_keys : list string :=
  ["callback"; "webhook"; "notify"; "async"; "background"]%string.

(** The loop over [payload.items()]: the value of the first key, in the
    order of the payload, that is a callback key when lower-cased. *)
Fixpoint find_callback (items : list (string * json)) : option json :=
  match items with
  | [] => None
  | (key, value) :: rest =>
      if bool_decide (Unicode.lower key ∈ callback_keys) then Some value
      else find_callback rest
  end.

(** [str(n)] for an integer. *)
Definition str_int (n : Z) : string :=
  DecimalString.NilZero.string_of_int (Z.to_int n).

(** The thread.  Its first statement reads [current_app], which is bound in
    the thread of the request and not in this one: [RuntimeError], before
    the pipeline is built.  The handler posts the failure with [headers],
    the name that statement was to bind: [UnboundLocalError], which the bare
    [except] swallows.  Nothing is run and nothing is posted. *)
Definition send_callback (request_id : string) (callback_url : json)
  : option json :=
  None.

(** The [try] around [pipeline.run(data)] on the synchronous path. *)
Definition respond (r : result json) : outcome :=
  match r with
  | Ok result => Response 200 result
  | Raise (Exn ValueError msg) => _unprocessable msg "insufficient_data"
  | Raise (Exn Unmodelled _) => NotModelled
  | Raise (Exn _ msg) =>
      Response 500 (JObj [("error", JStr "internal_error"); ("message", JStr msg)]%string)
  end.

(** The request after validation: the pipeline to run, the rows, and the
    callback value found, if any. *)
Inductive validated :=
| Rejected (o : outcome)
| Accepted (prediction_frequency : string) (prediction_period : Z)
    (feature_columns : option json) (confidence_interval : bool)
    (data : list json) (callback_url : option json).

Definition validate (payload : list (string * json)) : validated :=
  let data := dict_get "data" payload in
  let prediction_period := dict_get "prediction_period" payload in
  let prediction_frequency := dict_get "prediction_frequency" payload in
  let feature_columns := dict_get "feature_columns" payload in
  let confidence_interval :=
    truthy (default (JBool false) (dict_get "confidence_interval" payload)) in
  match data with
  | Some (JList ((_ :: _) as data)) =>
      let period := match prediction_period with
                    | Some (JInt n) => if (n <=? 0)%Z then None else Some n
                    | Some (JBool true) => Some 1%Z
                    | _ => None
                    end in
      match period with
      | Some period =>
          match prediction_frequency with
          | Some (JStr f) =>
              if String.eqb f "weekly" || String.eqb f "monthly" then
                Accepted f period feature_columns confidence_interval data
                  (find_callback payload)
              else
                Rejected (_bad_request
                  "'prediction_frequency' zorunludur ve 'weekly'/'monthly' olmalıdır."
                  "missing_parameter")
          | Some (JList (_ :: _)) | Some (JObj (_ :: _)) =>
              Rejected (Uncaught (Exn TypeError "unhashable type"))
          | _ =>
              Rejected (_bad_request
                "'prediction_frequency' zorunludur ve 'weekly'/'monthly' olmalıdır."
                "missing_parameter")
          end
      | None =>
          Rejected (_bad_request
            "'prediction_period' zorunludur ve pozitif bir sayı olmalıdır."
            "missing_parameter")
      end
  | _ =>
      Rejected (_bad_request "'data' zorunludur ve boş olmamalıdır." "missing_parameter")
  end.

(** The pipeline the view builds for a validated request, and the rows it
    runs it on. *)
Definition job (cfg : config) (v : validated)
  : option (PredictionPipeline * list (list (string * cell))) :=
  match v with
  | Accepted prediction_frequency prediction_period feature_columns
      confidence_interval data _ =>
      match records_of data, features_of feature_columns with
      | Some records, Some features =>
          Some (build_pipeline prediction_frequency prediction_frequency
                  prediction_period features confidence_interval
                  (MIN_DATA_POINTS cfg), records)
      | _, _ => None
      end
  | Rejected _ => None
  end.

(** The synchronous path: build and run the pipeline, answer by [respond]. *)
Definition synchronous (ext : externals) (cfg : config) (v : validated) : outcome :=
  match job cfg v with
  | Some (pipeline, records) => respond (run ext pipeline records).2
  | None => NotModelled
  end.

(** The view, on a body that parsed to a JSON object; [now] is
    [int(time.time())]. *)
Definition predict (ext : externals) (cfg : config) (now : Z)
    (payload : list (string * json)) : outcome :=
  match validate payload with
  | Rejected o => o
  | Accepted _ _ _ _ _ callback_url as v =>
      match callback_url with
      | Some url =>
          if truthy url then
            let request_id := ("req_" +:+ str_int now)%string in
            let response_data :=
              JObj [("success", JBool true);
                    ("message", JStr "İstek alındı, işlem arka planda devam ediyor");
                    ("request_id", JStr request_id);
                    ("status", JStr "processing");
                    ("callback_url", url)]%string in
            Processing response_data (send_callback request_id url)
          else synchronous ext cfg v
      | None => synchronous ext cfg v
      end
  end.

End Routes.

(** ** app/auth.py *)

Module Auth.

Definition BEARER_PREFIX : string := "bearer ".

(** [str.isspace] on a character of a header or of an environment value,
    both below 256: the ASCII white space, the four separators 28 to 31,
    NEL and the no-break space. *)
Definition isspace (c : ascii) : bool :=
  let n := nat_of_ascii c in
  ((9 <=? n)%nat && (n <=? 13)%nat) || ((28 <=? n)%nat && (n <=? 32)%nat)
  || Nat.eqb n 133 || Nat.eqb n 160.

Fixpoint lstrip (s : string) : string :=
  match s with
  | String c r => if isspace c then lstrip r else s
  | EmptyString => EmptyString
  end.

Fixpoint rstrip (s : string) : string :=
  match s with
  | String c r =>
      match rstrip r with
      | EmptyString => if isspace c then EmptyString else String c EmptyString
      | r' => String c r'
      end
  | EmptyString => EmptyString
  end.

(** [str.strip()] *)
Definition strip (s : string) : string := rstrip (lstrip s).

(** Truth value of an optional string: [None] and the empty string are
    falsy. *)
Definition given (s : option string) : bool :=
  match s with
  | Some s => negb (String.eqb s "")
  | None => false
  end.

(** [{v.strip() for v in values if isinstance(v, str) and v.strip()}], and
    the empty set for [None] or no value at all. *)
Definition _normalize_set (values : option (list json)) : gset string :=
  match values with
  | None | Some [] => ∅
  | Some values =>
      list_to_set
        (omap (λ v, match v with
                    | JStr s => if given (Some (strip s)) then Some (strip s) else None
                    | _ => None
                    end) values)
  end.

(** [s.split(" ", 1)]: what precedes the first space and, when there is a
    space, what follows it. *)
Fixpoint split_space (s : string) : string * option string :=
  match s with
  | EmptyString => (EmptyString, None)
  | String c r =>
      if Ascii.eqb c " " then (EmptyString, Some r)
      else let '(a, b) := split_space r in (String c a, b)
  end.

(** The prefix is tested on the lower-cased header; its letters are ASCII,
    so that only the ASCII letters of the header matter. *)
Definition _get_bearer_token (auth_header : option string) : option string :=
  match auth_header with
  | Some header =>
      if negb (given auth_header) then None
      else if String.prefix BEARER_PREFIX (lower header) then
        match split_space header with
        | (_, Some rest) => if given (Some (strip rest)) then Some (strip rest) else None
        | (_, None) => None
        end
      else None
  | None => None
  end.

(** What [extract_token_from_headers] reads of a request. *)
Record Request := {
  Authorization : option string;
  X_API_Key : option string
}.

Definition extract_token_from_headers (request : Request) : option string :=
  let token := _get_bearer_token (Authorization request) in
  if given token then token
  else
    let alt := X_API_Key request in
    if given alt then strip <$> alt else None.

Definition is_ascii (s : string) : bool :=
  forallb (λ c, (nat_of_ascii c <? 128)%nat) (list_ascii_of_string s).

Definition NotASCII : exn :=
  Exn TypeError "comparing strings with non-ASCII characters is not supported".

(** [hmac.compare_digest] on two [str]: it compares ASCII strings only. *)
Definition compare_digest (a b : string) : result bool :=
  if is_ascii a && is_ascii b then Ok (String.eqb a b) else Raise NotASCII.

(** The loop over the allowed set, in the order the set is iterated. *)
Fixpoint _contains_secure (token : string) (allowed : list string) : result bool :=
  match allowed with
  | [] => Ok false
  | t :: rest =>
      same ← compare_digest token t;
      if same : bool then Ok true else _contains_secure token rest
  end.

(** [iterate] is the order in which Python iterates over a set of strings,
    which the language leaves open. *)
Definition is_authorized (iterate : gset string → list string)
    (token : option string) (api_secret_tokens api_keys : option (list json))
  : result bool :=
  match token with
  | Some t =>
      if negb (given token) then Ok false
      else
        let secrets := _normalize_set api_secret_tokens in
        let keys := _normalize_set api_keys in
        found ← _contains_secure t (iterate secrets);
        if found : bool then Ok true else _contains_secure t (iterate keys)
  | None => Ok false
  end.

End Auth.

(** ** app/config.py *)

Module Config.

(** [s.split(sep)] for a separator of one character. *)
Fixpoint split (sep : ascii) (s : string) : list string :=
  match s with
  | EmptyString => [EmptyString]
  | String c r =>
      if Ascii.eqb c sep then EmptyString :: split sep r
      else match split sep r with
           | h :: t => String c h :: t
           | [] => [String c EmptyString]
           end
  end.

(** [os.getenv(key)] reads the environment, a map from names to values. *)
Definition _env_bool (environ : gmap string string) (key : string) (default : bool)
  : bool :=
  match environ !! key with
  | None => default
  | Some val => bool_decide (lower (Auth.strip val) ∈ ["1"; "true"; "yes"; "on"]%string)
  end.

(** [[t.strip() for t in os.getenv(key, "").split(",") if t.strip()]], the
    value of [API_SECRET_TOKENS] and of [API_KEYS]. *)
Definition tokens (environ : gmap string string) (key : string) : list string :=
  omap (λ t, if Auth.given (Some (Auth.strip t)) then Some (Auth.strip t) else None)
       (split "," (default ""%string (environ !! key))).

Definition ALLOWED_FREQUENCIES : list string := ["weekly"; "monthly"]%string.

(** The attributes [freq_to_rule] reads. *)
Record Config := {
  WEEKLY_RULE : string;
  MONTHLY_RULE : string
}.

Definition freq_to_rule (cls : Config) (freq : string) : result string :=
  if String.eqb freq "weekly" then Ok (WEEKLY_RULE cls)
  else if String.eqb freq "monthly" then Ok (MONTHLY_RULE cls)
  else Raise (Exn ValueError ("Unsupported frequency: " +:+ freq)).

End Config.

(** ** A reference choice of the external collaborators

    Dates are read in the ISO form [YYYY-MM-DD], numbers as nanoseconds since
    the epoch, missing values as the missing timestamp; the engine repeats
    the last observation with a band of ten around it, on the periods that
    follow the last one of the history. *)

Module Reference.
Import Preprocess.

Definition digit_value (c : ascii) : option Z :=
  let n := nat_of_ascii c in
  if ((48 <=? n)%nat && (n <=? 57)%nat)%bool then Some (Z.of_nat (n - 48)) else None.

Fixpoint number_value (acc : Z) (cs : list ascii) : option Z :=
  match cs with
  | [] => Some acc
  | c :: r => v ← digit_value c; number_value (acc * 10 + v) r
  end.

Definition parse_iso (s : string) : option Z :=
  match list_ascii_of_string s with
  | [y1; y2; y3; y4; "-"%char; m1; m2; "-"%char; d1; d2] =>
      y ← number_value 0 [y1; y2; y3; y4];
      m ← number_value 0 [m1; m2];
      d ← number_value 0 [d1; d2];
      let z := days_from_civil y m d in
      if bool_decide (civil_from_days z = (y, m, d)) then Some z else None
  | _ => None
  end.

Definition parse_cell (c : cell) : option (option Z) :=
  match c with
  | NaN => Some None
  | Stamp d => Some (Some d)
  | Num q => Some (Some (Qfloor (q / 86400000000000)))
  | Text s => Some <$> parse_iso s
  | Obj => None
  end.

Definition naive_engine (train : series) (r : rule) (periods : Z)
  : result (list forecast_row) :=
  match reverse train with
  | (d, y) :: _ :: _ =>
      Ok ((λ k, {| f_ds := match r with
                           | W_MON => d + 7 * k
                           | MS => month_first (month_index d + k)
                           | OtherRule _ => d + k
                           end%Z;
                   f_yhat := y;
                   f_yhat_lower := y - 10;
                   f_yhat_upper := y + 10 |}) <$> seqZ 1 periods)
  | _ => Raise (Exn ValueError "Dataframe has less than 2 non-NaN rows.")
  end.

Definition reference_externals : externals :=
  {| to_datetime := λ vs,
       match mapM parse_cell vs with
       | Some ds => Ok ds
       | None => Raise (Exn ValueError "Unknown datetime string format")
       end;
     to_datetime_coerce := λ vs, (λ c, default None (parse_cell c)) <$> vs;
     infer_freq_other := λ _, None;
     date_range_other := λ _ _ _, [];
     prophet := naive_engine |}.

End Reference.

(** ** Case, as the specification words it *)

(** [c] is the capital of the letter [d]. *)
Definition capital_of (c d : ascii) : Prop :=
  (97 ≤ nat_of_ascii d ≤ 122)%nat ∧ (nat_of_ascii c + 32 = nat_of_ascii d)%nat.

(** The Kelvin sign, a third form of the letter k. *)
Definition KELVIN_SIGN : string :=
  String (ascii_of_nat 226) (String (ascii_of_nat 132) (String (ascii_of_nat 170) "")).

(** A name reads as a word of small ASCII letters, digits and signs when the
    case of its letters is ignored: character by character it has the
    character of the word, or its capital, or the Kelvin sign for a k. *)
Inductive same_ignoring_case : string → string → Prop :=
| same_end : same_ignoring_case "" ""
| same_character c name word :
    same_ignoring_case name word →
    same_ignoring_case (String c name) (String c word)
| same_capital c d name word :
    capital_of c d →
    same_ignoring_case name word →
    same_ignoring_case (String c name) (String d word)
| same_kelvin name word :
    same_ignoring_case name word →
    same_ignoring_case (KELVIN_SIGN +:+ name) (String "k" word).

(** A word without capitals and within ASCII, as the aliases are. *)
Definition small_word (word : string) : Prop :=
  Forall (λ c, (nat_of_ascii c < 128)%nat ∧ ¬ (65 ≤ nat_of_ascii c ≤ 90)%nat)
         (list_ascii_of_string word).

(** ** The column detector, as the specification words it *)

Module DetectorSpec.
Import Preprocess.

(** Header [c] of the frame matches [alias] without regard to case. *)
Definition answers (df : DataFrame) (alias c : string) : Prop :=
  c ∈ columns df ∧ same_ignoring_case c alias.

Definition unanswered (df : DataFrame) (alias : string) : Prop :=
  ∀ c, ¬ answers df alias c.

(** Column [c] parses as timestamps for every row: it is the one column of
    its name, and its values are timestamps or missing already, or
    [pd.to_datetime] returns on them. *)
Definition parses_for_every_row (ext : externals) (df : DataFrame) (c : string)
  : Prop :=
  ∃ before vs after,
    df = before ++ (c, vs) :: after
    ∧ (c ∉ columns before) ∧ (c ∉ columns after)
    ∧ (Forall (λ v, v = NaN ∨ ∃ d, v = Stamp d) vs
       ∨ ∃ ds, to_datetime ext vs = Ok ds).

(** How one role is resolved: by the first alias of the list, in the order
    of the list, that some header matches; failing every alias, and for the
    date role only, by the first header, in the order of the input, whose
    column parses as timestamps; and by the [ColumnNotFound] failure
    otherwise. *)
Inductive resolves (ext : externals) (df : DataFrame)
    (candidates : list string) (is_date : bool) : result string → Prop :=
| by_alias before alias after c :
    candidates = before ++ alias :: after →
    Forall (unanswered df) before →
    answers df alias c →
    resolves ext df candidates is_date (Ok c)
| by_parsing before c after :
    Forall (unanswered df) candidates →
    is_date = true →
    columns df = before ++ c :: after →
    Forall (λ c', ¬ parses_for_every_row ext df c') before →
    parses_for_every_row ext df c →
    resolves ext df candidates is_date (Ok c)
| not_found :
    Forall (unanswered df) candidates →
    (is_date = true →
     Forall (λ c, ¬ parses_for_every_row ext df c) (columns df)) →
    resolves ext df candidates is_date (Raise ColumnNotFound).

(** Detection resolves both roles, or fails as soon as one cannot be. *)
Definition detects (ext : externals) (df : DataFrame) (r : result detected) : Prop :=
  match r with
  | Ok m =>
      resolves ext df DATE_CANDIDATES true (Ok (date m))
      ∧ resolves ext df TARGET_CANDIDATES false (Ok (target m))
  | Raise e =>
      e = ColumnNotFound
      ∧ (resolves ext df DATE_CANDIDATES true (Raise ColumnNotFound)
         ∨ resolves ext df TARGET_CANDIDATES false (Raise ColumnNotFound))
  end.

End DetectorSpec.

(** ** The backtest, as the specification words it *)

Definition clamp (x lo hi : Z) : Z := Z.max lo (Z.min x hi).

(** The trace shows a fit of the backtest model. *)
Definition backtested (t : list event) : Prop :=
  ∃ train r periods, Fit bt_model train r periods ∈ t.

(** The forecasts of date [d], each beside the held-out value [y]. *)
Fixpoint forecasts_on (d : Z) (y : Q) (bt : list forecast_row) : list (Q * Q) :=
  match bt with
  | [] => []
  | f :: rest =>
      if (f_ds f =? d)%Z then (y, f_yhat f) :: forecasts_on d y rest
      else forecasts_on d y rest
  end.

(** The inner join on the timestamp of the held-out tail with the backtest
    forecast: a held-out value beside each forecast of its date, and no
    other row. *)
Fixpoint inner_join (held_out : list (Z * Q)) (bt : list forecast_row)
  : list (Q * Q) :=
  match held_out with
  | [] => []
  | (d, y) :: rest => forecasts_on d y bt ++ inner_join rest bt
  end.

(** ** Reading a result payload *)

Definition field (k : string) (v : json) : option json :=
  match v with
  | JObj o => dict_get k o
  | _ => None
  end.

Definition predictions (result : json) : list json :=
  match field "predictions" result with
  | Some (JList l) => l
  | _ => []
  end.

Definition summary (k : string) (result : json) : option json :=
  field "data_summary" result ≫= field k.

(** ** Non-negative output, as the specification words it *)

(** The floor at zero of one forecast row. *)
Definition floored (confidence : bool) (row : forecast_row) : json :=
  JObj ([("date", JStr (isoformat (f_ds row)));
         ("predicted_value", JNum (Qmax 0 (f_yhat row)))]%string
        ++ (if confidence then
              [("confidence_lower", JNum (Qmax 0 (f_yhat_lower row)));
               ("confidence_upper", JNum (Qmax 0 (f_yhat_upper row)))]%string
            else [])).

Definition non_negative_item (it : json) : Prop :=
  (∃ v, field "predicted_value" it = Some (JNum v) ∧ (0 <= v)%Q)
  ∧ (∀ v, field "confidence_lower" it = Some v → ∃ q, v = JNum q ∧ (0 <= q)%Q)
  ∧ (∀ v, field "confidence_upper" it = Some v → ∃ q, v = JNum q ∧ (0 <= q)%Q).

(** ** The dispatch policy, as the specification words it *)

Module DispatchSpec.
Import Routes.

(** The five callback indicators. *)
Definition indicators : list string :=
  ["callback"; "webhook"; "notify"; "async"; "background"]%string.

(** A callback-indicator key: one of the five synonyms, whatever its case. *)
Definition is_callback_key (k : string) : Prop :=
  ∃ word, word ∈ indicators ∧ same_ignoring_case k word.

(** The request names [url] under its first callback-indicator key. *)
Definition first_callback (payload : list (string * json)) (url : json) : Prop :=
  ∃ before key after,
    payload = before ++ (key, url) :: after
    ∧ Forall (λ kv : string * json, ¬ is_callback_key kv.1) before
    ∧ is_callback_key key.

(** The request was acknowledged and handed to a background thread. *)
Definition asynchronous (o : outcome) : Prop :=
  match o with
  | Processing _ _ => True
  | _ => False
  end.

Definition valid (payload : list (string * json)) : Prop :=
  ∀ o, validate payload ≠ Rejected o.

End DispatchSpec.

(** ** The sanitiser on an aggregated series, as the specification words it *)

(** One clipping pass over the values of a column: the fences are computed
    from the values as they stand; fewer than two values are left alone. *)
Definition reclip (ys : list Q) : list Q :=
  if (length ys <? 2)%nat then ys
  else Preprocess.clip (Preprocess.fences ys).1 (Preprocess.fences ys).2 <$> ys.

(** What the aggregator returns: the sums per bin of some rows under one of
    the two anchored rules. *)
Definition aggregated (s : Preprocess.series) : Prop :=
  ∃ r rows, (r = W_MON ∨ r = MS) ∧ s = Preprocess.resample_sum r rows.

(** Empty, or on the grid of one of the two anchored rules. *)
Definition gridded (s : Preprocess.series) : Prop :=
  s = [] ∨ ∃ r, (r = W_MON ∨ r = MS) ∧ Preprocess.on_grid r s.*1 = true.

(** ** The grid of a rule, as the aggregator documents it *)

(** A date on the anchor of a rule: a Monday, or the first of a month. *)
Definition anchored (r : rule) (l : Z) : Prop :=
  match r with
  | W_MON => weekday l = 0%Z
  | MS => ∃ y m, civil_from_days l = (y, m, 1%Z)
  | OtherRule _ => False
  end.

(** The anchor one period later. *)
Definition next_period (r : rule) (l : Z) : Z :=
  match r with
  | W_MON => (l + 7)%Z
  | MS => month_first (month_index l + 1)
  | OtherRule _ => l
  end.

(** Bucket [l] holds day [d]: the week that ends on the Monday [l], or the
    month that starts on [l]. *)
Definition holds (r : rule) (l d : Z) : Prop :=
  match r with
  | W_MON => (l - 7 < d ≤ l)%Z
  | MS => (l ≤ d < next_period MS l)%Z
  | OtherRule _ => False
  end.

(** ** Whole numbers, as the aggregator sums them *)

Definition Zsum (l : list Z) : Z := foldr Z.add 0%Z l.

(** ** Joining, as the configuration documents its lists *)

(** [sep.join(items)] *)
Fixpoint joined (sep : string) (items : list string) : string :=
  match items with
  | [] => ""
  | [item] => item
  | item :: rest => item +:+ sep +:+ joined sep rest
  end.

(** ** Sample requests *)

Module Samples.
Import Reference.

Definition sale (day : string) (amount : Z) : list (string * cell) :=
  [("date", Text day); ("sales", Num (inject_Z amount))]%string.

(** Two observations three weeks apart. *)
Definition two_rows : list (list (string * cell)) :=
  [sale "2024-01-01" 6; sale "2024-01-22" 7].

(** Three consecutive days, Sunday to Tuesday. *)
Definition three_days : list (list (string * cell)) :=
  [sale "2023-12-31" 5; sale "2024-01-01" 6; sale "2024-01-02" 7].

Definition weekly (features : list string) (confidence : bool) (minimum : Z)
  : Pipeline.PredictionPipeline :=
  Pipeline.build_pipeline "weekly" "weekly" 4 features confidence minimum.

(** A request whose rows have a date and no target column. *)
Definition no_target_request : list (string * json) :=
  [("data", JList [JObj [("date", JStr "2024-01-01")]]);
   ("prediction_period", JInt 4);
   ("prediction_frequency", JStr "weekly")]%string.

(** The same request with an address under [webhook] and an empty
    [callback] after it, and with the two the other way round. *)
Definition webhook_then_empty_callback : list (string * json) :=
  no_target_request
  ++ [("webhook", JStr "http://client/hook"); ("callback", JStr "")]%string.

Definition empty_callback_then_webhook : list (string * json) :=
  no_target_request
  ++ [("Callback", JStr ""); ("webhook", JStr "http://client/hook")]%string.

Definition thirty : Routes.config := {| Routes.MIN_DATA_POINTS := 30 |}.

(** Three consecutive days, Tuesday to Thursday. *)
Definition midweek_days : list (list (string * cell)) :=
  [sale "2024-01-02" 5; sale "2024-01-03" 6; sale "2024-01-04" 7].

(** Four weekly totals, the first far below the others. *)
Definition four_weeks : list (list (string * cell)) :=
  [sale "2024-01-01" 0; sale "2024-01-08" 8; sale "2024-01-15" 8;
   sale "2024-01-22" 8].

Definition four_rows : Preprocess.series :=
  [(19723%Z, 0%Q); (19730%Z, 8%Q); (19737%Z, 8%Q); (19744%Z, 8%Q)].

Definition spiky : Preprocess.series :=
  Eval vm_compute in Preprocess.resample_sum W_MON four_rows.

Definition sanitized (s : Preprocess.series) : Preprocess.series :=
  match Preprocess.sanitize_outliers_and_missing reference_externals s with
  | Ok s' => s'
  | Raise _ => []
  end.

Definition once : Preprocess.series := Eval vm_compute in sanitized spiky.

Definition twice : Preprocess.series := Eval vm_compute in sanitized once.

Definition outcome_of (r : traced json) : json :=
  match r.2 with Ok result => result | Raise _ => JNull end.

Definition plain_trace : list event :=
  Eval vm_compute in (Pipeline.run reference_externals (weekly [] false 3) two_rows).1.

Definition plain_result : json :=
  Eval vm_compute in
    outcome_of (Pipeline.run reference_externals (weekly [] false 3) two_rows).

Definition banded_trace : list event :=
  Eval vm_compute in (Pipeline.run reference_externals (weekly [] true 3) two_rows).1.

Definition banded_result : json :=
  Eval vm_compute in
    outcome_of (Pipeline.run reference_externals (weekly [] true 3) two_rows).

(** A normalised frame of four days, the first a Sunday. *)
Definition normalized_days : DataFrame :=
  [("ds", Stamp <$> [19722; 19723; 19724; 19744]%Z);
   ("y", Num <$> [5; 6; 7; 9]%Q)]%string.

(** Two observations out of order. *)
Definition unsorted_rows : list (list (string * cell)) :=
  [sale "2024-01-22" 7; sale "2024-01-01" 6].

(** Two observations six weeks apart: seven weekly buckets, enough for a
    backtest. *)
Definition seven_weeks : list (list (string * cell)) :=
  [sale "2024-01-01" 6; sale "2024-02-12" 7].

Definition clean_of (records : list (list (string * cell))) : Preprocess.series :=
  match Pipeline.df_clean reference_externals (weekly [] false 3) records with
  | Ok clean => clean
  | Raise _ => []
  end.

Definition four_clean : Preprocess.series := Eval vm_compute in clean_of two_rows.

Definition seven_clean : Preprocess.series := Eval vm_compute in clean_of seven_weeks.

(** A frame whose only column is a target by its name and dates by its
    content. *)
Definition only_sales : list (list (string * cell)) :=
  [[("sales", Num 1704067200000000000)]; [("sales", Num 1704153600000000000)]]%string.

Definition three : Routes.config := {| Routes.MIN_DATA_POINTS := 3 |}.

(** A request that can be served. *)
Definition served_request : list (string * json) :=
  [("data", JList [JObj [("date", JStr "2024-01-01"); ("sales", JInt 6)];
                   JObj [("date", JStr "2024-01-22"); ("sales", JInt 7)]]);
   ("prediction_period", JInt 4);
   ("prediction_frequency", JStr "weekly")]%string.

(** Two held-out values with their forecasts, the second value zero. *)
Definition held_out_pairs : list (Q * Q) := [(4, 3); (0, 1)]%Q.

(** An environment with two secret tokens and no key. *)
Definition environ : gmap string string :=
  {[ "API_SECRET_TOKENS"%string := "alpha, beta"%string ]}.

(** A token with a letter outside ASCII. *)
Definition accented : string := "cl" +:+ String (ascii_of_nat 233) "".

(** A target header and a callback key written with the Kelvin sign. *)
Definition kelvin_header : string := "mi" +:+ KELVIN_SIGN +:+ "tar".

Definition kelvin_rows : list (list (string * cell)) :=
  [[("Date", Text "2024-01-01"); (kelvin_header, Num 6)]]%string.

Definition kelvin_key : string := "bac" +:+ KELVIN_SIGN +:+ "ground".

Definition kelvin_request : list (string * json) :=
  served_request ++ [(kelvin_key, JStr "http://client/hook")].

End Samples.

(** * Properties *)

(** Membership in a list written out. *)
Ltac members H :=
  repeat first [ apply elem_of_cons in H as [H|H]
               | apply elem_of_nil in H as [] ].

(** ** The case of letters *)

Section Letters.
Import Unicode.

Lemma byte_nat (c : ascii) : byte c = Z.of_nat (nat_of_ascii c).
Proof. unfold byte, nat_of_ascii. by rewrite N_nat_Z. Qed.

Lemma byte_range (c : ascii) : in_byte (byte c).
Proof.
  unfold in_byte. rewrite byte_nat. pose proof (nat_ascii_bounded c). lia.
Qed.

Lemma char_byte (c : ascii) : char (byte c) = c.
Proof. unfold char, byte. rewrite N2Z.id. apply ascii_N_embedding. Qed.

Lemma byte_char (b : Z) : in_byte b → byte (char b) = b.
Proof.
  intros [H0 H1]. unfold char, byte.
  rewrite N_ascii_embedding; [lia|]. lia.
Qed.

Lemma text_bytes (s : string) : text (bytes s) = s.
Proof.
  unfold text, bytes. rewrite <- list_fmap_compose.
  rewrite <- (string_of_list_ascii_of_string s) at 2. f_equal.
  induction (list_ascii_of_string s) as [|c l IH]; [done|].
  cbn. by rewrite char_byte, IH.
Qed.

Lemma bytes_text (bs : list Z) : Forall in_byte bs → bytes (text bs) = bs.
Proof.
  intros H. unfold text, bytes. rewrite list_ascii_of_string_of_list_ascii.
  rewrite <- list_fmap_compose.
  induction H as [|b bs Hb _ IH]; [done|].
  cbn. rewrite byte_char by done. by rewrite IH.
Qed.

Lemma bytes_range (s : string) : Forall in_byte (bytes s).
Proof.
  unfold bytes. apply Forall_fmap, Forall_forall. intros c _. apply byte_range.
Qed.


Ltac bounds :=
  repeat match goal with
         | H : _ && _ = true |- _ => apply andb_true_iff in H; destruct H
         | H : (_ <=? _)%Z = true |- _ => apply Z.leb_le in H
         | H : (_ <? _)%Z = true |- _ => apply Z.ltb_lt in H
         | H : (_ <? _)%Z = false |- _ => apply Z.ltb_ge in H
         | H : (_ <=? _)%Z = false |- _ => apply Z.leb_gt in H
         | H : (_ =? _)%Z = true |- _ => apply Z.eqb_eq in H
         | H : (_ =? _)%Z = false |- _ => apply Z.eqb_neq in H
         end.

Lemma two_Some (b0 b1 p : Z) :
  two b0 b1 = Some p → (128 ≤ p < 2048)%Z.
Proof.
  unfold two, continuation. destruct (_ && _) eqn:E; [|done].
  intros [= Hp]. bounds. lia.
Qed.

Lemma three_Some (b0 b1 b2 p : Z) :
  three b0 b1 b2 = Some p →
  (2048 ≤ p < 65536)%Z ∧ (p = 8490 → b0 = 226 ∧ b1 = 132 ∧ b2 = 170)%Z.
Proof.
  unfold three, continuation. destruct (_ && _) eqn:E; [|done].
  cbv zeta. destruct (2048 <=? _)%Z eqn:E2; [|done].
  intros [= Hp]. bounds. split; [lia|]. intros ->.
  assert (b0 = 226)%Z as -> by lia.
  assert (b1 = 132)%Z as -> by lia.
  split_and!; lia.
Qed.

Lemma four_Some (b0 b1 b2 b3 p : Z) :
  four b0 b1 b2 b3 = Some p → (65536 ≤ p < 1114112)%Z.
Proof.
  unfold four, continuation. destruct (_ && _ && _ && _) eqn:E; [|done].
  cbv zeta. destruct ((65536 <=? _)%Z && _) eqn:E2; [|done].
  intros [= Hp]. bounds. lia.
Qed.

(** The first code point of a text that starts outside ASCII. *)
Lemma decode_head (b0 : Z) (r0 : list Z) :
  in_byte b0 → (128 ≤ b0)%Z → Forall in_byte r0 →
  ∃ p rest,
    decode (b0 :: r0) = p :: decode rest
    ∧ (128 ≤ p)%Z ∧ valid_point p
    ∧ (length rest ≤ length r0)%nat
    ∧ Forall in_byte rest
    ∧ (p = 8490%Z → b0 = 226%Z ∧ r0 = 132%Z :: 170%Z :: rest).
Proof.
  intros Hb Hge Hr. unfold in_byte, valid_point in *.
  assert (∀ E : decode (b0 :: r0) = stray b0 :: decode r0,
            ∃ p rest, decode (b0 :: r0) = p :: decode rest
                       ∧ (128 ≤ p)%Z ∧ (0 ≤ p < 1114112 ∨ 1114240 ≤ p < 1114368)%Z
                       ∧ (length rest ≤ length r0)%nat
                       ∧ Forall in_byte rest
                       ∧ (p = 8490%Z → b0 = 226%Z ∧ r0 = 132%Z :: 170%Z :: rest)) as Hstray.
  { intros E. exists (stray b0), r0. unfold stray. split_and!; [done|lia|lia|done|done|lia]. }
  cbn [decode] in *.
  destruct (b0 <? 128)%Z eqn:E0; [bounds; lia|].
  destruct r0 as [|b1 r1]; [by apply Hstray|].
  apply Forall_cons in Hr as [Hb1 Hr1].
  destruct (two b0 b1) as [p|] eqn:E2.
  { apply two_Some in E2. exists p, r1. split_and!; [done|lia|lia|cbn; lia|done|lia]. }
  destruct r1 as [|b2 r2]; [by apply Hstray|].
  apply Forall_cons in Hr1 as [Hb2 Hr2].
  destruct (three b0 b1 b2) as [p|] eqn:E3.
  { apply three_Some in E3 as [E3 K]. exists p, r2.
    split_and!; [done|lia|lia|cbn; lia|done|].
    intros Hp. destruct (K Hp) as (-> & -> & ->). done. }
  destruct r2 as [|b3 r3]; [by apply Hstray|].
  apply Forall_cons in Hr2 as [Hb3 Hr3].
  destruct (four b0 b1 b2 b3) as [p|] eqn:E4; [|by apply Hstray].
  apply four_Some in E4. exists p, r3. split_and!; [done|lia|lia|cbn; lia|done|lia].
Qed.

Lemma decode_ascii (b0 : Z) (r0 : list Z) :
  (b0 < 128)%Z → decode (b0 :: r0) = b0 :: decode r0.
Proof. intros H. cbn [decode]. by apply Z.ltb_lt in H as ->. Qed.

Lemma decode_kelvin (rest : list Z) :
  decode (226 :: 132 :: 170 :: rest)%Z = 8490%Z :: decode rest.
Proof. reflexivity. Qed.


(** *** Lower case keeps a text a text *)

Lemma decode_valid (bs : list Z) :
  Forall in_byte bs → Forall valid_point (decode bs).
Proof.
  remember (length bs) as n eqn:Hn. revert bs Hn.
  induction (lt_wf n) as [n _ IH]. intros bs -> Hbs.
  destruct bs as [|b0 r0]; [constructor|].
  apply Forall_cons in Hbs as [Hb0 Hr0].
  destruct (Z_lt_dec b0 128) as [Hlt|Hge].
  - rewrite decode_ascii by done. constructor.
    + left. unfold in_byte in Hb0. lia.
    + apply (IH (length r0)); [cbn; lia|done|done].
  - destruct (decode_head b0 r0 Hb0 ltac:(lia) Hr0)
      as (p & rest & -> & _ & Hp & Hlen & Hrest & _).
    constructor; [done|]. apply (IH (length rest)); [cbn; lia|done|done].
Qed.

Lemma LOWER_in_range : forallb run_in_range LOWER = true.
Proof. vm_compute. reflexivity. Qed.

Lemma find_run (p lo hi step delta : Z) :
  List.find (in_run p) LOWER = Some (lo, hi, step, delta) →
  (lo ≤ p ≤ hi ∧ 0 ≤ lo + delta ∧ hi + delta < 1114112
   ∧ (hi < 128 ∨ (p = 8490 ∧ delta = -8383) ∨ (128 ≤ lo ∧ 128 ≤ lo + delta)))%Z.
Proof.
  intros [Hin Hrun]%find_some.
  pose proof LOWER_in_range as G. rewrite forallb_forall in G.
  specialize (G _ Hin). unfold run_in_range in G. unfold in_run in Hrun.
  apply andb_true_iff in G as [G1 G2].
  apply orb_true_iff in G2 as [G2|G2]; [apply orb_true_iff in G2 as [G2|G2]|];
    bounds; lia.
Qed.

Lemma to_lower_full_valid (p : Z) :
  valid_point p → Forall valid_point (to_lower_full p).
Proof.
  intros Hp. unfold to_lower_full, valid_point in *.
  destruct (p <? 128)%Z eqn:E1.
  { apply Forall_singleton. left. destruct (_ && _) eqn:E2; bounds; lia. }
  destruct (p =? 304)%Z eqn:E2.
  { apply Forall_cons. split; [lia|]. apply Forall_singleton. lia. }
  destruct (List.find (in_run p) LOWER) as [[[[lo hi] step] delta]|] eqn:F.
  - apply find_run in F. apply Forall_singleton. lia.
  - by apply Forall_singleton.
Qed.

(** Outside ASCII the Kelvin sign alone has its lower case within ASCII. *)
Lemma to_lower_full_outside (p : Z) :
  valid_point p → (128 ≤ p)%Z →
  (p = 8490%Z ∧ to_lower_full p = [107%Z])
  ∨ ∃ q, q ∈ to_lower_full p ∧ (128 ≤ q)%Z ∧ valid_point q.
Proof.
  intros Hp Hge. pose proof (to_lower_full_valid p Hp) as Hv.
  unfold to_lower_full in *.
  destruct (p <? 128)%Z eqn:E1; [bounds; lia|].
  destruct (p =? 304)%Z eqn:E2.
  { right. exists 775%Z. split; [|split; [lia|left; lia]].
    apply list_elem_of_further, list_elem_of_here. }
  destruct (List.find (in_run p) LOWER) as [[[[lo hi] step] delta]|] eqn:F.
  - apply find_run in F. destruct F as (F1 & F2 & F3 & [F4|[[F4 F5]|F4]]).
    + lia.
    + left. subst. done.
    + right. exists (p + delta)%Z. split; [apply list_elem_of_here|].
      split; [lia|]. by apply Forall_cons in Hv as [Hv _].
  - right. exists p. split; [apply list_elem_of_here|done].
Qed.

Lemma sigma_forms (before after : list Z) :
  handle_capital_sigma before after = 962%Z
  ∨ handle_capital_sigma before after = 963%Z.
Proof. unfold handle_capital_sigma. destruct (_ && _); auto. Qed.

Lemma lower_from_valid (before l : list Z) :
  Forall valid_point l → Forall valid_point (lower_from before l).
Proof.
  intros H. revert before. induction H as [|p l Hp _ IH]; intros before; [constructor|].
  cbn [lower_from]. apply Forall_app. split; [|apply IH].
  destruct (p =? 931)%Z.
  - apply Forall_singleton. unfold valid_point.
    destruct (sigma_forms before l) as [-> | ->]; lia.
  - by apply to_lower_full_valid.
Qed.

Lemma encode_point_bytes (p : Z) :
  valid_point p → Forall in_byte (encode_point p).
Proof.
  intros Hp. unfold encode_point, valid_point, in_byte in *.
  pose proof (Z.mod_pos_bound p 64 ltac:(lia)).
  pose proof (Z.mod_pos_bound (p / 64) 64 ltac:(lia)).
  pose proof (Z.mod_pos_bound (p / 4096) 64 ltac:(lia)).
  destruct (p <? 128)%Z eqn:E1; bounds.
  { apply Forall_singleton. lia. }
  assert (0 ≤ p)%Z as Hpos by lia.
  pose proof (Z.div_pos p 64 Hpos ltac:(lia)).
  pose proof (Z.div_pos p 4096 Hpos ltac:(lia)).
  pose proof (Z.div_pos p 262144 Hpos ltac:(lia)).
  destruct (p <? 2048)%Z eqn:E2; bounds.
  { pose proof (Z.div_lt_upper_bound p 64 32 ltac:(lia) ltac:(lia)).
    repeat (apply Forall_cons; split); [lia..|apply Forall_nil_2]. }
  destruct (p <? 65536)%Z eqn:E3; bounds.
  { pose proof (Z.div_lt_upper_bound p 4096 16 ltac:(lia) ltac:(lia)).
    repeat (apply Forall_cons; split); [lia..|apply Forall_nil_2]. }
  destruct (p <? 1114112)%Z eqn:E4; bounds.
  { pose proof (Z.div_lt_upper_bound p 262144 16 ltac:(lia) ltac:(lia)).
    repeat (apply Forall_cons; split); [lia..|apply Forall_nil_2]. }
  apply Forall_singleton. lia.
Qed.

Lemma encode_bytes (l : list Z) :
  Forall valid_point l → Forall in_byte (encode l).
Proof.
  intros H. unfold encode. induction H as [|p l Hp _ IH]; [constructor|].
  cbn. apply Forall_app. split; [by apply encode_point_bytes | exact IH].
Qed.

Lemma encode_point_outside (q : Z) :
  valid_point q → (128 ≤ q)%Z →
  ∃ b tail, encode_point q = b :: tail ∧ (128 ≤ b)%Z.
Proof.
  intros Hq Hge. unfold encode_point, valid_point in *.
  destruct (q <? 128)%Z eqn:E1; [bounds; lia|].
  assert (0 ≤ q)%Z as Hpos by lia.
  pose proof (Z.div_pos q 64 Hpos ltac:(lia)).
  pose proof (Z.div_pos q 4096 Hpos ltac:(lia)).
  pose proof (Z.div_pos q 262144 Hpos ltac:(lia)).
  destruct (q <? 2048)%Z eqn:E2; [eexists _, _; split; [reflexivity|lia]|].
  destruct (q <? 65536)%Z eqn:E3; [eexists _, _; split; [reflexivity|lia]|].
  destruct (q <? 1114112)%Z eqn:E4; [eexists _, _; split; [reflexivity|lia]|].
  eexists _, _; split; [reflexivity|]. bounds. lia.
Qed.

Lemma lower_bytes_range (before hb : list Z) :
  Forall in_byte hb → Forall in_byte (lower_bytes before hb).
Proof.
  intros H. by apply encode_bytes, lower_from_valid, decode_valid.
Qed.

Lemma lower_text (h a : string) :
  lower h = a ↔ lower_bytes [] (bytes h) = bytes a.
Proof.
  unfold lower. fold (lower_bytes [] (bytes h)). split.
  - intros <-. rewrite bytes_text; [done|]. apply lower_bytes_range, bytes_range.
  - intros ->. apply text_bytes.
Qed.


(** *** Lower case and the case of ASCII letters *)

Lemma nat_char (b : Z) : in_byte b → nat_of_ascii (char b) = Z.to_nat b.
Proof.
  intros Hb. pose proof (byte_char b Hb) as E. rewrite byte_nat in E. lia.
Qed.

Lemma char_inj (b b' : Z) : in_byte b → in_byte b' → char b = char b' → b = b'.
Proof.
  intros Hb Hb' E. rewrite <- (byte_char b), <- (byte_char b') by done.
  by rewrite E.
Qed.

Lemma small_word_bytes (a : string) : small_word a → Forall plain (bytes a).
Proof.
  unfold small_word, bytes. intros H. apply Forall_fmap.
  eapply Forall_impl; [exact H|]. intros c [H1 H2]. unfold plain, compose.
  rewrite byte_nat. lia.
Qed.

Lemma text_inv_nil (ab : list Z) : text ab = ""%string → ab = [].
Proof. by destruct ab. Qed.

Lemma text_inv_cons (ab : list Z) (d : ascii) (w : string) :
  text ab = String d w → ∃ b ab', ab = b :: ab' ∧ char b = d ∧ text ab' = w.
Proof. destruct ab as [|b ab']; [done|]. intros [= <- <-]. by exists b, ab'. Qed.

Lemma same_cons_same (b : Z) (r a' : list Z) :
  same_ignoring_case (text r) (text a') →
  same_ignoring_case (text (b :: r)) (text (b :: a')).
Proof. apply same_character. Qed.

Lemma same_cons_capital (b : Z) (r a' : list Z) :
  (65 ≤ b ≤ 90)%Z →
  same_ignoring_case (text r) (text a') →
  same_ignoring_case (text (b :: r)) (text ((b + 32)%Z :: a')).
Proof.
  intros Hb. apply same_capital. unfold capital_of.
  rewrite !nat_char by (unfold in_byte; lia). lia.
Qed.

Lemma same_cons_kelvin (r a' : list Z) :
  same_ignoring_case (text r) (text a') →
  same_ignoring_case (text (226 :: 132 :: 170 :: r)%Z) (text (107%Z :: a')).
Proof. apply same_kelvin. Qed.

Lemma same_inv (hb ab : list Z) :
  Forall in_byte hb → Forall in_byte ab →
  same_ignoring_case (text hb) (text ab) →
  (hb = [] ∧ ab = [])
  ∨ (∃ b r a', hb = b :: r ∧ ab = b :: a'
               ∧ same_ignoring_case (text r) (text a'))
  ∨ (∃ b r a', hb = b :: r ∧ ab = (b + 32)%Z :: a' ∧ (65 ≤ b ≤ 90)%Z
               ∧ same_ignoring_case (text r) (text a'))
  ∨ (∃ r a', hb = (226 :: 132 :: 170 :: r)%Z ∧ ab = 107%Z :: a'
             ∧ same_ignoring_case (text r) (text a')).
Proof.
  intros Hh Ha H. inversion H as [Eh Ea|c name word Hs Eh Ea|c d name word Hc Hs Eh Ea
                                  |name word Hs Eh Ea].
  - left. symmetry in Eh, Ea. by apply text_inv_nil in Eh, Ea.
  - right; left. symmetry in Eh, Ea.
    apply text_inv_cons in Eh as (b & r & -> & Eb & <-).
    apply text_inv_cons in Ea as (b' & a' & -> & Eb' & <-).
    apply Forall_cons in Hh as [Hb _]. apply Forall_cons in Ha as [Hb' _].
    assert (b' = b) as -> by (apply char_inj; congruence).
    by exists b, r, a'.
  - right; right; left. symmetry in Eh, Ea.
    apply text_inv_cons in Eh as (b & r & -> & Eb & <-).
    apply text_inv_cons in Ea as (b' & a' & -> & Eb' & <-).
    apply Forall_cons in Hh as [Hb _]. apply Forall_cons in Ha as [Hb' _].
    unfold capital_of in Hc. rewrite <- Eb, <- Eb', !nat_char in Hc by done.
    unfold in_byte in *.
    assert (b' = b + 32)%Z as -> by lia.
    exists b, r, a'. split_and!; try done; lia.
  - right; right; right. symmetry in Eh, Ea.
    apply text_inv_cons in Ea as (b' & a' & -> & Eb' & <-).
    apply Forall_cons in Ha as [Hb' _].
    assert (b' = 107)%Z as -> by (by apply char_inj).
    cbn in Eh.
    apply text_inv_cons in Eh as (b0 & r0 & -> & E0 & Eh).
    apply text_inv_cons in Eh as (b1 & r1 & -> & E1 & Eh).
    apply text_inv_cons in Eh as (b2 & r2 & -> & E2 & <-).
    apply Forall_cons in Hh as [H0 Hh]. apply Forall_cons in Hh as [H1 Hh].
    apply Forall_cons in Hh as [H2 _].
    assert (b0 = 226)%Z as -> by (by apply char_inj).
    assert (b1 = 132)%Z as -> by (by apply char_inj).
    assert (b2 = 170)%Z as -> by (by apply char_inj).
    by exists r2, a'.
Qed.

Lemma encode_cons (p : Z) (l : list Z) : encode (p :: l) = encode_point p ++ encode l.
Proof. reflexivity. Qed.

Lemma encode_app (l k : list Z) : encode (l ++ k) = encode l ++ encode k.
Proof. unfold encode. apply bind_app. Qed.

Lemma lower_bytes_ascii (before : list Z) (b0 : Z) (r0 : list Z) :
  (0 ≤ b0 < 128)%Z →
  lower_bytes before (b0 :: r0)
  = (if ((65 <=? b0) && (b0 <=? 90))%Z then b0 + 32 else b0)%Z
    :: lower_bytes (b0 :: before) r0.
Proof.
  intros Hb. unfold lower_bytes. rewrite decode_ascii by lia.
  cbn [lower_from].
  assert ((b0 =? 931)%Z = false) as -> by (apply Z.eqb_neq; lia).
  unfold to_lower_full.
  assert ((b0 <? 128)%Z = true) as -> by (apply Z.ltb_lt; lia).
  cbn [app]. rewrite encode_cons. unfold encode_point.
  assert (((if ((65 <=? b0) && (b0 <=? 90))%Z then b0 + 32 else b0) <? 128)%Z = true)
    as ->; [|done].
  apply Z.ltb_lt. destruct (_ && _) eqn:E; bounds; lia.
Qed.

Lemma lower_bytes_outside (before : list Z) (b0 : Z) (r0 : list Z) :
  in_byte b0 → (128 ≤ b0)%Z → Forall in_byte r0 →
  (∃ rest, b0 = 226%Z ∧ r0 = (132 :: 170 :: rest)%Z
           ∧ lower_bytes before (b0 :: r0)
             = 107%Z :: lower_bytes (8490%Z :: before) rest)
  ∨ ((∃ pre b post, lower_bytes before (b0 :: r0) = pre ++ b :: post ∧ (128 ≤ b)%Z)
     ∧ ¬ ∃ rest, b0 :: r0 = (226 :: 132 :: 170 :: rest)%Z).
Proof.
  intros Hb Hge Hr.
  destruct (decode_head b0 r0 Hb Hge Hr) as (p & rest & E & Hp & Hv & _ & _ & K).
  unfold lower_bytes. rewrite E. cbn [lower_from]. rewrite encode_app.
  destruct (p =? 931)%Z eqn:Es.
  { right. split.
    - destruct (sigma_forms before (decode rest)) as [-> | ->].
      + exists [], 207%Z, (130%Z :: encode (lower_from (p :: before) (decode rest))).
        split; [reflexivity|lia].
      + exists [], 207%Z, (131%Z :: encode (lower_from (p :: before) (decode rest))).
        split; [reflexivity|lia].
    - intros [rest' [= -> ->]]. rewrite decode_kelvin in E. by injection E as <-. }
  destruct (to_lower_full_outside p Hv Hp) as [[-> ->]|(q & Hq & Hq1 & Hq2)].
  - left. destruct (K eq_refl) as [-> ->]. by exists rest.
  - right. split.
    + apply list_elem_of_split in Hq as (l1 & l2 & ->).
      destruct (encode_point_outside q Hq2 Hq1) as (b & tail & Eb & Hb').
      exists (encode l1), b, (tail ++ encode l2 ++ encode (lower_from (p :: before) (decode rest))).
      split; [|done]. rewrite !encode_app, encode_cons, Eb.
      by rewrite <- !app_assoc.
    + intros [rest' [= -> ->]]. rewrite decode_kelvin in E. injection E as <- _.
      apply list_elem_of_In in Hq. vm_compute in Hq. destruct Hq as [<-|[]]. lia.
Qed.

(** A text has a small word for its lower case exactly when it reads as
    that word, case ignored. *)
Lemma lower_bytes_same (hb : list Z) :
  Forall in_byte hb →
  ∀ before ab, Forall plain ab →
    lower_bytes before hb = ab ↔ same_ignoring_case (text hb) (text ab).
Proof.
  remember (length hb) as n eqn:Hn. revert hb Hn.
  induction (lt_wf n) as [n _ IH]. intros hb -> Hh before ab Ha.
  assert (Forall in_byte ab) as Hab.
  { eapply Forall_impl; [exact Ha|]. unfold plain, in_byte. lia. }
  destruct hb as [|b0 r0].
  { split.
    - intros <-. apply same_end.
    - intros H. by destruct (same_inv [] ab Hh Hab H)
        as [[_ ->]|[(?&?&?&?&_)|[(?&?&?&?&_)|(?&?&?&_)]]]. }
  apply Forall_cons in Hh as [Hb0 Hr0].
  assert (∀ rest before ab, (length rest ≤ length r0)%nat → Forall in_byte rest →
            Forall plain ab →
            lower_bytes before rest = ab ↔ same_ignoring_case (text rest) (text ab))
    as IH'.
  { intros rest bf ab' Hl Hrest Hab'. apply (IH (length rest)); [cbn; lia|done..]. }
  destruct (Z_lt_dec b0 128) as [Hlt|Hge].
  - rewrite lower_bytes_ascii by (unfold in_byte in Hb0; lia). split.
    + intros <-. apply Forall_cons in Ha as [Hd Ha].
      destruct (_ && _) eqn:E; bounds.
      * apply same_cons_capital; [lia|]. by apply (IH' r0 (b0 :: before)).
      * apply same_cons_same. by apply (IH' r0 (b0 :: before)).
    + intros H.
      destruct (same_inv (b0 :: r0) ab ltac:(by constructor) Hab H)
        as [[[=] _]|[(b&r&a'&[= <- <-]&->&Hs)|[(b&r&a'&[= <- <-]&->&Hb&Hs)
                                             |(r&a'&[= -> ->]&_)]]].
      * apply Forall_cons in Ha as [[Hd1 Hd2] Ha].
        assert (((65 <=? b0) && (b0 <=? 90))%Z = false) as ->.
        { apply andb_false_iff. rewrite Z.leb_gt, Z.leb_gt. lia. }
        f_equal. by apply (IH' r0 (b0 :: before)).
      * apply Forall_cons in Ha as [_ Ha].
        assert (((65 <=? b0) && (b0 <=? 90))%Z = true) as ->.
        { apply andb_true_iff. rewrite !Z.leb_le. lia. }
        f_equal. by apply (IH' r0 (b0 :: before)).
      * lia.
  - destruct (lower_bytes_outside before b0 r0 Hb0 ltac:(lia) Hr0)
      as [(rest & -> & -> & ->)|[(pre & b & post & -> & Hb) Hk]].
    + apply Forall_cons in Hr0 as [_ Hr0]. apply Forall_cons in Hr0 as [_ Hr0].
      split.
      * intros <-. apply Forall_cons in Ha as [_ Ha].
        apply same_cons_kelvin. apply (IH' rest (8490%Z :: before)); [cbn; lia|done..].
      * intros H.
        assert (Forall in_byte (226 :: 132 :: 170 :: rest)%Z) as Hk.
        { repeat (apply Forall_cons; split; [unfold in_byte; lia|]). done. }
        destruct (same_inv _ ab Hk Hab H)
          as [[[=] _]|[(b&r&a'&[= <- <-]&->&Hs)|[(b&r&a'&[= <- <-]&->&Hb&Hs)
                                               |(r&a'&[= <-]&->&Hs)]]].
        -- apply Forall_cons in Ha as [[Hd1 Hd2] Ha]. lia.
        -- lia.
        -- apply Forall_cons in Ha as [_ Ha]. f_equal.
           apply (IH' rest (8490%Z :: before)); [cbn; lia|done..].
    + split.
      * intros <-. apply Forall_app in Ha as [_ Ha].
        apply Forall_cons in Ha as [[Hd _] _]. lia.
      * intros H.
        destruct (same_inv (b0 :: r0) ab ltac:(by constructor) Hab H)
          as [[[=] _]|[(b'&r&a'&[= <- <-]&->&Hs)|[(b'&r&a'&[= <- <-]&->&Hb'&Hs)
                                                |(r&a'&E&_)]]].
        -- apply Forall_cons in Ha as [[Hd1 Hd2] Ha]. lia.
        -- lia.
        -- destruct Hk. by exists r.
Qed.

(** [str.lower()] gives a small word for the names that read as the word,
    case ignored, and for no other. *)
Lemma lower_small_word (name word : string) :
  small_word word → lower name = word ↔ same_ignoring_case name word.
Proof.
  intros Hw. rewrite lower_text.
  rewrite (lower_bytes_same (bytes name) (bytes_range name) [] (bytes word)
             (small_word_bytes word Hw)).
  by rewrite !text_bytes.
Qed.

End Letters.

Section Words.
Import Preprocess Routes DispatchSpec.

Lemma small_word_decide (word : string) :
  forallb (λ c, (nat_of_ascii c <? 128)%nat
                && negb ((65 <=? nat_of_ascii c)%nat && (nat_of_ascii c <=? 90)%nat))
          (list_ascii_of_string word) = true →
  small_word word.
Proof.
  unfold small_word. intros H. apply Forall_forall. intros c Hc.
  rewrite forallb_forall in H. apply list_elem_of_In in Hc.
  specialize (H c Hc). apply andb_true_iff in H as [H1 H2].
  apply Nat.ltb_lt in H1. apply negb_true_iff, andb_false_iff in H2.
  rewrite !Nat.leb_gt in H2. lia.
Qed.

Ltac small_words :=
  repeat (apply Forall_cons; split;
          [apply small_word_decide; vm_compute; reflexivity|]);
  apply Forall_nil_2.

Lemma DATE_CANDIDATES_small : Forall small_word DATE_CANDIDATES.
Proof. unfold DATE_CANDIDATES. small_words. Qed.

Lemma TARGET_CANDIDATES_small : Forall small_word TARGET_CANDIDATES.
Proof. unfold TARGET_CANDIDATES. small_words. Qed.

Lemma indicators_small : Forall small_word indicators.
Proof. unfold indicators. small_words. Qed.

(** The view finds a callback indicator in the keys that read as one, case
    ignored. *)
Lemma is_callback_key_lower (k : string) :
  is_callback_key k ↔ Unicode.lower k ∈ callback_keys.
Proof.
  change callback_keys with indicators. unfold is_callback_key. split.
  - intros (word & Hw & Hs).
    assert (small_word word) as Hsmall.
    { pose proof indicators_small as H. rewrite Forall_forall in H. by apply H. }
    by apply (lower_small_word k word Hsmall) in Hs as ->.
  - intros Hin. exists (Unicode.lower k). split; [done|].
    apply lower_small_word; [|done].
    pose proof indicators_small as H. rewrite Forall_forall in H. by apply H.
Qed.

End Words.

(** Whether a key is a callback-indicator key, by evaluation. *)
Ltac computed :=
  first [ apply is_callback_key_lower; vm_compute;
          solve [ repeat first [ apply list_elem_of_here
                               | apply list_elem_of_further ] ]
        | let H := fresh in
          intros H; apply is_callback_key_lower in H; vm_compute in H;
          members H; discriminate ].

(** ** Column detection *)

Section Detection.
Import Preprocess DetectorSpec.
Context (ext : externals) (df : DataFrame).

Lemma lower_map_foldl (cols : list string) (m : gmap string string) (a : string) :
  match foldl (λ m c, <[Unicode.lower c := c]> m) m cols !! a with
  | Some c => (c ∈ cols ∧ Unicode.lower c = a) ∨ m !! a = Some c
  | None => m !! a = None ∧ Forall (λ c, Unicode.lower c ≠ a) cols
  end.
Proof.
  revert m. induction cols as [|c cols IH]; intros m; simpl.
  - destruct (m !! a); auto.
  - specialize (IH (<[Unicode.lower c:=c]> m)).
    destruct (foldl _ _ cols !! a) as [c'|].
    + destruct IH as [[Hin Hl]|Hm].
      * left. split; [by apply list_elem_of_further | done].
      * destruct (decide (Unicode.lower c = a)) as [Heq|Hne].
        -- rewrite Heq, lookup_insert_eq in Hm. inversion Hm; subst c'.
           left. split; [apply list_elem_of_here | done].
        -- rewrite lookup_insert_ne in Hm by done. by right.
    + destruct IH as [Hm Hall].
      destruct (decide (Unicode.lower c = a)) as [Heq|Hne].
      * by rewrite Heq, lookup_insert_eq in Hm.
      * rewrite lookup_insert_ne in Hm by done. split; [done|]. by constructor.
Qed.

Lemma lower_map_Some (a c : string) :
  small_word a → lower_map (columns df) !! a = Some c → answers df a c.
Proof.
  intros Ha H. pose proof (lower_map_foldl (columns df) ∅ a) as L.
  unfold lower_map in H. rewrite H in L.
  destruct L as [[Hin Hl]|L]; [|by rewrite lookup_empty in L].
  split; [done|]. by apply (lower_small_word c a Ha).
Qed.

Lemma lower_map_None (a : string) :
  small_word a → lower_map (columns df) !! a = None → unanswered df a.
Proof.
  intros Ha H c [Hin Hl]. pose proof (lower_map_foldl (columns df) ∅ a) as L.
  unfold lower_map in H. rewrite H in L. destruct L as [_ L].
  rewrite Forall_forall in L. apply (L c Hin).
  by apply (lower_small_word c a Ha).
Qed.

Lemma find_alias_Some (candidates : list string) (c : string) :
  Forall small_word candidates →
  find_alias (lower_map (columns df)) candidates = Some c →
  ∃ before alias after,
    candidates = before ++ alias :: after
    ∧ Forall (unanswered df) before ∧ answers df alias c.
Proof.
  intros Hs. induction Hs as [|a rest Ha _ IH]; simpl; [done|].
  destruct (lower_map (columns df) !! a) as [c'|] eqn:E.
  - intros [= ->]. exists [], a, rest. split_and!; [done | constructor |].
    by apply lower_map_Some.
  - intros H. destruct (IH H) as (before & alias & after & -> & Hb & Hc).
    exists (a :: before), alias, after. split_and!; [done | | done].
    constructor; [by apply lower_map_None | done].
Qed.

Lemma find_alias_None (candidates : list string) :
  Forall small_word candidates →
  find_alias (lower_map (columns df)) candidates = None →
  Forall (unanswered df) candidates.
Proof.
  intros Hs. induction Hs as [|a rest Ha _ IH]; simpl; [constructor|].
  destruct (lower_map (columns df) !! a) eqn:E; [done|].
  intros H. constructor; [by apply lower_map_None | by apply IH].
Qed.

Lemma labelled_nil (f : DataFrame) (l : string) :
  labelled l f = [] ↔ l ∉ columns f.
Proof.
  unfold labelled, columns. induction f as [|[k vs] f IH].
  - split; [intros _; apply not_elem_of_nil | done].
  - rewrite filter_cons, fmap_cons. cbn [fst]. rewrite not_elem_of_cons.
    destruct (decide (k = l)) as [->|Hne].
    + split; [done | by intros [? _]].
    + rewrite IH. split; [by intros ?; split | by intros [_ ?]].
Qed.

(** One column carries the label. *)
Lemma labelled_single (f : DataFrame) (l : string) (c : column) :
  labelled l f = [c]
  ↔ c.1 = l ∧ ∃ before after,
      f = before ++ c :: after ∧ (l ∉ columns before) ∧ (l ∉ columns after).
Proof.
  destruct c as [k0 vs0]. cbn [fst].
  induction f as [|[k vs] f IH].
  - split; [done|]. intros (_ & before & after & H & _). by destruct before.
  - unfold labelled in *. rewrite filter_cons. cbn [fst].
    destruct (decide (k = l)) as [->|Hne].
    + split.
      * intros [= <- <- Hn]. split; [done|]. exists [], f.
        split_and!; [done | apply not_elem_of_nil | by apply labelled_nil].
      * intros (Hc & before & after & H & Hb & Ha).
        destruct before as [|x before]; cbn in H; simplify_eq.
        -- f_equal. by apply labelled_nil.
        -- exfalso. apply Hb. apply list_elem_of_here.
    + rewrite IH. split.
      * intros (Hc & before & after & -> & Hb & Ha). split; [done|].
        exists ((k, vs) :: before), after. split_and!; [done| |done].
        unfold columns. rewrite fmap_cons. cbn [fst].
        rewrite not_elem_of_cons. by split.
      * intros (Hc & before & after & H & Hb & Ha). split; [done|].
        destruct before as [|x before]; cbn in H.
        -- exfalso. apply Hne. inversion H. congruence.
        -- inversion H; subst. exists before, after. split_and!; [done| |done].
           unfold columns in Hb. rewrite fmap_cons in Hb.
           by apply not_elem_of_cons in Hb as [_ ?].
Qed.

Lemma as_stamps_Some (vs : list cell) :
  is_Some (as_stamps vs) ↔ Forall (λ v, v = NaN ∨ ∃ d, v = Stamp d) vs.
Proof.
  unfold as_stamps. rewrite mapM_is_Some. apply Forall_proper; [|done].
  intros v. unfold compose. destruct v; split; intros H;
    try (by eexists); try (by destruct H as [? [=]]);
    try (by left); try (right; by eexists);
    by destruct H as [[=]|[? [=]]].
Qed.

(** The fallback takes the columns that parse as timestamps for every row. *)
Lemma parses_spec (c : string) :
  parses ext df c = true ↔ parses_for_every_row ext df c.
Proof.
  unfold parses, parses_for_every_row, pd_to_datetime. split.
  - destruct (labelled c df) as [|[k vs] [|]] eqn:E; [done| |done].
    apply labelled_single in E as (Hk & before & after & -> & Hb & Ha).
    cbn [fst] in Hk. subst k. intros H. exists before, vs, after.
    split_and!; [done..|].
    destruct (as_stamps vs) as [ds|] eqn:Es.
    + left. apply as_stamps_Some. by eexists.
    + right. destruct (to_datetime ext vs) as [ds|]; [by eexists | done].
  - intros (before & vs & after & -> & Hb & Ha & H).
    assert (labelled c (before ++ (c, vs) :: after) = [(c, vs)]) as ->.
    { apply labelled_single. split; [done|]. by exists before, after. }
    destruct H as [H|[ds H]].
    + apply as_stamps_Some in H as [ds ->]. done.
    + destruct (as_stamps vs); [done|]. by rewrite H.
Qed.

Lemma first_parseable_Some (cols : list string) (c : string) :
  first_parseable ext df cols = Some c →
  ∃ before after,
    cols = before ++ c :: after
    ∧ Forall (λ c', parses ext df c' = false) before ∧ parses ext df c = true.
Proof.
  induction cols as [|c' rest IH]; simpl; [done|].
  destruct (parses ext df c') eqn:E.
  - intros [= ->]. by exists [], rest.
  - intros H. destruct (IH H) as (before & after & -> & Hb & Hc).
    exists (c' :: before), after. split_and!; [done | by constructor | done].
Qed.

Lemma first_parseable_None (cols : list string) :
  first_parseable ext df cols = None →
  Forall (λ c, parses ext df c = false) cols.
Proof.
  induction cols as [|c' rest IH]; simpl; [constructor|].
  destruct (parses ext df c') eqn:E; [done|].
  intros H. constructor; [done | by apply IH].
Qed.

Lemma not_parses (cols : list string) :
  Forall (λ c, parses ext df c = false) cols →
  Forall (λ c, ¬ parses_for_every_row ext df c) cols.
Proof.
  intros H. eapply Forall_impl; [exact H|].
  intros c Hc Hp%parses_spec. congruence.
Qed.

Lemma find_resolves (candidates : list string) (is_date : bool) :
  Forall small_word candidates →
  resolves ext df candidates is_date (find ext df candidates is_date).
Proof.
  intros Hs. unfold find.
  destruct (find_alias _ candidates) as [c|] eqn:E.
  - destruct (find_alias_Some _ _ Hs E) as (before & alias & after & -> & Hb & Ha).
    by eapply by_alias.
  - apply (find_alias_None _ Hs) in E. destruct is_date.
    + destruct (first_parseable ext df (columns df)) as [c|] eqn:P.
      * destruct (first_parseable_Some _ _ P) as (before & after & Hc & Hb & Hp).
        eapply by_parsing; [done | done | exact Hc | by apply not_parses
                           | by apply parses_spec].
      * apply not_found; [done|]. intros _.
        by apply not_parses, first_parseable_None.
    + by apply not_found.
Qed.

(** C6.  Column detection resolves each role by the first alias of its list
    that matches a header without regard to case, whatever the order of the
    input columns: a header matches an alias when it reads as the alias
    character by character, a letter in either case and a k as the Kelvin
    sign too, which is what [str.lower()] makes equal to a word of small
    ASCII letters.  When no date alias matches, the date role falls back to
    the first column, in input order, that parses as timestamps; the target
    role has no fallback; and detection fails with [ColumnNotFound] exactly
    when one of the two roles cannot be resolved. *)
Theorem detect_columns_resolution :
  (∀ candidates is_date,
     Forall small_word candidates →
     resolves ext df candidates is_date (find ext df candidates is_date))
  ∧ detects ext df (detect_columns ext df)
  ∧ (∀ c, find ext df TARGET_CANDIDATES false = Ok c →
          ∃ alias, alias ∈ TARGET_CANDIDATES ∧ answers df alias c).
Proof.
  pose proof (find_resolves DATE_CANDIDATES true DATE_CANDIDATES_small) as Hd.
  pose proof (find_resolves TARGET_CANDIDATES false TARGET_CANDIDATES_small) as Ht.
  split_and!.
  - apply find_resolves.
  - unfold detects, detect_columns.
    destruct (find ext df DATE_CANDIDATES true) as [d|e] eqn:Ed; simpl.
    + destruct (find ext df TARGET_CANDIDATES false) as [t|e] eqn:Et; simpl.
      * done.
      * inversion Ht; subst. split; [done | by right].
    + inversion Hd; subst. split; [done | by left].
  - intros c Hc.
    rewrite Hc in Ht. inversion Ht as [before alias after c' Hs _ Ha| |]; subst.
    + exists alias. split; [|done]. rewrite Hs. set_solver.
    + done.
Qed.

End Detection.

Section DetectionExamples.
Import Preprocess DetectorSpec Reference Samples.

(** A date header with a capital and a target header with the Kelvin sign
    are found under their aliases. *)
Lemma kelvin_header_resolves :
  detect_columns reference_externals (from_records kelvin_rows)
  = Ok (Detected "Date" kelvin_header)
  ∧ answers (from_records kelvin_rows) "date" "Date"
  ∧ answers (from_records kelvin_rows) "miktar" kelvin_header.
Proof.
  split; [vm_compute; reflexivity|]. split.
  - split; [vm_compute; apply list_elem_of_here|].
    apply lower_small_word; [apply small_word_decide|]; vm_compute; reflexivity.
  - split; [vm_compute; apply list_elem_of_further, list_elem_of_here|].
    apply lower_small_word; [apply small_word_decide|]; vm_compute; reflexivity.
Qed.

End DetectionExamples.

(** ** The forecaster *)

Section Forecaster.
Import Preprocess Predictor.
Context (ext : externals) (self : EnsembleForecaster) (df : series).

Let L : Z := Z.of_nat (length df).

Lemma n_val_clamp : n_val self df = clamp (Z.max 4 (horizon self)) 2 (L / 3).
Proof.
  unfold n_val, clamp, L.
  assert (0 ≤ Z.of_nat (length df) / 3)%Z by (apply Z.div_pos; lia).
  lia.
Qed.

Lemma n_val_ge_2 : (2 ≤ n_val self df)%Z.
Proof. unfold n_val. lia. Qed.

Lemma backtest_guard_spec :
  backtest_guard self df = true ↔ (n_val self df + 5 ≤ L ∧ 2 ≤ n_val self df)%Z.
Proof. unfold backtest_guard, L. rewrite andb_true_iff, !Z.leb_le. done. Qed.

Lemma forecasts_on_filter (d : Z) (y : Q) (bt : list forecast_row) :
  (λ f, (y, f_yhat f)) <$> filter (λ f, f_ds f = d) bt = forecasts_on d y bt.
Proof.
  induction bt as [|f bt IH]; [done|].
  rewrite filter_cons. cbn [forecasts_on].
  destruct (decide (f_ds f = d)) as [Hd|Hd].
  - apply Z.eqb_eq in Hd as ->. by rewrite fmap_cons, IH.
  - apply Z.eqb_neq in Hd as ->. exact IH.
Qed.

(** The merge of the forecaster is the inner join on the timestamp. *)
Lemma merge_inner_join (held_out : series) (bt : list forecast_row) :
  merge held_out bt = inner_join held_out bt.
Proof.
  unfold merge. induction held_out as [|[d y] rest IH]; [done|].
  cbn [inner_join]. rewrite <- IH, <- forecasts_on_filter. done.
Qed.

Lemma elem_of_forecasts_on (d : Z) (y : Q) (bt : list forecast_row) (p : Q * Q) :
  p ∈ forecasts_on d y bt ↔ ∃ f, f ∈ bt ∧ f_ds f = d ∧ p = (y, f_yhat f).
Proof.
  rewrite <- forecasts_on_filter, list_elem_of_fmap. split.
  - intros (f & -> & Hf). apply list_elem_of_filter in Hf as [Hd Hf].
    by exists f.
  - intros (f & Hf & Hd & ->). exists f. split; [done|].
    by apply list_elem_of_filter.
Qed.

Lemma elem_of_inner_join (held_out : series) (bt : list forecast_row) (p : Q * Q) :
  p ∈ inner_join held_out bt
  ↔ ∃ d f, (d, p.1) ∈ held_out ∧ f ∈ bt ∧ f_ds f = d ∧ p.2 = f_yhat f.
Proof.
  induction held_out as [|[d y] rest IH]; cbn [inner_join].
  - split; [by intros ?%elem_of_nil|]. by intros (? & ? & ?%elem_of_nil & _).
  - rewrite elem_of_app, elem_of_forecasts_on, IH. split.
    + intros [(f & Hf & Hd & ->)|(d' & f & Hin & Hf & Hd & Hp)].
      * exists d, f. split_and!; [apply list_elem_of_here | done..].
      * exists d', f. split_and!; [by apply list_elem_of_further | done..].
    + intros (d' & f & Hin & Hf & Hd & Hp).
      apply elem_of_cons in Hin as [[= -> Hy]|Hin].
      * left. exists f. split_and!; [done..|]. destruct p as [p1 p2].
        cbn in *. by subst.
      * right. by exists d', f.
Qed.

(** C3.  The holdout size is [clamp(max(4, h), 2, floor(L / 3))]; once the
    model is fitted on the full series, the backtest model is fitted if and
    only if [L ≥ n_val + 5] and [n_val ≥ 2], and then on the prefix that
    leaves out the last [n_val] rows, for [n_val] periods; when the
    preconditions fail and the forecaster returns, MAE, RMSE and MAPE are all
    null and [backtest_points] is still [n_val]; when they hold, the metrics
    are those of the inner join on the date of the held-out tail with the
    backtest forecast, null again when the join has fewer than two rows;
    the join has a row for each held-out value and each forecast of its
    date, and no other. *)
Theorem backtest_holdout :
  n_val self df = clamp (Z.max 4 (horizon self)) 2 (L / 3)
  ∧ (backtested (fit_predict ext self df).1
     ↔ (∃ out, prophet ext df (_freq_rule self) (horizon self) = Ok out)
       ∧ (n_val self df + 5 ≤ L)%Z ∧ (2 ≤ n_val self df)%Z)
  ∧ (∀ train r periods,
       Fit bt_model train r periods ∈ (fit_predict ext self df).1 →
       train = take (length df - Z.to_nat (n_val self df)) df
       ∧ r = _freq_rule self ∧ periods = n_val self df)
  ∧ (∀ forecast model_info data_summary,
       ¬ ((n_val self df + 5 ≤ L)%Z ∧ (2 ≤ n_val self df)%Z) →
       (fit_predict ext self df).2 = Ok (forecast, model_info, data_summary) →
       dict_get "accuracy_mae" model_info = Some JNull
       ∧ dict_get "accuracy_rmse" model_info = Some JNull
       ∧ dict_get "accuracy_mape" model_info = Some JNull
       ∧ dict_get "backtest_points" model_info = Some (JInt (n_val self df)))
  ∧ (∀ bt forecast model_info data_summary,
       (n_val self df + 5 ≤ L)%Z ∧ (2 ≤ n_val self df)%Z →
       prophet ext (take (length df - Z.to_nat (n_val self df)) df)
         (_freq_rule self) (n_val self df) = Ok bt →
       (fit_predict ext self df).2 = Ok (forecast, model_info, data_summary) →
       let merged := inner_join (drop (length df - Z.to_nat (n_val self df)) df) bt in
       let m := if (2 <=? length merged)%nat then metrics_of merged else no_metrics in
       dict_get "accuracy_mae" model_info = Some (mae m)
       ∧ dict_get "accuracy_rmse" model_info = Some (rmse m)
       ∧ dict_get "accuracy_mape" model_info = Some (mape m)
       ∧ dict_get "backtest_points" model_info = Some (JInt (n_val self df)))
  ∧ (∀ held_out bt y yhat,
       (y, yhat) ∈ merge held_out bt
       ↔ ∃ d f, (d, y) ∈ held_out ∧ f ∈ bt ∧ f_ds f = d ∧ yhat = f_yhat f).
Proof.
  split; [apply n_val_clamp|].
  assert (∀ held_out bt y yhat,
            (y, yhat) ∈ merge held_out bt
            ↔ ∃ d f, (d, y) ∈ held_out ∧ f ∈ bt ∧ f_ds f = d ∧ yhat = f_yhat f)
    as Hjoin.
  { intros held_out bt y yhat. rewrite merge_inner_join.
    apply (elem_of_inner_join held_out bt (y, yhat)). }
  pose proof backtest_guard_spec as G.
  unfold fit_predict, fit_and_predict, backtested.
  destruct (prophet ext df (_freq_rule self) (horizon self)) as [out|e] eqn:E1;
    cbn.
  2:{ split_and!.
      - split.
        + intros (t & r & p & Hin). by members Hin.
        + by intros [[out Hout] _].
      - intros t r p Hin. by members Hin.
      - by intros ? ? ? _ [=].
      - by intros ? ? ? ? _ _ [=].
      - exact Hjoin. }
  destruct (backtest_guard self df) eqn:Eg; cbn.
  - assert (∀ bt, ∃ train r periods,
              Fit bt_model train r periods
              ∈ [Fit model df (_freq_rule self) (horizon self);
                 Fit bt_model (take (length df - Z.to_nat (n_val self df)) df)
                   (_freq_rule self) (n_val self df)] ++ bt) as Hex.
    { intros bt. do 3 eexists. apply list_elem_of_further, list_elem_of_here. }
    destruct (prophet ext (take _ df) (_freq_rule self) (n_val self df))
      as [bt|e] eqn:E2; cbn.
    + split_and!.
      * split; [intros _; split; [by eexists | by apply G] | intros _; apply (Hex [])].
      * intros t r p Hin. members Hin; by simplify_eq.
      * intros ? ? ? Hn. exfalso. apply Hn. by apply G.
      * intros bt' ? ? ? _ [= <-] [= <- <- <-]. cbv zeta.
        rewrite <- merge_inner_join. done.
      * exact Hjoin.
    + split_and!.
      * split; [intros _; split; [by eexists | by apply G] | intros _; apply (Hex [])].
      * intros t r p Hin. members Hin; by simplify_eq.
      * by intros ? ? ? _ [=].
      * by intros ? ? ? ? _ _ [=].
      * exact Hjoin.
  - split_and!.
    + split.
      * intros (t & r & p & Hin). by members Hin.
      * intros [_ Hg]. apply G in Hg. congruence.
    + intros t r p Hin. by members Hin.
    + by intros ? ? ? _ [= <- <- <-].
    + intros ? ? ? ? Hg. apply G in Hg. congruence.
    + exact Hjoin.
Qed.

End Forecaster.

(** ** The orchestrator *)

Section Orchestrator.
Import Preprocess Pipeline.
Context (ext : externals) (self : PredictionPipeline).

(** What a forecaster that returns has returned. *)
Lemma fit_predict_Ok (f : Predictor.EnsembleForecaster) (df : series) t fc mi ds :
  Predictor.fit_predict ext f df = (t, Ok (fc, mi, ds)) →
  ∃ out m,
    prophet ext df (Predictor._freq_rule f) (Predictor.horizon f) = Ok out
    ∧ fc = {| Predictor.bounds := Predictor.return_confidence f;
              Predictor.rows := Predictor.sort_rows out |}
    ∧ mi = [("algorithm", JStr "Ensemble (Prophet)");
            ("accuracy_mae", Predictor.mae m);
            ("accuracy_rmse", Predictor.rmse m);
            ("accuracy_mape", Predictor.mape m);
            ("backtest_points", JInt (Predictor.n_val f df))]%string
    ∧ ds = [("input_rows", JInt (Z.of_nat (length df)));
            ("date_range",
             JStr (Predictor.date_text minimum df +:+ " to "
                   +:+ Predictor.date_text maximum df));
            ("features_used",
             JList [JStr "trend"; JStr "weekly_seasonality";
                    JStr "yearly_seasonality"])]%string.
Proof.
  unfold Predictor.fit_predict, Predictor.fit_and_predict.
  destruct (prophet ext df _ _) as [out|e]; cbn; [|done].
  destruct (Predictor.backtest_guard f df); cbn.
  - destruct (prophet ext (take _ df) _ _) as [bt|e]; cbn; [|done].
    intros [= <- <- <- <-]. by eexists _, _.
  - intros [= <- <- <- <-]. by eexists _, Predictor.no_metrics.
Qed.

(** What a run that returns has gone through: the clean frame passed the
    minimum, the forecaster returned, and the payload is built from both. *)
Lemma run_Ok (records : list (list (string * cell))) t result :
  run ext self records = (t, Ok result) →
  ∃ clean out m,
    df_clean ext self records = Ok clean
    ∧ (min_data_points self ≤ Z.of_nat (length clean))%Z
    ∧ prophet ext clean (Predictor._freq_rule (forecaster_of self))
        (prediction_period self) = Ok out
    ∧ result =
        JObj [("success", JBool true);
              ("data_summary",
               JObj [("input_rows", JInt (Z.of_nat (length clean)));
                     ("date_range",
                      JStr (Predictor.date_text minimum clean +:+ " to "
                            +:+ Predictor.date_text maximum clean));
                     ("features_used",
                      JList [JStr "trend"; JStr "weekly_seasonality";
                             JStr "yearly_seasonality"])]);
              ("predictions",
               JList (item self
                        {| Predictor.bounds := return_confidence self;
                           Predictor.rows := Predictor.sort_rows out |}
                        <$> Predictor.sort_rows (Predictor.sort_rows out)));
              ("model_info",
               JObj [("algorithm", JStr "Prophet");
                     ("accuracy_mae", Predictor.mae m);
                     ("accuracy_rmse", Predictor.rmse m);
                     ("accuracy_mape", Predictor.mape m);
                     ("backtest_points",
                      JInt (Predictor.n_val (forecaster_of self) clean))])]%string.
Proof.
  unfold run.
  destruct (df_clean ext self records) as [clean|e];
    cbn -[Predictor.fit_predict]; [|done].
  destruct (Z.of_nat (length clean) <? min_data_points self)%Z eqn:Em;
    cbn -[Predictor.fit_predict]; [done|].
  destruct (Predictor.fit_predict ext (forecaster_of self) clean)
    as [t' [[[fc mi] ds]|e]] eqn:Ef; cbn; [|done].
  destruct (fit_predict_Ok _ _ _ _ _ _ Ef) as (out & m & Hout & -> & -> & ->).
  cbn. intros [= <- <-]. exists clean, out, m.
  split_and!; [done | lia | done | done].
Qed.

Lemma floored_non_negative (confidence : bool) (row : forecast_row) :
  non_negative_item (floored confidence row).
Proof.
  unfold non_negative_item, floored.
  destruct confidence; cbn; split_and!.
  all: try (intros v [= <-]; eexists; split; [done | apply Q.le_max_l]).
  all: try done.
  all: eexists; split; [done | apply Q.le_max_l].
Qed.

(** C5.  With the non-negative mode on, every prediction of a returned
    payload is the engine's row with [predicted_value] floored at zero and,
    when bounds are returned, [confidence_lower] and [confidence_upper] each
    floored at zero on its own value; so all three are at least zero, and
    nothing restores an order between them. *)
Theorem predictions_non_negative (records : list (list (string * cell))) t result :
  non_negative self = true →
  run ext self records = (t, Ok result) →
  (∃ rows, predictions result = floored (return_confidence self) <$> rows)
  ∧ Forall non_negative_item (predictions result).
Proof.
  intros Hnn Hrun.
  destruct (run_Ok _ _ _ Hrun) as (clean & out & m & _ & _ & _ & ->).
  unfold predictions; cbn.
  assert (∀ rows, item self {| Predictor.bounds := return_confidence self;
                               Predictor.rows := Predictor.sort_rows out |} <$> rows
                  = floored (return_confidence self) <$> rows) as ->.
  { intros rows. apply list_fmap_ext. intros _ row _.
    unfold item, floored. rewrite Hnn. cbn.
    destruct (return_confidence self); done. }
  split; [by eexists|].
  apply Forall_fmap, Forall_true. intros row. apply floored_non_negative.
Qed.

(** C8.  When confidence bounds are not requested, no prediction of a
    returned payload has a [confidence_lower] or a [confidence_upper] key:
    each is exactly a date and a predicted value. *)
Theorem no_confidence_keys (records : list (list (string * cell))) t result :
  return_confidence self = false →
  run ext self records = (t, Ok result) →
  Forall (λ it, field "confidence_lower" it = None
                ∧ field "confidence_upper" it = None
                ∧ ∃ d v, it = JObj [("date", JStr d); ("predicted_value", JNum v)]%string)
         (predictions result).
Proof.
  intros Hc Hrun.
  destruct (run_Ok _ _ _ Hrun) as (clean & out & m & _ & _ & _ & ->).
  unfold predictions; cbn.
  apply Forall_fmap, Forall_true. intros row.
  unfold item. rewrite Hc. cbn.
  destruct (non_negative self); cbn; split_and!; try done; by eexists _, _.
Qed.

(** C7, as amended.  The summary of a returned payload reports the number of
    rows of the clean series, that is of the buckets left after aggregation
    and sanitising, the first and the last date of that series as two ISO
    dates joined by " to ", and the three seasonal components. *)
Theorem data_summary_reports (records : list (list (string * cell))) t result :
  run ext self records = (t, Ok result) →
  ∃ clean,
    df_clean ext self records = Ok clean
    ∧ summary "input_rows" result = Some (JInt (Z.of_nat (length clean)))
    ∧ summary "date_range" result
      = Some (JStr (Predictor.date_text minimum clean +:+ " to "
                    +:+ Predictor.date_text maximum clean))
    ∧ (clean ≠ [] →
       Predictor.date_text minimum clean = isoformat (minimum clean.*1)
       ∧ Predictor.date_text maximum clean = isoformat (maximum clean.*1))
    ∧ summary "features_used" result
      = Some (JList [JStr "trend"; JStr "weekly_seasonality";
                     JStr "yearly_seasonality"]).
Proof.
  intros Hrun.
  destruct (run_Ok _ _ _ Hrun) as (clean & out & m & Hclean & _ & _ & ->).
  exists clean. split_and!; try done.
  by destruct clean.
Qed.

End Orchestrator.

Section OrchestratorExamples.
Import Preprocess Pipeline Reference Samples.

Lemma plain_run :
  run reference_externals (weekly [] false 3) two_rows = (plain_trace, Ok plain_result).
Proof. vm_compute. reflexivity. Qed.

Lemma banded_run :
  run reference_externals (weekly [] true 3) two_rows = (banded_trace, Ok banded_result).
Proof. vm_compute. reflexivity. Qed.

(** The engine's lower bound of -3 around a forecast of 7 is returned as 0. *)
Lemma predictions_non_negative_witness :
  non_negative (weekly [] true 3) = true
  ∧ run reference_externals (weekly [] true 3) two_rows
    = (banded_trace, Ok banded_result)
  ∧ (∃ rows, predictions banded_result = floored true <$> rows)
  ∧ Forall non_negative_item (predictions banded_result)
  ∧ head (predictions banded_result)
    = Some (JObj [("date", JStr "2024-01-29");
                  ("predicted_value", JNum (Qmax 0 7));
                  ("confidence_lower", JNum (Qmax 0 (7 - 10)));
                  ("confidence_upper", JNum (Qmax 0 (7 + 10)))]%string).
Proof.
  split; [reflexivity|]. split; [vm_compute; reflexivity|].
  pose proof (predictions_non_negative reference_externals (weekly [] true 3)
                two_rows banded_trace banded_result eq_refl banded_run) as [H1 H2].
  split_and!; [exact H1 | exact H2 | reflexivity].
Defined.

Lemma no_confidence_keys_witness :
  return_confidence (weekly [] false 3) = false
  ∧ run reference_externals (weekly [] false 3) two_rows
    = (plain_trace, Ok plain_result)
  ∧ length (predictions plain_result) = 4%nat
  ∧ Forall (λ it, field "confidence_lower" it = None
                  ∧ field "confidence_upper" it = None
                  ∧ ∃ d v, it = JObj [("date", JStr d); ("predicted_value", JNum v)]%string)
           (predictions plain_result).
Proof.
  split; [reflexivity|]. split; [vm_compute; reflexivity|].
  split; [reflexivity|].
  exact (no_confidence_keys reference_externals (weekly [] false 3)
           two_rows plain_trace plain_result eq_refl plain_run).
Defined.

(** C7, counterexample.  Two records three weeks apart are four weekly
    buckets, and the summary of the run says four input rows, not two. *)
Lemma input_rows_counts_buckets :
  run reference_externals (weekly [] false 3) two_rows
  = (plain_trace, Ok plain_result)
  ∧ length two_rows = 2%nat
  ∧ summary "input_rows" plain_result = Some (JInt 4)
  ∧ summary "input_rows" plain_result ≠ Some (JInt (Z.of_nat (length two_rows))).
Proof. split_and!; [vm_compute; reflexivity | done | done | done]. Qed.

Lemma data_summary_reports_witness :
  run reference_externals (weekly [] true 3) two_rows
  = (banded_trace, Ok banded_result)
  ∧ ∃ clean,
      df_clean reference_externals (weekly [] true 3) two_rows = Ok clean
      ∧ summary "input_rows" banded_result = Some (JInt (Z.of_nat (length clean)))
      ∧ summary "date_range" banded_result
        = Some (JStr (Predictor.date_text minimum clean +:+ " to "
                      +:+ Predictor.date_text maximum clean))
      ∧ (clean ≠ [] →
         Predictor.date_text minimum clean = isoformat (minimum clean.*1)
         ∧ Predictor.date_text maximum clean = isoformat (maximum clean.*1))
      ∧ summary "features_used" banded_result
        = Some (JList [JStr "trend"; JStr "weekly_seasonality";
                       JStr "yearly_seasonality"]).
Proof.
  split; [vm_compute; reflexivity|].
  exact (data_summary_reports reference_externals (weekly [] true 3)
           two_rows banded_trace banded_result banded_run).
Defined.

End OrchestratorExamples.

(** ** The dispatcher *)

Section Dispatcher.
Import Preprocess Pipeline Routes DispatchSpec.
Context (ext : externals) (cfg : config) (now : Z).

Lemma find_callback_first (payload : list (string * json)) :
  match find_callback payload with
  | Some url => first_callback payload url
  | None => Forall (λ kv : string * json, ¬ is_callback_key kv.1) payload
  end.
Proof.
  induction payload as [|[k v] rest IH]; simpl; [constructor|].
  case_bool_decide as Hk.
  - exists [], k, rest.
    split_and!; [done | apply Forall_nil_2 | by apply is_callback_key_lower].
  - rewrite <- is_callback_key_lower in Hk.
    destruct (find_callback rest) as [url|].
    + destruct IH as (before & key & after & -> & Hb & Hkey).
      exists ((k, v) :: before), key, after.
      split_and!; [done | by constructor | done].
    + by constructor.
Qed.

Lemma first_callback_found (payload : list (string * json)) (url : json) :
  first_callback payload url → find_callback payload = Some url.
Proof.
  intros (before & key & after & -> & Hb & Hkey).
  induction Hb as [|[k v] before Hk _ IH]; simpl.
  - rewrite bool_decide_eq_true_2; [done|]. by apply is_callback_key_lower.
  - rewrite bool_decide_eq_false_2; [done|]. by rewrite <- is_callback_key_lower.
Qed.

Lemma validate_callback (payload : list (string * json)) f p fc ci data cb :
  validate payload = Accepted f p fc ci data cb → cb = find_callback payload.
Proof.
  unfold validate. repeat case_match; try done; by intros [= <- <- <- <- <- <-].
Qed.

Lemma synchronous_not_asynchronous (v : validated) :
  ¬ asynchronous (synchronous ext cfg v).
Proof.
  unfold synchronous, respond, _unprocessable.
  repeat case_match; simpl; tauto.
Qed.

(** The dispatch of a valid request, by its first callback-indicator key. *)
Lemma predict_dispatch (payload : list (string * json)) :
  valid payload →
  match find_callback payload with
  | Some url =>
      if truthy url then asynchronous (predict ext cfg now payload)
      else predict ext cfg now payload = synchronous ext cfg (validate payload)
  | None => predict ext cfg now payload = synchronous ext cfg (validate payload)
  end.
Proof.
  intros Hv. unfold predict.
  destruct (validate payload) as [o|f p fc ci data cb] eqn:E.
  - by destruct (Hv o).
  - rewrite <- (validate_callback _ _ _ _ _ _ _ E).
    destruct cb as [url|]; [|done]. by destruct (truthy url).
Qed.

(** C10, as amended.  A valid request is handed to the asynchronous path
    exactly when the value under its first callback-indicator key, in the
    order of the request's keys, is truthy; when that value is falsy (the
    empty string, false, 0 or null among others), or when the request has no
    such key, it is processed synchronously, whatever later keys say. *)
Theorem callback_dispatch (payload : list (string * json)) :
  valid payload →
  (asynchronous (predict ext cfg now payload)
   ↔ ∃ url, first_callback payload url ∧ truthy url = true)
  ∧ (∀ url, first_callback payload url → truthy url = false →
       predict ext cfg now payload = synchronous ext cfg (validate payload)
       ∧ ¬ asynchronous (predict ext cfg now payload))
  ∧ ((∀ url, ¬ first_callback payload url) →
       predict ext cfg now payload = synchronous ext cfg (validate payload)
       ∧ ¬ asynchronous (predict ext cfg now payload))
  ∧ truthy (JStr "") = false ∧ truthy (JBool false) = false
  ∧ truthy (JInt 0) = false ∧ truthy JNull = false.
Proof.
  intros Hv. pose proof (predict_dispatch payload Hv) as D.
  pose proof (find_callback_first payload) as F.
  pose proof (synchronous_not_asynchronous (validate payload)) as S.
  split_and!; try reflexivity.
  - split.
    + intros Ha. destruct (find_callback payload) as [url|].
      * destruct (truthy url) eqn:T; [by exists url|].
        rewrite D in Ha. by destruct S.
      * rewrite D in Ha. by destruct S.
    + intros (url & Hf & T). rewrite (first_callback_found _ _ Hf), T in D. done.
  - intros url Hf T. rewrite (first_callback_found _ _ Hf), T in D.
    by rewrite D.
  - intros Hn. destruct (find_callback payload) as [url|].
    + by destruct (Hn url).
    + by rewrite D.
Qed.

(** C1, as amended.  When the pipeline run of a synchronous request fails
    because a column cannot be resolved or because of the aggregation level,
    both of which are [ValueError]s, the dispatcher answers 422 with the
    error code [insufficient_data] and the message of the failure. *)
Theorem value_errors_answer_422 (payload : list (string * json))
    (pipeline : PredictionPipeline) (records : list (list (string * cell)))
    (e : exn) :
  ¬ asynchronous (predict ext cfg now payload) →
  job cfg (validate payload) = Some (pipeline, records) →
  (run ext pipeline records).2 = Raise e →
  e = ColumnNotFound ∨ e = InvalidAggregationLevel →
  predict ext cfg now payload
  = Response 422 (JObj [("error", JStr "insufficient_data");
                        ("message", JStr (message_of e))]%string).
Proof.
  intros Hs Hjob Hrun He.
  assert (valid payload) as Hv.
  { intros o Ho. by rewrite Ho in Hjob. }
  pose proof (predict_dispatch payload Hv) as D.
  assert (predict ext cfg now payload = synchronous ext cfg (validate payload)) as ->.
  { destruct (find_callback payload) as [url|]; [|done].
    by destruct (truthy url). }
  unfold synchronous. rewrite Hjob, Hrun.
  by destruct He as [-> | ->].
Qed.

End Dispatcher.

Section DispatcherExamples.
Import Preprocess Pipeline Routes DispatchSpec Reference Samples.

(** C1, counterexample.  A request whose rows have no target column fails in
    the pipeline with [ColumnNotFound], and the answer is 422, a client
    error, not a 500. *)
Lemma column_not_found_is_422 :
  job thirty (validate no_target_request)
  = Some (build_pipeline "weekly" "weekly" 4 [] false 30,
          [[("date", Text "2024-01-01")]]%string)
  ∧ (run reference_externals (build_pipeline "weekly" "weekly" 4 [] false 30)
       [[("date", Text "2024-01-01")]]%string).2 = Raise ColumnNotFound
  ∧ predict reference_externals thirty 1700000000 no_target_request
    = Response 422 (JObj [("error", JStr "insufficient_data");
                          ("message", JStr "Zorunlu kolon bulunamadı")]%string).
Proof. vm_compute. done. Qed.

Lemma value_errors_answer_422_witness :
  ¬ asynchronous (predict reference_externals thirty 1700000000 no_target_request)
  ∧ job thirty (validate no_target_request)
    = Some (build_pipeline "weekly" "weekly" 4 [] false 30,
            [[("date", Text "2024-01-01")]]%string)
  ∧ (run reference_externals (build_pipeline "weekly" "weekly" 4 [] false 30)
       [[("date", Text "2024-01-01")]]%string).2 = Raise ColumnNotFound
  ∧ predict reference_externals thirty 1700000000 no_target_request
    = Response 422 (JObj [("error", JStr "insufficient_data");
                          ("message", JStr (message_of ColumnNotFound))]%string).
Proof.
  assert (¬ asynchronous
            (predict reference_externals thirty 1700000000 no_target_request)) as H1
    by (vm_compute; tauto).
  assert (job thirty (validate no_target_request)
          = Some (build_pipeline "weekly" "weekly" 4 [] false 30,
                  [[("date", Text "2024-01-01")]]%string)) as H2
    by (vm_compute; reflexivity).
  assert ((run reference_externals (build_pipeline "weekly" "weekly" 4 [] false 30)
             [[("date", Text "2024-01-01")]]%string).2 = Raise ColumnNotFound) as H3
    by (vm_compute; reflexivity).
  split_and!; [exact H1 | exact H2 | exact H3 |].
  exact (value_errors_answer_422 reference_externals thirty 1700000000
           no_target_request _ _ _ H1 H2 H3 (or_introl eq_refl)).
Defined.

(** C10, counterexample.  The request carries the callback-indicator key
    [callback] with the empty string, a falsy value, and is acknowledged and
    processed in the background all the same, because [webhook] comes first
    with an address. *)
Lemma falsy_callback_after_webhook_is_asynchronous :
  dict_get "callback" webhook_then_empty_callback = Some (JStr "")
  ∧ is_callback_key "callback"
  ∧ truthy (JStr "") = false
  ∧ asynchronous
      (predict reference_externals thirty 1700000000 webhook_then_empty_callback)
  ∧ ∃ posted,
      predict reference_externals thirty 1700000000 webhook_then_empty_callback
      = Processing
          (JObj [("success", JBool true);
                 ("message", JStr "İstek alındı, işlem arka planda devam ediyor");
                 ("request_id", JStr "req_1700000000");
                 ("status", JStr "processing");
                 ("callback_url", JStr "http://client/hook")]%string)
          posted.
Proof.
  split_and!; [reflexivity | by computed | reflexivity
              | by vm_compute | by eexists; vm_compute].
Qed.

Lemma callback_dispatch_witness :
  valid empty_callback_then_webhook
  ∧ first_callback empty_callback_then_webhook (JStr "")
  ∧ predict reference_externals thirty 1700000000 empty_callback_then_webhook
    = synchronous reference_externals thirty (validate empty_callback_then_webhook)
  ∧ ¬ asynchronous
        (predict reference_externals thirty 1700000000 empty_callback_then_webhook).
Proof.
  assert (valid empty_callback_then_webhook) as Hv by (intros o; by vm_compute).
  assert (first_callback empty_callback_then_webhook (JStr "")) as Hf.
  { exists no_target_request, "Callback"%string,
      [("webhook", JStr "http://client/hook")]%string.
    split_and!; [reflexivity | | by computed].
    repeat constructor; by computed. }
  destruct (callback_dispatch reference_externals thirty 1700000000
              empty_callback_then_webhook Hv) as (_ & H & _).
  destruct (H (JStr "") Hf eq_refl) as [H1 H2].
  split_and!; [exact Hv | exact Hf | exact H1 | exact H2].
Defined.

(** A key written with the Kelvin sign is a callback indicator, and the view
    takes it for one. *)
Lemma kelvin_key_is_asynchronous :
  is_callback_key kelvin_key
  ∧ first_callback kelvin_request (JStr "http://client/hook")
  ∧ asynchronous (predict reference_externals three 1700000000 kelvin_request).
Proof.
  split; [by computed|]. split; [|by vm_compute].
  exists served_request, kelvin_key, []. split_and!; [reflexivity | | by computed].
  repeat (apply Forall_cons; split; [by computed|]). apply Forall_nil_2.
Qed.

End DispatcherExamples.

(** ** Feature columns *)

Section Features.
Import Preprocess Pipeline.
Context (ext : externals).

Lemma labelled_cons (l : string) (c : column) (df : DataFrame) :
  labelled l (c :: df) = if decide (c.1 = l) then c :: labelled l df else labelled l df.
Proof. unfold labelled. by rewrite filter_cons. Qed.

Lemma labelled_app (l : string) (df1 df2 : DataFrame) :
  labelled l (df1 ++ df2) = labelled l df1 ++ labelled l df2.
Proof. unfold labelled. by rewrite filter_app. Qed.

Lemma labelled_labelled (l l' : string) (df : DataFrame) :
  labelled l (labelled l' df) = if decide (l = l') then labelled l df else [].
Proof.
  induction df as [|c df IH]; [by case_decide|].
  rewrite !labelled_cons.
  destruct (decide (c.1 = l')) as [Hc|Hc].
  - rewrite labelled_cons, IH.
    destruct (decide (l = l')) as [->|Hne].
    + by rewrite decide_True.
    + rewrite decide_False; [done | congruence].
  - rewrite IH. destruct (decide (l = l')) as [->|Hne]; [|done].
    by rewrite decide_False.
Qed.

Lemma labelled_select_absent (l : string) (labels : list string) (df : DataFrame) :
  l ∉ labels → labelled l (select labels df) = [].
Proof.
  unfold select. induction labels as [|l' labels IH]; intros Hl; [done|].
  apply not_elem_of_cons in Hl as [Hne Hl].
  rewrite bind_cons, labelled_app, labelled_labelled, decide_False by done.
  by apply IH.
Qed.

(** The canonical columns of a selection do not depend on the features kept
    beside them. *)
Lemma labelled_select_canonical (l : string) (kept : list string) (df : DataFrame) :
  l = "ds"%string ∨ l = "y"%string →
  "ds"%string ∉ kept → "y"%string ∉ kept →
  labelled l (select ("ds" :: "y" :: kept)%string df) = labelled l df.
Proof.
  intros Hl Hds Hy. unfold select.
  rewrite !bind_cons, !labelled_app, !labelled_labelled.
  fold (select kept df).
  destruct Hl as [-> | ->].
  - rewrite decide_True, decide_False by done.
    rewrite labelled_select_absent by done. by rewrite app_nil_r.
  - rewrite decide_False, decide_True by done.
    rewrite labelled_select_absent by done. by rewrite app_nil_r.
Qed.

Lemma labelled_take_rows (l : string) (rows : list nat) (df : DataFrame) :
  labelled l (take_rows rows df) = take_rows rows (labelled l df).
Proof.
  induction df as [|[k vs] df IH]; [done|].
  unfold take_rows in *. rewrite fmap_cons, !labelled_cons. cbn [fst snd].
  destruct (decide (k = l)); rewrite ?fmap_cons; by rewrite IH.
Qed.

(** Aggregation reads the columns [ds] and [y] and nothing else. *)
Lemma aggregate_reads_ds_y (df1 df2 : DataFrame) level wr mr :
  labelled "ds" df1 = labelled "ds" df2 →
  labelled "y" df1 = labelled "y" df2 →
  aggregate_time_series ext df1 level wr mr = aggregate_time_series ext df2 level wr mr.
Proof. intros H1 H2. unfold aggregate_time_series. by rewrite H1, H2. Qed.

(** Normalisation followed by aggregation, for features that name neither
    canonical column, is what it is without any feature. *)
Lemma aggregate_without_features (df : DataFrame) (m : detected)
    (features : list string) level wr mr :
  "ds"%string ∉ features → "y"%string ∉ features →
  (normalize_schema ext df m features
     ≫= λ df_norm, aggregate_time_series ext df_norm level wr mr)
  = (normalize_schema ext df m []
       ≫= λ df_norm, aggregate_time_series ext df_norm level wr mr).
Proof.
  intros Hds Hy. unfold normalize_schema.
  destruct (match labelled "ds" (rename m df) with
            | [] => _ | [(_, vs)] => _ | _ => _ end) as [out|e]; [|done].
  change (Ok out ≫= ?f) with (f out). cbv beta.
  destruct (dropna _ out) as [out'|e]; [|done].
  change (Ok out' ≫= ?f) with (f out'). cbv beta zeta.
  rewrite filter_nil.
  set (kept := filter (λ c, c ∈ columns out') features).
  assert (("ds"%string ∉ kept) ∧ ("y"%string ∉ kept)) as [Kds Ky].
  { unfold kept. rewrite !list_elem_of_filter. tauto. }
  assert (∀ l, l = "ds"%string ∨ l = "y"%string →
            labelled l (select ("ds" :: "y" :: kept)%string out')
            = labelled l (select ["ds"; "y"]%string out')) as Hsel.
  { intros l Hl. rewrite !labelled_select_canonical; auto using not_elem_of_nil. }
  unfold sort_values_ds. rewrite (Hsel "ds"%string) by auto.
  destruct (labelled "ds" (select ["ds"; "y"]%string out'))
    as [|[k ds] [|? ?]]; [done| |done].
  change (Ok ?a ≫= ?f) with (f a). cbv beta.
  apply aggregate_reads_ds_y; rewrite !labelled_take_rows; by rewrite Hsel by auto.
Qed.

(** For feature lists that name neither [ds] nor [y], the whole run, the
    fitted models and the payload or the failure, is the same whatever the
    list. *)
Theorem features_are_passthrough (self : PredictionPipeline)
    (features1 features2 : list string) (records : list (list (string * cell))) :
  "ds"%string ∉ features1 → "y"%string ∉ features1 →
  "ds"%string ∉ features2 → "y"%string ∉ features2 →
  run ext (with_features self features1) records
  = run ext (with_features self features2) records.
Proof.
  intros D1 Y1 D2 Y2.
  assert (∀ features, "ds"%string ∉ features → "y"%string ∉ features →
            df_agg ext (with_features self features) records
            = df_agg ext (with_features self []) records) as H.
  { intros features Hd Hy. unfold df_agg. cbn.
    destruct (empty (from_records records)); [done|].
    destruct (detect_columns ext (from_records records)) as [m|e]; [|done].
    cbn. by apply aggregate_without_features. }
  unfold run, df_clean. by rewrite (H features1), (H features2).
Qed.

End Features.

Section FeaturesExamples.
Import Preprocess Pipeline Reference Samples.

(** C9, at the failing input.  Asked to keep the feature [ds], or [y], the
    run that succeeds without features fails: the selection repeats the
    canonical column, and pandas refuses the repeated label. *)
Lemma canonical_feature_breaks_the_run :
  run reference_externals (weekly [] false 3) two_rows
  = (plain_trace, Ok plain_result)
  ∧ run reference_externals (weekly ["ds"]%string false 3) two_rows
    = ([], Raise (Exn ValueError "The column label 'ds' is not unique."))
  ∧ run reference_externals (weekly ["y"]%string false 3) two_rows
    = ([], Raise (Exn ValueError "Length mismatch")).
Proof. vm_compute. split_and!; reflexivity. Qed.

Lemma features_are_passthrough_witness :
  ("ds"%string ∉ ["store"; "promo"]%string)
  ∧ ("y"%string ∉ ["store"; "promo"]%string)
  ∧ ("ds"%string ∉ @nil string) ∧ ("y"%string ∉ @nil string)
  ∧ run reference_externals
      (with_features (weekly [] false 3) ["store"; "promo"]%string) two_rows
    = run reference_externals (with_features (weekly [] false 3) []) two_rows.
Proof.
  assert (∀ k : string, k ∉ @nil string) as N by (intros k; apply not_elem_of_nil).
  assert ("ds"%string ∉ ["store"; "promo"]%string) as H1
    by (intros H; members H; discriminate).
  assert ("y"%string ∉ ["store"; "promo"]%string) as H2
    by (intros H; members H; discriminate).
  split_and!; [exact H1 | exact H2 | apply N | apply N |].
  exact (features_are_passthrough reference_externals (weekly [] false 3)
           ["store"; "promo"]%string [] two_rows H1 H2 (N _) (N _)).
Defined.

End FeaturesExamples.

(** ** The calendar *)

Section Calendar.
Import Preprocess.

Lemma first_reads_back_table :
  forallb (λ yoe, forallb (first_reads_back yoe) (seqZ 1 12)) (seqZ 0 400) = true.
Proof. vm_compute. reflexivity. Qed.

Lemma first_reads_back_all (yoe m : Z) :
  (0 ≤ yoe < 400)%Z → (1 ≤ m ≤ 12)%Z → first_reads_back yoe m = true.
Proof.
  intros Hy Hm. pose proof first_reads_back_table as T.
  rewrite forallb_forall in T.
  specialize (T yoe). rewrite forallb_forall in T.
  apply T; apply list_elem_of_In, elem_of_seqZ; lia.
Qed.

(** The first day of a month reads back as the first day of that month, in
    every year. *)
Lemma civil_from_days_first (y m : Z) :
  (1 ≤ m ≤ 12)%Z → civil_from_days (days_from_civil y m 1) = (y, m, 1%Z).
Proof.
  intros Hm. unfold civil_from_days, days_from_civil.
  set (y' := (if (m <=? 2)%Z then y - 1 else y)%Z).
  set (era := (y' / 400)%Z).
  assert (0 ≤ y' - era * 400 < 400)%Z as Hyoe.
  { unfold era. pose proof (Z.mod_pos_bound y' 400 ltac:(lia)).
    rewrite Z.mod_eq in H by lia. lia. }
  pose proof (first_reads_back_all _ m Hyoe Hm) as R.
  unfold first_reads_back in R.
  set (doe := doe_of_civil (y' - era * 400) m 1) in *.
  destruct (civil_of_doe doe) as [[yy mm] dd] eqn:E.
  rewrite !andb_true_iff in R. destruct R as [[[[R1 R2] R3] R4] R5].
  apply Z.leb_le in R1. apply Z.ltb_lt in R2.
  apply Z.eqb_eq in R3, R4, R5. subst yy mm dd.
  replace (era * 146097 + doe - 719468 + 719468)%Z with (doe + era * 146097)%Z by lia.
  rewrite Z.div_add, (Z.div_small doe) by lia.
  replace (doe + era * 146097 - (0 + era) * 146097)%Z with doe by lia.
  rewrite E. f_equal. f_equal.
  unfold y'. destruct (m <=? 2)%Z; lia.
Qed.

Lemma month_index_first (i : Z) : month_index (month_first i) = i.
Proof.
  unfold month_index, month_first.
  pose proof (Z.mod_pos_bound i 12 ltac:(lia)).
  rewrite civil_from_days_first by lia.
  pose proof (Z.div_mod i 12 ltac:(lia)). lia.
Qed.

#[local] Instance month_first_inj : Inj (=) (=) month_first.
Proof.
  intros i j H. rewrite <- (month_index_first i), <- (month_index_first j).
  by rewrite H.
Qed.

Lemma month_first_shift (i e : Z) :
  month_first (i + 4800 * e) = (month_first i + 146097 * e)%Z.
Proof.
  unfold month_first, days_from_civil.
  replace (i + 4800 * e)%Z with (i + (400 * e) * 12)%Z by lia.
  rewrite Z.div_add, Z.mod_add by lia.
  set (m := (i mod 12 + 1)%Z). set (y := (i / 12)%Z).
  assert ((if (m <=? 2)%Z then y + 400 * e - 1 else y + 400 * e)
          = (if (m <=? 2)%Z then y - 1 else y) + e * 400)%Z as ->
    by (destruct (m <=? 2)%Z; lia).
  set (y' := (if (m <=? 2)%Z then y - 1 else y)%Z).
  rewrite Z.div_add by lia.
  replace (y' + e * 400 - (y' / 400 + e) * 400)%Z with (y' - y' / 400 * 400)%Z by lia.
  lia.
Qed.

Lemma month_grows_table : forallb month_grows (seqZ 0 4800) = true.
Proof. vm_compute. reflexivity. Qed.

Lemma month_first_next (i : Z) : (month_first i < month_first (i + 1))%Z.
Proof.
  pose proof (Z.div_mod i 4800 ltac:(lia)) as D.
  pose proof (Z.mod_pos_bound i 4800 ltac:(lia)) as B.
  pose proof month_grows_table as T. rewrite forallb_forall in T.
  specialize (T (i mod 4800)%Z). unfold month_grows in T.
  rewrite Z.ltb_lt in T.
  replace i with (i mod 4800 + 4800 * (i / 4800))%Z at 1 by lia.
  replace (i + 1)%Z with (i mod 4800 + 1 + 4800 * (i / 4800))%Z by lia.
  rewrite !month_first_shift.
  assert (month_first (i mod 4800) < month_first (i mod 4800 + 1))%Z; [|lia].
  apply T, list_elem_of_In, elem_of_seqZ. lia.
Qed.

Lemma month_first_mono (i j : Z) : (i ≤ j)%Z → (month_first i ≤ month_first j)%Z.
Proof.
  intros H. replace j with (i + Z.of_nat (Z.to_nat (j - i)))%Z by lia.
  induction (Z.to_nat (j - i)) as [|n IH]; [by rewrite Z.add_0_r|].
  pose proof (month_first_next (i + Z.of_nat n)).
  replace (i + Z.of_nat (S n))%Z with (i + Z.of_nat n + 1)%Z by lia. lia.
Qed.

(** A Monday is the label of its own week, and weeks shift with the days. *)
Lemma week_label_shift (d k : Z) :
  bin_label_week (d + 7 * k) = (bin_label_week d + 7 * k)%Z.
Proof.
  unfold bin_label_week.
  replace (- (d + 7 * k + 3))%Z with (- (d + 3) + (- k) * 7)%Z by lia.
  rewrite Z.mod_add by lia. lia.
Qed.

Lemma week_label_fixed (d : Z) : bin_label_week (bin_label_week d) = bin_label_week d.
Proof.
  unfold bin_label_week.
  pose proof (Z.mod_pos_bound (- (d + 3)) 7 ltac:(lia)).
  pose proof (Z.div_mod (- (d + 3)) 7 ltac:(lia)).
  assert ((- (d + (- (d + 3)) mod 7 + 3)) mod 7 = 0)%Z as ->; [|lia].
  replace (- (d + (- (d + 3)) mod 7 + 3))%Z with ((- (d + 3)) / 7 * 7)%Z by lia.
  apply Z.mod_mul. lia.
Qed.

End Calendar.

(** ** The sanitiser *)

Section Sanitizer.
Import Preprocess.
Context (ext : externals).

Lemma foldr_max_elem (d : Z) (l : list Z) : foldr Z.max d l ∈ d :: l.
Proof.
  induction l as [|x l IH]; simpl; [apply list_elem_of_here|].
  destruct (Z.max_spec x (foldr Z.max d l)) as [[_ ->]|[_ ->]].
  - apply elem_of_cons in IH as [->|IH]; [apply list_elem_of_here|].
    by do 2 apply list_elem_of_further.
  - apply list_elem_of_further, list_elem_of_here.
Qed.

Lemma foldr_min_elem (d : Z) (l : list Z) : foldr Z.min d l ∈ d :: l.
Proof.
  induction l as [|x l IH]; simpl; [apply list_elem_of_here|].
  destruct (Z.min_spec x (foldr Z.min d l)) as [[_ ->]|[_ ->]].
  - apply list_elem_of_further, list_elem_of_here.
  - apply elem_of_cons in IH as [->|IH]; [apply list_elem_of_here|].
    by do 2 apply list_elem_of_further.
Qed.

Lemma maximum_elem (l : list Z) : l ≠ [] → maximum l ∈ l.
Proof.
  destruct l as [|x l]; [done|]. intros _. unfold maximum. simpl head. simpl default.
  pose proof (foldr_max_elem x (x :: l)) as H.
  by apply elem_of_cons in H as [->|H]; [apply list_elem_of_here|].
Qed.

Lemma minimum_elem (l : list Z) : l ≠ [] → minimum l ∈ l.
Proof.
  destruct l as [|x l]; [done|]. intros _. unfold minimum. simpl head. simpl default.
  pose proof (foldr_min_elem x (x :: l)) as H.
  by apply elem_of_cons in H as [->|H]; [apply list_elem_of_here|].
Qed.

(** On an index that is a grid, [date_range] between its ends is the index. *)
Lemma date_range_on_grid (r : rule) (idx : list Z) :
  r = W_MON ∨ r = MS → idx ≠ [] → on_grid r idx = true →
  date_range ext (minimum idx) (maximum idx) r = idx.
Proof.
  intros Hr Hne Hg. apply bool_decide_eq_true in Hg.
  pose proof (maximum_elem idx Hne) as Hmax.
  pose proof (minimum_elem idx Hne) as Hmin.
  set (lo := minimum idx) in *. set (hi := maximum idx) in *.
  transitivity (bin_labels r lo hi); [|done].
  destruct Hr as [-> | ->]; unfold date_range, bin_labels, bin_label.
  - assert (bin_label_week hi = hi) as ->; [|done].
    rewrite Hg in Hmax. unfold bin_labels, bin_label in Hmax.
    apply list_elem_of_fmap in Hmax as (k & -> & _).
    by rewrite week_label_shift, week_label_fixed.
  - assert (month_first (month_index lo) = lo) as ->.
    { rewrite Hg in Hmin. unfold bin_labels in Hmin.
      apply list_elem_of_fmap in Hmin as (j & Hj & _).
      rewrite Hj at 1. by rewrite month_index_first. }
    rewrite Z.eqb_refl. reflexivity.
Qed.

Lemma on_grid_NoDup (r : rule) (idx : list Z) :
  r = W_MON ∨ r = MS → on_grid r idx = true → NoDup idx.
Proof.
  intros Hr Hg. apply bool_decide_eq_true in Hg. rewrite Hg.
  destruct Hr as [-> | ->]; unfold bin_labels.
  - apply NoDup_fmap_2_strong; [|apply NoDup_seqZ]. intros; lia.
  - apply NoDup_fmap_2; [apply month_first_inj | apply NoDup_seqZ].
Qed.

Lemma lookup_day_index (s : series) :
  NoDup s.*1 → (λ d, lookup_day d s) <$> s.*1 = Some <$> s.*2.
Proof.
  induction s as [|[d y] s IH]; [done|].
  rewrite !fmap_cons. cbn [fst snd]. intros [Hd Hs]%NoDup_cons.
  cbn [lookup_day]. rewrite Z.eqb_refl. f_equal.
  rewrite <- IH by done. apply list_fmap_ext. intros i d' Hi.
  destruct (d =? d')%Z eqn:E; [|done].
  apply Z.eqb_eq in E. subst d'. destruct Hd. by eapply list_elem_of_lookup_2.
Qed.

Lemma ffill_from_Some (last : option Q) (ys : list Q) :
  ffill_from last (Some <$> ys) = Some <$> ys.
Proof.
  revert last. induction ys as [|y ys IH]; intros last; [done|].
  rewrite fmap_cons. cbn [ffill_from]. by rewrite IH.
Qed.

Lemma fills_Some (ys : list Q) : bfill (ffill (Some <$> ys)) = Some <$> ys.
Proof.
  unfold bfill, ffill. rewrite ffill_from_Some, <- fmap_reverse, ffill_from_Some.
  by rewrite fmap_reverse, reverse_involutive.
Qed.

(** On a grid of three periods or more nothing is reindexed or filled: the
    sanitiser keeps the dates and clips the values once. *)
Lemma sanitize_on_grid (r : rule) (s : series) :
  r = W_MON ∨ r = MS → on_grid r s.*1 = true → (3 ≤ length s)%nat →
  sanitize_outliers_and_missing ext s = Ok (zip s.*1 (reclip s.*2)).
Proof.
  intros Hr Hg Hlen. unfold sanitize_outliers_and_missing.
  assert (s.*1 ≠ []) as Hne by (destruct s; [simpl in Hlen; lia | done]).
  rewrite (proj2 (Nat.ltb_ge _ _)) by lia.
  assert (∃ r', (r' = W_MON ∨ r' = MS) ∧ on_grid r' s.*1 = true
                ∧ infer_freq ext s.*1 = Ok (Some r')) as (r' & Hr' & Hg' & ->).
  { unfold infer_freq. rewrite length_fmap, (proj2 (Nat.ltb_ge _ _)) by lia.
    destruct (on_grid W_MON s.*1) eqn:EW; [by exists W_MON; auto|].
    destruct Hr as [-> | ->]; [congruence|]. rewrite Hg. by exists MS; auto. }
  change (Ok (Some r') ≫= ?f) with (f (Some r')). cbv beta.
  rewrite date_range_on_grid by done.
  unfold reindex. rewrite bool_decide_eq_true_2 by by eapply on_grid_NoDup.
  change (Ok ?a ≫= ?f) with (f a). cbv beta.
  rewrite lookup_day_index by by eapply on_grid_NoDup.
  rewrite fills_Some, mapM_fmap_Some by done.
  unfold reclip. rewrite length_fmap, (proj2 (Nat.ltb_ge _ _)) by lia.
  by destruct (fences s.*2).
Qed.

Lemma foldr_min_le (d x : Z) (l : list Z) : x ∈ d :: l → (foldr Z.min d l ≤ x)%Z.
Proof.
  induction l as [|y l IH]; simpl; intros H.
  - members H. lia.
  - apply elem_of_cons in H as [->|H].
    + pose proof (IH (list_elem_of_here _ _)). lia.
    + apply elem_of_cons in H as [->|H]; [lia|].
      pose proof (IH (list_elem_of_further _ _ _ H)). lia.
Qed.

Lemma foldr_max_ge (d x : Z) (l : list Z) : x ∈ d :: l → (x ≤ foldr Z.max d l)%Z.
Proof.
  induction l as [|y l IH]; simpl; intros H.
  - members H. lia.
  - apply elem_of_cons in H as [->|H].
    + pose proof (IH (list_elem_of_here _ _)). lia.
    + apply elem_of_cons in H as [->|H]; [lia|].
      pose proof (IH (list_elem_of_further _ _ _ H)). lia.
Qed.

Lemma minimum_le (x : Z) (l : list Z) : x ∈ l → (minimum l ≤ x)%Z.
Proof.
  intros H. destruct l as [|y l]; [by members H|].
  apply foldr_min_le. by apply list_elem_of_further.
Qed.

Lemma maximum_ge (x : Z) (l : list Z) : x ∈ l → (x ≤ maximum l)%Z.
Proof.
  intros H. destruct l as [|y l]; [by members H|].
  apply foldr_max_ge. by apply list_elem_of_further.
Qed.

(** The ends of a run of values that grow with their rank. *)
Lemma ends_of_monotone (f : Z → Z) (a n : Z) :
  (∀ i j, i ≤ j → f i ≤ f j)%Z → (1 ≤ n)%Z →
  minimum (f <$> seqZ a n) = f a ∧ maximum (f <$> seqZ a n) = f (a + n - 1)%Z.
Proof.
  intros Hf Hn.
  assert (f <$> seqZ a n ≠ []) as Hne.
  { rewrite seqZ_cons by lia. done. }
  pose proof (minimum_elem _ Hne) as (i & Hi & Hia%elem_of_seqZ)%list_elem_of_fmap.
  pose proof (maximum_elem _ Hne) as (j & Hj & Hja%elem_of_seqZ)%list_elem_of_fmap.
  assert (f a ∈ f <$> seqZ a n) as Ha
    by (apply list_elem_of_fmap_2, elem_of_seqZ; lia).
  assert (f (a + n - 1)%Z ∈ f <$> seqZ a n) as Hb
    by (apply list_elem_of_fmap_2, elem_of_seqZ; lia).
  apply minimum_le in Ha. apply maximum_ge in Hb.
  pose proof (Hf a i ltac:(lia)). pose proof (Hf j (a + n - 1)%Z ltac:(lia)).
  lia.
Qed.

Lemma week_grid_on_grid (b n : Z) :
  bin_label_week b = b → (1 ≤ n)%Z →
  on_grid W_MON ((λ k, b + 7 * k)%Z <$> seqZ 0 n) = true.
Proof.
  intros Hb Hn. unfold on_grid. apply bool_decide_eq_true.
  destruct (ends_of_monotone (λ k, b + 7 * k)%Z 0 n
              ltac:(intros; cbv beta; lia) Hn) as [-> ->].
  unfold bin_labels, bin_label. cbv beta.
  rewrite !week_label_shift, Hb, Z.mul_0_r, Z.add_0_r.
  replace ((b + 7 * (0 + n - 1) - b) / 7 + 1)%Z with n; [done|].
  replace (b + 7 * (0 + n - 1) - b)%Z with ((n - 1) * 7)%Z by lia.
  rewrite Z.div_mul by lia. lia.
Qed.

Lemma month_grid_on_grid (a n : Z) :
  (1 ≤ n)%Z → on_grid MS (month_first <$> seqZ a n) = true.
Proof.
  intros Hn. unfold on_grid. apply bool_decide_eq_true.
  destruct (ends_of_monotone month_first a n month_first_mono Hn) as [-> ->].
  unfold bin_labels. rewrite !month_index_first.
  by replace (a + n - 1 - a + 1)%Z with n by lia.
Qed.

Lemma bin_labels_on_grid (r : rule) (lo hi : Z) :
  r = W_MON ∨ r = MS →
  bin_labels r lo hi = [] ∨ on_grid r (bin_labels r lo hi) = true.
Proof.
  intros [-> | ->]; unfold bin_labels.
  - change (bin_label W_MON ?x) with (bin_label_week x).
    destruct (Z.le_gt_cases 1 ((bin_label_week hi - bin_label_week lo) / 7 + 1))
      as [Hn|Hn].
    + right. apply week_grid_on_grid; [apply week_label_fixed | done].
    + left. by rewrite seqZ_nil by lia.
  - destruct (Z.le_gt_cases 1 (month_index hi - month_index lo + 1)) as [Hn|Hn].
    + right. by apply month_grid_on_grid.
    + left. by rewrite seqZ_nil by lia.
Qed.

Lemma fst_labelled_sums (sum : Z → Q) (L : list Z) : ((λ l, (l, sum l)) <$> L).*1 = L.
Proof. induction L as [|l L IH]; [done|]. rewrite !fmap_cons. by rewrite IH. Qed.

(** What the aggregator returns is empty or a grid of its rule. *)
Lemma aggregated_on_grid (s : series) :
  aggregated s → s = [] ∨ ∃ r, (r = W_MON ∨ r = MS) ∧ on_grid r s.*1 = true.
Proof.
  intros (r & rows & Hr & ->). unfold resample_sum.
  destruct rows as [|row rows]; [by left|].
  generalize (minimum (row :: rows).*1) (maximum (row :: rows).*1). intros lo hi.
  rewrite fst_labelled_sums.
  destruct (bin_labels_on_grid r lo hi Hr) as [-> | Hg]; [by left|].
  right. by exists r.
Qed.

Lemma aggregate_time_series_aggregated (df : DataFrame) level wr mr (s : series) :
  (wr = W_MON ∨ wr = MS) → (mr = W_MON ∨ mr = MS) →
  aggregate_time_series ext df level wr mr = Ok s → aggregated s.
Proof.
  intros Hw Hm. unfold aggregate_time_series.
  destruct (negb _); [done|].
  destruct (match labelled "ds" df with [] => _ | _ => _ end) as [ds|e]; [|done].
  change (Ok ds ≫= ?f) with (f ds). cbv beta zeta.
  set (r := if String.eqb level "weekly" then wr else mr).
  assert (r = W_MON ∨ r = MS) as Hr by (unfold r; by destruct (String.eqb _ _)).
  destruct (labelled "y" df) as [|[k ys] [|? ?]]; try done.
  clearbody r.
  destruct Hr as [-> | ->];
    destruct (mapM id ds) as [ds'|]; try done;
    destruct (mapM number ys) as [ys'|]; try done; intros [= <-].
  - exists W_MON, (zip ds' ys'). auto.
  - exists MS, (zip ds' ys'). auto.
Qed.

Lemma length_reclip (ys : list Q) : length (reclip ys) = length ys.
Proof. unfold reclip. destruct (_ <? _)%nat; [done | by rewrite length_fmap]. Qed.

(** An aggregated series comes through the sanitiser with its dates, and its
    values clipped once; the only failure is the series of exactly two
    periods. *)
Lemma sanitize_gridded (s : series) :
  gridded s →
  if Nat.eqb (length s) 2 then
    sanitize_outliers_and_missing ext s
    = Raise (Exn ValueError "Need at least 3 dates to infer frequency")
  else sanitize_outliers_and_missing ext s = Ok (zip s.*1 (reclip s.*2)).
Proof.
  intros Ha. destruct (Nat.eqb (length s) 2) eqn:E2.
  - apply Nat.eqb_eq in E2. unfold sanitize_outliers_and_missing, infer_freq.
    by rewrite length_fmap, E2.
  - apply Nat.eqb_neq in E2.
    destruct (decide (length s < 2)%nat) as [Hlt|Hge].
    + unfold sanitize_outliers_and_missing, reclip.
      rewrite length_fmap, (proj2 (Nat.ltb_lt _ _)) by done.
      by rewrite zip_fst_snd.
    + destruct Ha as [-> | (r & Hr & Hg)]; [simpl in Hge; lia|].
      apply (sanitize_on_grid r); [done | done | lia].
Qed.

Lemma clip_within (lower upper v : Q) :
  (lower <= v)%Q → (v <= upper)%Q → clip lower upper v = v.
Proof.
  intros Hl Hu. unfold clip, Qmax, Qmin, GenericMinMax.gmax, GenericMinMax.gmin.
  assert ((v ?= lower)%Q ≠ Lt) as E1.
  { intros E. apply Qlt_alt in E. by apply Qlt_not_le in E. }
  assert ((v ?= upper)%Q ≠ Gt) as E2.
  { intros E. apply Qgt_alt in E. by apply Qlt_not_le in E. }
  destruct (v ?= lower)%Q; [|done|]; by destruct (v ?= upper)%Q.
Qed.

(** C4, as amended.  Sanitising an aggregated series keeps its dates, no
    period being missing from it, and clips its values once; sanitising the
    result keeps the dates again and clips the values with fences computed
    anew from the clipped values.  A value within those new fences is left
    as it is; the second pass is not a no-op in general. *)
Theorem sanitize_twice (s s1 : series) :
  aggregated s →
  sanitize_outliers_and_missing ext s = Ok s1 →
  s1.*1 = s.*1 ∧ s1.*2 = reclip s.*2
  ∧ (∃ s2, sanitize_outliers_and_missing ext s1 = Ok s2
           ∧ s2.*1 = s1.*1 ∧ s2.*2 = reclip s1.*2)
  ∧ (∀ lower upper v, (lower <= v)%Q → (v <= upper)%Q → clip lower upper v = v).
Proof.
  intros Ha H1. apply (aggregated_on_grid) in Ha.
  pose proof (sanitize_gridded s Ha) as G.
  destruct (Nat.eqb (length s) 2) eqn:E2; [congruence|].
  rewrite G in H1. injection H1 as <-.
  assert (length s.*1 = length (reclip s.*2)) as Hlen
    by by rewrite length_reclip, !length_fmap.
  rewrite fst_zip, snd_zip by lia.
  split_and!; [done | done | | apply clip_within].
  assert (gridded (zip s.*1 (reclip s.*2))) as Ha1.
  { destruct Ha as [-> | (r & Hr & Hg)]; [by left|].
    right. exists r. by rewrite fst_zip by lia. }
  pose proof (sanitize_gridded _ Ha1) as G1.
  rewrite length_zip, <- Hlen, Nat.min_id, length_fmap, E2 in G1.
  rewrite fst_zip, snd_zip in G1 by lia.
  eexists. split; [exact G1|]. 
  rewrite fst_zip, snd_zip; [done | |]; rewrite length_reclip; lia.
Qed.

End Sanitizer.

Section SanitizerExamples.
Import Preprocess Pipeline Reference Samples.

(** C4, counterexample.  Four weekly totals 0, 8, 8, 8 are an aggregated
    series.  The first pass has quartiles 6 and 8 and clips the 0 up to the
    lower fence 3; the second pass finds quartiles 27/4 and 8 and clips the
    3 up to the new lower fence 39/8. *)
Lemma second_pass_clips_again :
  df_agg reference_externals (weekly [] false 3) four_weeks = Ok spiky
  ∧ sanitize_outliers_and_missing reference_externals spiky = Ok once
  ∧ sanitize_outliers_and_missing reference_externals once = Ok twice
  ∧ Forall2 Qeq once.*2 [3; 8; 8; 8]%Q
  ∧ Forall2 Qeq twice.*2 [39 # 8; 8; 8; 8]%Q
  ∧ once.*1 = twice.*1
  ∧ twice ≠ once.
Proof.
  split_and!; try (vm_compute; reflexivity).
  - repeat constructor.
  - repeat constructor.
  - vm_compute. discriminate.
Qed.

Lemma sanitize_twice_witness :
  aggregated spiky
  ∧ sanitize_outliers_and_missing reference_externals spiky = Ok once
  ∧ once.*1 = spiky.*1 ∧ once.*2 = reclip spiky.*2
  ∧ (∃ s2, sanitize_outliers_and_missing reference_externals once = Ok s2
           ∧ s2.*1 = once.*1 ∧ s2.*2 = reclip once.*2)
  ∧ (∀ lower upper v, (lower <= v)%Q → (v <= upper)%Q → clip lower upper v = v).
Proof.
  assert (aggregated spiky) as Ha.
  { exists W_MON, four_rows. split; [by left | vm_compute; reflexivity]. }
  assert (sanitize_outliers_and_missing reference_externals spiky = Ok once) as H1
    by (vm_compute; reflexivity).
  split; [exact Ha|]. split; [exact H1|].
  exact (sanitize_twice reference_externals spiky once Ha H1).
Defined.

End SanitizerExamples.

(** ** The minimum of data points *)

Section Minimum.
Import Preprocess Pipeline.
Context (ext : externals) (self : PredictionPipeline).

Lemma df_agg_aggregated (records : list (list (string * cell))) (agg : series) :
  (weekly_rule self = W_MON ∨ weekly_rule self = MS) →
  (monthly_rule self = W_MON ∨ monthly_rule self = MS) →
  df_agg ext self records = Ok agg → aggregated agg.
Proof.
  intros Hw Hm. unfold df_agg.
  destruct (empty _); [done|].
  destruct (detect_columns ext _) as [m|e]; [|done].
  change (Ok m ≫= ?f) with (f m). cbv beta.
  destruct (normalize_schema ext _ m _) as [n|e]; [|done].
  change (Ok n ≫= ?f) with (f n). cbv beta.
  by apply aggregate_time_series_aggregated.
Qed.

(** Under the two anchored rules, a request that aggregates to fewer buckets
    than the minimum fails before any model is fitted: with
    [InsufficientData], unless the buckets are exactly two, where
    [pd.infer_freq] has already refused them inside the sanitiser. *)
Theorem too_few_buckets_fail_before_forecasting
    (records : list (list (string * cell))) (agg : series) :
  (weekly_rule self = W_MON ∨ weekly_rule self = MS) →
  (monthly_rule self = W_MON ∨ monthly_rule self = MS) →
  df_agg ext self records = Ok agg →
  (Z.of_nat (length agg) < min_data_points self)%Z →
  run ext self records
  = ([], Raise (if Nat.eqb (length agg) 2
                then Exn ValueError "Need at least 3 dates to infer frequency"
                else InsufficientData)).
Proof.
  intros Hw Hm Hagg Hlt.
  pose proof (df_agg_aggregated records agg Hw Hm Hagg) as Ha.
  apply (aggregated_on_grid) in Ha.
  pose proof (sanitize_gridded ext agg Ha) as G.
  unfold run, df_clean. rewrite Hagg.
  change (Ok agg ≫= ?f) with (f agg). cbv beta.
  destruct (Nat.eqb (length agg) 2); rewrite G; [done|].
  unfold lift. cbn -[Z.of_nat Predictor.fit_predict].
  rewrite length_zip, length_reclip, !length_fmap, Nat.min_id.
  by rewrite (proj2 (Z.ltb_lt _ _)) by done.
Qed.
End Minimum.

Section MinimumExamples.
Import Preprocess Pipeline Reference Samples.

(** C2, at the failing input.  Three daily rows, Sunday to Tuesday,
    aggregate to two weekly buckets, fewer than the thirty required; the run
    fails before any model is fitted, but inside the sanitiser, where
    [pd.infer_freq] refuses two dates, and not with [InsufficientData]: the
    check of the minimum is never reached. *)
Lemma two_buckets_fail_in_the_sanitizer :
  df_agg reference_externals (weekly [] false 30) three_days
  = Ok [(19723%Z, 11%Q); (19730%Z, 7%Q)]
  ∧ isoformat 19723 = "2024-01-01"%string ∧ isoformat 19730 = "2024-01-08"%string
  ∧ run reference_externals (weekly [] false 30) three_days
    = ([], Raise (Exn ValueError "Need at least 3 dates to infer frequency"))
  ∧ (run reference_externals (weekly [] false 30) three_days).2
    ≠ Raise InsufficientData.
Proof. vm_compute. split_and!; done. Qed.

Lemma too_few_buckets_fail_before_forecasting_witness :
  (weekly_rule (weekly [] false 30) = W_MON ∨ weekly_rule (weekly [] false 30) = MS)
  ∧ (monthly_rule (weekly [] false 30) = W_MON ∨ monthly_rule (weekly [] false 30) = MS)
  ∧ df_agg reference_externals (weekly [] false 30) midweek_days = Ok [(19730%Z, 18%Q)]
  ∧ (Z.of_nat (length [(19730%Z, 18%Q)]) < min_data_points (weekly [] false 30))%Z
  ∧ run reference_externals (weekly [] false 30) midweek_days
    = ([], Raise InsufficientData).
Proof.
  assert (df_agg reference_externals (weekly [] false 30) midweek_days
          = Ok [(19730%Z, 18%Q)]) as H by (vm_compute; reflexivity).
  assert (Z.of_nat (length [(19730%Z, 18%Q)]) < min_data_points (weekly [] false 30))%Z
    as Hlt by (vm_compute; reflexivity).
  split_and!; [by left | by right | exact H | exact Hlt |].
  exact (too_few_buckets_fail_before_forecasting reference_externals
           (weekly [] false 30) midweek_days _ (or_introl eq_refl)
           (or_intror eq_refl) H Hlt).
Defined.

End MinimumExamples.

(** ** Days, weeks and months *)

Section CalendarDays.
Import Preprocess.

(** Within an era the year formula brackets the day: the year is between 0
    and 399, and the day of the year between 0 and 365. *)
Lemma era_day_year (doe : Z) :
  (0 ≤ doe < 146097)%Z →
  let yoe := ((doe - doe / 1460 + doe / 36524 - doe / 146096) / 365)%Z in
  (0 ≤ yoe < 400)%Z ∧ (0 ≤ doe - (365 * yoe + yoe / 4 - yoe / 100) ≤ 365)%Z.
Proof. intros H yoe. subst yoe. Z.div_mod_to_equations. lia. Qed.

Lemma era_year_mono (a b : Z) :
  (0 ≤ a ≤ b)%Z → (b < 146097)%Z → (era_year a ≤ era_year b)%Z.
Proof.
  intros H1 H2. unfold era_year.
  apply Z.div_le_mono; [lia|].
  Z.div_mod_to_equations. lia.
Qed.

Lemma era_month_bounds (doe : Z) :
  (0 ≤ doe < 146097)%Z → (0 ≤ era_month doe < 4800)%Z.
Proof.
  intros H. pose proof (era_day_year doe H) as K. cbv zeta in K.
  unfold era_month. fold (era_year doe) in K.
  generalize dependent (era_year doe). intros yoe K.
  Z.div_mod_to_equations. lia.
Qed.

Lemma era_month_mono (a b : Z) :
  (0 ≤ a ≤ b)%Z → (b < 146097)%Z → (era_month a ≤ era_month b)%Z.
Proof.
  intros H1 H2.
  pose proof (era_day_year a ltac:(lia)) as Ka.
  pose proof (era_day_year b ltac:(lia)) as Kb. cbv zeta in Ka, Kb.
  pose proof (era_year_mono a b H1 H2) as M.
  unfold era_month. fold (era_year a) in Ka. fold (era_year b) in Kb.
  generalize dependent (era_year a). intros ya Ka.
  generalize dependent (era_year b). intros yb Kb M.
  Z.div_mod_to_equations. lia.
Qed.

Lemma era_split (d : Z) :
  let era := ((d + 719468) / 146097)%Z in
  (0 ≤ d + 719468 - era * 146097 < 146097)%Z.
Proof. cbv zeta. Z.div_mod_to_equations. lia. Qed.

Lemma month_index_era (d : Z) :
  month_index d
  = (4800 * ((d + 719468) / 146097)
     + era_month (d + 719468 - (d + 719468) / 146097 * 146097) + 2)%Z.
Proof.
  unfold month_index, civil_from_days.
  pose proof (era_split d) as Hdoe. cbv zeta in Hdoe.
  set (era := ((d + 719468) / 146097)%Z) in *.
  set (doe := (d + 719468 - era * 146097)%Z) in *.
  pose proof (era_day_year doe Hdoe) as K. cbv zeta in K.
  unfold civil_of_doe, era_month, era_year.
  set (yoe := ((doe - doe / 1460 + doe / 36524 - doe / 146096) / 365)%Z) in *.
  set (doy := (doe - (365 * yoe + yoe / 4 - yoe / 100))%Z) in *.
  set (mp := ((5 * doy + 2) / 153)%Z).
  assert (0 ≤ mp ≤ 11)%Z as Hmp.
  { unfold mp. clearbody doy. Z.div_mod_to_equations. lia. }
  destruct (mp <? 10)%Z eqn:E1.
  - apply Z.ltb_lt in E1. rewrite (proj2 (Z.leb_gt _ _)) by lia. lia.
  - apply Z.ltb_ge in E1. rewrite (proj2 (Z.leb_le _ _)) by lia. lia.
Qed.

(** A later day is in the same month or in a later one. *)
Lemma month_index_mono (d d' : Z) : (d ≤ d')%Z → (month_index d ≤ month_index d')%Z.
Proof.
  intros H. rewrite !month_index_era.
  pose proof (era_split d) as B. pose proof (era_split d') as B'. cbv zeta in B, B'.
  set (e := ((d + 719468) / 146097)%Z) in *.
  set (e' := ((d' + 719468) / 146097)%Z) in *.
  assert (e ≤ e')%Z as He by (apply Z.div_le_mono; lia).
  pose proof (era_month_bounds _ B) as M. pose proof (era_month_bounds _ B') as M'.
  destruct (decide (e = e')) as [Heq|Hne].
  - rewrite <- Heq in *.
    pose proof (era_month_mono (d + 719468 - e * 146097) (d' + 719468 - e * 146097)).
    lia.
  - lia.
Qed.

(** A day is on or after the first of its month, and before the first of
    the next. *)
Lemma month_first_le (d : Z) : (month_first (month_index d) ≤ d)%Z.
Proof.
  unfold month_first, month_index, civil_from_days, days_from_civil.
  pose proof (era_split d) as Hdoe. cbv zeta in Hdoe.
  set (era := ((d + 719468) / 146097)%Z) in *.
  set (doe := (d + 719468 - era * 146097)%Z) in *.
  pose proof (era_day_year doe Hdoe) as K. cbv zeta in K.
  unfold civil_of_doe.
  set (yoe := ((doe - doe / 1460 + doe / 36524 - doe / 146096) / 365)%Z) in *.
  set (doy := (doe - (365 * yoe + yoe / 4 - yoe / 100))%Z) in *.
  set (mp := ((5 * doy + 2) / 153)%Z).
  assert (0 ≤ mp ≤ 11 ∧ (153 * mp + 2) / 5 ≤ doy)%Z as [Hmp Hd].
  { unfold mp. clearbody doy. Z.div_mod_to_equations. lia. }
  set (m := (if (mp <? 10)%Z then mp + 3 else mp - 9)%Z).
  assert (1 ≤ m ≤ 12 ∧ (m + 9) mod 12 = mp)%Z as [Hm Hmm].
  { unfold m. destruct (mp <? 10)%Z eqn:E; [apply Z.ltb_lt in E | apply Z.ltb_ge in E];
      (split; [lia|]).
    - replace (mp + 3 + 9)%Z with (mp + 1 * 12)%Z by lia.
      rewrite Z.mod_add by lia. apply Z.mod_small. lia.
    - replace (mp - 9 + 9)%Z with mp by lia. apply Z.mod_small. lia. }
  set (c := (if (m <=? 2)%Z then 1 else 0)%Z).
  set (y := (yoe + c + era * 400)%Z).
  assert ((y * 12 + (m - 1)) / 12 = y ∧ (y * 12 + (m - 1)) mod 12 + 1 = m)%Z as [-> ->].
  { clearbody y m. Z.div_mod_to_equations. lia. }
  assert ((if (m <=? 2)%Z then y - 1 else y) = yoe + era * 400)%Z as ->.
  { unfold y, c. destruct (m <=? 2)%Z; lia. }
  rewrite Z.div_add, (Z.div_small yoe) by lia.
  unfold doe_of_civil. rewrite Hmm.
  replace (yoe + era * 400 - (0 + era) * 400)%Z with yoe by lia.
  unfold doy in Hd. unfold doe in *. lia.
Qed.

Lemma month_first_gt (d : Z) : (d < month_first (month_index d + 1))%Z.
Proof.
  destruct (Z.lt_ge_cases d (month_first (month_index d + 1))) as [H|H]; [done|].
  apply month_index_mono in H. rewrite month_index_first in H. lia.
Qed.

(** The Monday that closes the week of a day is that day or one of the six
    that follow, and a later day has the same Monday or a later one. *)
Lemma week_label_bounds (d : Z) : (d ≤ bin_label_week d < d + 7)%Z.
Proof. unfold bin_label_week. Z.div_mod_to_equations. lia. Qed.

Lemma week_label_monday (d : Z) : weekday (bin_label_week d) = 0%Z.
Proof. unfold weekday, bin_label_week. Z.div_mod_to_equations. lia. Qed.

Lemma week_label_mono (d d' : Z) :
  (d ≤ d')%Z → (bin_label_week d ≤ bin_label_week d')%Z.
Proof. unfold bin_label_week. intros H. Z.div_mod_to_equations. lia. Qed.

Lemma week_label_step (d d' : Z) :
  bin_label_week d' = (bin_label_week d + 7 * ((bin_label_week d' - bin_label_week d) / 7))%Z.
Proof. unfold bin_label_week. Z.div_mod_to_equations. lia. Qed.

End CalendarDays.

(** ** The aggregator *)

Section Aggregator.
Import Preprocess.
Context (ext : externals).

Lemma lookup_fmap_seqZ {A} (f : Z → A) (a n : Z) (i : nat) (x : A) :
  (f <$> seqZ a n) !! i = Some x → x = f (a + Z.of_nat i)%Z ∧ (Z.of_nat i < n)%Z.
Proof.
  rewrite list_lookup_fmap. destruct (seqZ a n !! i) as [k|] eqn:E; [|done].
  apply lookup_seqZ in E as [-> ?]. by intros [= <-].
Qed.

Lemma head_fmap_seqZ {A} (f : Z → A) (a n : Z) :
  (1 ≤ n)%Z → head (f <$> seqZ a n) = Some (f a).
Proof. intros H. by rewrite seqZ_cons by lia. Qed.

Lemma last_fmap_seqZ {A} (f : Z → A) (a n : Z) :
  (1 ≤ n)%Z → last (f <$> seqZ a n) = Some (f (a + n - 1)%Z).
Proof.
  intros H. rewrite last_lookup, length_fmap, length_seqZ, list_lookup_fmap.
  rewrite (proj2 (lookup_seqZ a n _ (a + n - 1)%Z)); [done|]. lia.
Qed.

Lemma bin_label_mono (r : rule) (d d' : Z) :
  r = W_MON ∨ r = MS → (d ≤ d')%Z → (bin_label r d ≤ bin_label r d')%Z.
Proof.
  intros [-> | ->] H; unfold bin_label.
  - by apply week_label_mono.
  - by apply month_first_mono, month_index_mono.
Qed.

Lemma month_first_anchored (i : Z) : anchored MS (month_first i).
Proof.
  unfold month_first, anchored. eexists _, _. apply civil_from_days_first.
  pose proof (Z.mod_pos_bound i 12 ltac:(lia)). lia.
Qed.

Lemma bin_label_anchored (r : rule) (d : Z) :
  r = W_MON ∨ r = MS → anchored r (bin_label r d).
Proof.
  intros [-> | ->]; unfold bin_label.
  - apply week_label_monday.
  - apply month_first_anchored.
Qed.

Lemma bin_label_holds (r : rule) (d : Z) :
  r = W_MON ∨ r = MS → holds r (bin_label r d) d.
Proof.
  intros [-> | ->]; unfold bin_label, holds, next_period.
  - pose proof (week_label_bounds d). lia.
  - rewrite month_index_first. split; [apply month_first_le | apply month_first_gt].
Qed.

(** The labels between two days: an explicit run, from the bucket of the
    first to the bucket of the second. *)
Lemma bin_labels_run (r : rule) (lo hi : Z) :
  r = W_MON ∨ r = MS → (lo ≤ hi)%Z →
  ∃ n, (1 ≤ n)%Z
    ∧ (∀ i l, bin_labels r lo hi !! i = Some l →
         (Z.of_nat i < n)%Z ∧ l = Nat.iter i (next_period r) (bin_label r lo))
    ∧ head (bin_labels r lo hi) = Some (bin_label r lo)
    ∧ last (bin_labels r lo hi) = Some (bin_label r hi)
    ∧ (∀ d, (lo ≤ d ≤ hi)%Z → bin_label r d ∈ bin_labels r lo hi).
Proof.
  intros [-> | ->] H; unfold bin_labels, bin_label.
  - pose proof (week_label_mono lo hi H) as M.
    set (n := ((bin_label_week hi - bin_label_week lo) / 7 + 1)%Z).
    assert (1 ≤ n)%Z as Hn by (unfold n; Z.div_mod_to_equations; lia).
    exists n. split_and!; [done | | | |].
    + intros i l Hl. apply lookup_fmap_seqZ in Hl as [-> Hi]. split; [done|].
      clear Hi. induction i as [|i IH].
      { cbn [Nat.iter nat_rect]. change (Z.of_nat 0) with 0%Z. lia. }
      rewrite Nat.iter_succ, <- IH. unfold next_period. lia.
    + rewrite head_fmap_seqZ by done. by rewrite Z.mul_0_r, Z.add_0_r.
    + rewrite last_fmap_seqZ by done.
      rewrite (week_label_step lo hi) at 1.
      by replace (0 + n - 1)%Z with ((bin_label_week hi - bin_label_week lo) / 7)%Z
        by (unfold n; lia).
    + intros d [Hd1 Hd2].
      pose proof (week_label_mono lo d Hd1). pose proof (week_label_mono d hi Hd2).
      rewrite (week_label_step lo d).
      apply (list_elem_of_fmap_2 (λ k, bin_label_week lo + 7 * k)%Z).
      apply elem_of_seqZ. unfold n.
      pose proof (Z.div_le_mono (bin_label_week d - bin_label_week lo)
                    (bin_label_week hi - bin_label_week lo) 7 ltac:(lia) ltac:(lia)).
      pose proof (Z.div_pos (bin_label_week d - bin_label_week lo) 7
                    ltac:(lia) ltac:(lia)).
      lia.
  - pose proof (month_index_mono lo hi H) as M.
    set (n := (month_index hi - month_index lo + 1)%Z).
    assert (1 ≤ n)%Z as Hn by (unfold n; lia).
    exists n. split_and!; [done | | | |].
    + intros i l Hl. apply lookup_fmap_seqZ in Hl as [-> Hi]. split; [done|].
      clear Hi. induction i as [|i IH].
      { cbn [Nat.iter nat_rect]. change (Z.of_nat 0) with 0%Z. rewrite Z.add_0_r. reflexivity. }
      rewrite Nat.iter_succ, <- IH. unfold next_period.
      rewrite month_index_first.
      by replace (month_index lo + Z.of_nat (S i))%Z
        with (month_index lo + Z.of_nat i + 1)%Z by lia.
    + by rewrite head_fmap_seqZ by done.
    + rewrite last_fmap_seqZ by done.
      by replace (month_index lo + n - 1)%Z with (month_index hi) by (unfold n; lia).
    + intros d [Hd1 Hd2].
      apply (list_elem_of_fmap_2 month_first), elem_of_seqZ.
      pose proof (month_index_mono lo d Hd1). pose proof (month_index_mono d hi Hd2).
      unfold n. lia.
Qed.

Lemma next_period_grows (r : rule) (l : Z) :
  r = W_MON ∨ r = MS → (l < next_period r l)%Z.
Proof. intros [-> | ->]; unfold next_period; [lia | apply month_first_gt]. Qed.

Lemma next_period_anchored (r : rule) (l : Z) :
  r = W_MON ∨ r = MS → anchored r l → anchored r (next_period r l).
Proof.
  intros [-> | ->]; unfold anchored, next_period.
  - unfold weekday. intros H. Z.div_mod_to_equations. lia.
  - intros _. apply month_first_anchored.
Qed.

(** *** Sums *)

Lemma Qsum_cons (x : Q) (l : list Q) : Qsum (x :: l) = (x + Qsum l)%Q.
Proof. done. Qed.

Lemma Qsum_one_bin (g : Z → Q) (a : Z) (y : Q) (L : list Z) :
  NoDup L → a ∈ L →
  (Qsum ((λ l, if decide (a = l) then y + g l else g l)%Q <$> L) == y + Qsum (g <$> L))%Q.
Proof.
  induction L as [|l L IH]; intros Hnd Hin; [by apply elem_of_nil in Hin|].
  apply NoDup_cons in Hnd as [Hl Hnd]. rewrite !fmap_cons, !Qsum_cons. cbv beta.
  destruct (decide (a = l)) as [->|Hne].
  - assert ((λ l0, if decide (l = l0) then (y + g l0)%Q else g l0) <$> L = g <$> L) as ->.
    { apply list_fmap_ext. intros i x Hx. rewrite decide_False; [done|].
      intros ->. apply Hl. by eapply list_elem_of_lookup_2. }
    ring.
  - apply elem_of_cons in Hin as [?|Hin]; [done|].
    rewrite (IH Hnd Hin). ring.
Qed.

Lemma Qsum_bins (label : Z → Z) (L : list Z) (rows : series) :
  NoDup L → Forall (λ row, label row.1 ∈ L) rows →
  (Qsum ((λ l, Qsum (filter (λ row : Z * Q, label row.1 = l) rows).*2) <$> L)
   == Qsum rows.*2)%Q.
Proof.
  intros Hnd. induction rows as [|[d y] rows IH]; intros Hall.
  - clear Hnd Hall. induction L as [|l L IHL]; [done|].
    rewrite fmap_cons, Qsum_cons, filter_nil.
    change (Qsum ([] : series).*2) with 0%Q in *. rewrite IHL. ring.
  - apply Forall_cons in Hall as [Hd Hall]. cbn [fst] in Hd.
    rewrite fmap_cons, Qsum_cons. cbn [snd]. rewrite <- (IH Hall).
    rewrite <- (Qsum_one_bin _ (label d) y L Hnd Hd).
    assert (∀ l, Qsum (filter (λ row : Z * Q, label row.1 = l) ((d, y) :: rows)).*2
               = if decide (label d = l)
                 then (y + Qsum (filter (λ row : Z * Q, label row.1 = l) rows).*2)%Q
                 else Qsum (filter (λ row : Z * Q, label row.1 = l) rows).*2) as E.
    { intros l. rewrite filter_cons. cbn [fst]. by destruct (decide (label d = l)). }
    erewrite list_fmap_ext; [reflexivity|]. intros i l _. apply E.
Qed.

Lemma snd_labelled_sums (sum : Z → Q) (L : list Z) :
  ((λ l, (l, sum l)) <$> L).*2 = sum <$> L.
Proof. induction L as [|l L IH]; [done|]. rewrite !fmap_cons. by rewrite IH. Qed.

Lemma bin_labels_NoDup (r : rule) (lo hi : Z) :
  r = W_MON ∨ r = MS → NoDup (bin_labels r lo hi).
Proof.
  intros Hr. destruct (bin_labels_on_grid r lo hi Hr) as [-> | Hg]; [constructor|].
  by eapply on_grid_NoDup.
Qed.

(** Resampling moves every value to the bucket of its date and loses none:
    the buckets add up to what the rows add up to. *)
Lemma resample_sum_total (r : rule) (rows : series) :
  r = W_MON ∨ r = MS → (Qsum (resample_sum r rows).*2 == Qsum rows.*2)%Q.
Proof.
  intros Hr. unfold resample_sum. destruct rows as [|row rows]; [done|].
  set (all := row :: rows).
  rewrite snd_labelled_sums. apply Qsum_bins; [by apply bin_labels_NoDup|].
  apply Forall_forall. intros [d y] Hin. cbn [fst].
  assert (d ∈ all.*1) as Hd by (by apply (list_elem_of_fmap_2 fst) in Hin).
  destruct (bin_labels_run r (minimum all.*1) (maximum all.*1) Hr) as (n & _ & _ & _ & _ & H).
  - apply minimum_le, maximum_elem. done.
  - apply H. split; [by apply minimum_le | by apply maximum_ge].
Qed.

(** *** Sums of whole numbers *)

Lemma Qsum_whole (rz : list (Z * Z)) :
  (Qsum (prod_map id inject_Z <$> rz).*2 == inject_Z (Zsum rz.*2))%Q.
Proof.
  induction rz as [|[d v] rz IH]; [done|].
  rewrite !fmap_cons, Qsum_cons. cbn [snd prod_map]. rewrite IH.
  unfold Zsum. cbn [foldr]. by rewrite inject_Z_plus.
Qed.

Lemma Zsum_abs (l : list Z) : (Z.abs (Zsum l) ≤ Zsum (Z.abs <$> l))%Z.
Proof.
  induction l as [|z l IH]; [done|].
  rewrite fmap_cons. unfold Zsum in *. cbn [foldr]. lia.
Qed.

Lemma Zsum_abs_filter (P : Z * Z → Prop) `{∀ row, Decision (P row)}
    (rz : list (Z * Z)) :
  (0 ≤ Zsum (Z.abs <$> (filter P rz).*2) ≤ Zsum (Z.abs <$> rz.*2))%Z.
Proof.
  induction rz as [|[d v] rz IH]; [done|].
  rewrite filter_cons. destruct (decide (P (d, v)));
    rewrite !fmap_cons; unfold Zsum in *; cbn [foldr snd]; lia.
Qed.

Lemma filter_whole (label : Z → Z) (l : Z) (rz : list (Z * Z)) :
  filter (λ row : Z * Q, label row.1 = l) (prod_map id inject_Z <$> rz)
  = prod_map id inject_Z <$> filter (λ row : Z * Z, label row.1 = l) rz.
Proof.
  induction rz as [|[d v] rz IH]; [done|].
  rewrite fmap_cons, !filter_cons. cbn [fst prod_map id].
  destruct (decide (label d = l)); [by rewrite fmap_cons, IH | done].
Qed.

Lemma zip_whole (ds zs : list Z) :
  zip ds (inject_Z <$> zs) = prod_map id inject_Z <$> zip ds zs.
Proof.
  revert zs. induction ds as [|d ds IH]; intros [|z zs]; [done..|].
  cbn. by rewrite IH.
Qed.

(** Every bucket of whole values holds a whole sum, no larger than the
    values taken together. *)
Lemma resample_sum_whole (r : rule) (ds zs : list Z) (bound : Z) :
  length ds = length zs → (Zsum (Z.abs <$> zs) ≤ bound)%Z →
  Forall (λ q, ∃ z, (q == inject_Z z)%Q ∧ (Z.abs z ≤ bound)%Z)
         (resample_sum r (zip ds (inject_Z <$> zs))).*2.
Proof.
  intros Hlen Hb. rewrite zip_whole. unfold resample_sum.
  destruct (prod_map id inject_Z <$> zip ds zs) as [|row rows] eqn:E; [constructor|].
  rewrite <- E. clear row rows E.
  rewrite snd_labelled_sums. apply Forall_fmap, Forall_forall. intros l _.
  unfold compose. rewrite filter_whole.
  eexists. split; [apply Qsum_whole|].
  etrans; [apply Zsum_abs|].
  etrans; [apply Zsum_abs_filter|]. by rewrite snd_zip by lia.
Qed.

Lemma as_stamps_stamps (ds : list Z) : as_stamps (Stamp <$> ds) = Some (Some <$> ds).
Proof.
  unfold as_stamps. apply mapM_Some_2.
  induction ds as [|d ds IH]; [constructor|]. rewrite !fmap_cons. by constructor.
Qed.

(** The aggregator on a frame with one column of timestamps and one of
    numbers. *)
Lemma aggregate_time_series_stamps (df : DataFrame) (level kd ky : string)
    (ds : list Z) (cells : list cell) (ys : list Q) :
  labelled "ds" df = [(kd, Stamp <$> ds)] →
  labelled "y" df = [(ky, cells)] → mapM number cells = Some ys →
  aggregate_time_series ext df level W_MON MS
  = if String.eqb level "weekly" then Ok (resample_sum W_MON (zip ds ys))
    else if String.eqb level "monthly" then Ok (resample_sum MS (zip ds ys))
    else Raise InvalidAggregationLevel.
Proof.
  intros Hds Hy Hn. unfold aggregate_time_series. rewrite Hds, Hy, Hn.
  assert (pd_to_datetime ext (Stamp <$> ds) = Ok (Some <$> ds)) as ->.
  { unfold pd_to_datetime. by rewrite as_stamps_stamps. }
  assert (mapM id (Some <$> ds) = Some ds) as Hm by (by rewrite mapM_fmap_Some).
  destruct (String.eqb level "weekly"); cbn.
  - by rewrite Hm.
  - destruct (String.eqb level "monthly"); cbn; [by rewrite Hm | done].
Qed.

End Aggregator.

Section Buckets.
Import Preprocess.
Context (ext : externals).

Lemma iter_anchored (r : rule) (l : Z) (i : nat) :
  r = W_MON ∨ r = MS → anchored r l → anchored r (Nat.iter i (next_period r) l).
Proof.
  intros Hr Hl. induction i as [|i IH]; [done|].
  rewrite Nat.iter_succ. by apply next_period_anchored.
Qed.

(** On a frame with one column [ds] of timestamps and one column [y] of
    numbers, the buckets the aggregator returns run from the bucket of the
    earliest date to the bucket of the latest; each is on the anchor of the
    rule, a Monday or the first of a month; each comes one period after the
    one before, so that none is missing and none repeated; and every date of
    the input falls in one of them, the week that ends on its Monday or the
    month that starts on its first. *)
Theorem buckets_cover_the_dates (df : DataFrame) (level kd ky : string)
    (ds : list Z) (cells : list cell) (ys : list Q) (s : series) :
  labelled "ds" df = [(kd, Stamp <$> ds)] →
  labelled "y" df = [(ky, cells)] → mapM number cells = Some ys →
  length ds = length ys → ds ≠ [] →
  aggregate_time_series ext df level W_MON MS = Ok s →
  let r := if String.eqb level "weekly" then W_MON else MS in
  head s.*1 = Some (bin_label r (minimum ds))
  ∧ last s.*1 = Some (bin_label r (maximum ds))
  ∧ Forall (anchored r) s.*1
  ∧ (∀ i l l', s.*1 !! i = Some l → s.*1 !! S i = Some l' →
       l' = next_period r l ∧ (l < l')%Z)
  ∧ (∀ d, d ∈ ds → ∃ l, l ∈ s.*1 ∧ holds r l d).
Proof.
  intros Hds Hy Hn Hlen Hne Hs r.
  rewrite (aggregate_time_series_stamps ext df level kd ky ds cells ys Hds Hy Hn) in Hs.
  assert (r = W_MON ∨ r = MS) as Hr by (unfold r; destruct (String.eqb _ _); auto).
  assert (s = resample_sum r (zip ds ys)) as ->.
  { unfold r. destruct (String.eqb level "weekly"); [congruence|].
    destruct (String.eqb level "monthly"); [congruence | done]. }
  clear Hs. clearbody r.
  assert ((resample_sum r (zip ds ys)).*1 = bin_labels r (minimum ds) (maximum ds)) as ->.
  { unfold resample_sum. destruct (zip ds ys) as [|row rows] eqn:E.
    - destruct ds; [done|]. destruct ys; [simpl in Hlen; lia | done].
    - rewrite fst_labelled_sums, <- E, fst_zip by lia. done. }
  destruct (bin_labels_run r (minimum ds) (maximum ds) Hr)
    as (n & Hn1 & Hrun & Hhead & Hlast & Hin).
  { by apply minimum_le, maximum_elem. }
  split_and!; [done | done | | |].
  - apply Forall_lookup. intros i l Hl. apply Hrun in Hl as [_ ->].
    by apply iter_anchored, bin_label_anchored.
  - intros i l l' Hl Hl'. apply Hrun in Hl as [_ ->]. apply Hrun in Hl' as [_ ->].
    rewrite Nat.iter_succ. split; [done | by apply next_period_grows].
  - intros d Hd. exists (bin_label r d). split; [|by apply bin_label_holds].
    apply Hin. split; [by apply minimum_le | by apply maximum_ge].
Qed.

(** On such a frame of whole values that, taken without their signs, add up
    to [2 ^ 53] at most, so that no sum of theirs leaves the integers a
    column of pandas holds exactly, the aggregator returns at the two
    levels; every bucket it returns holds a whole sum within that bound;
    and the buckets add up to what the column [y] adds up to: summing by
    bucket loses no value and counts none twice. *)
Theorem aggregation_keeps_the_total (df : DataFrame) (level kd ky : string)
    (ds : list Z) (cells : list cell) (zs : list Z) :
  labelled "ds" df = [(kd, Stamp <$> ds)] →
  labelled "y" df = [(ky, cells)] → mapM number cells = Some (inject_Z <$> zs) →
  length ds = length zs →
  (Zsum (Z.abs <$> zs) ≤ 2 ^ 53)%Z →
  (level = "weekly"%string ∨ level = "monthly"%string →
     ∃ s, aggregate_time_series ext df level W_MON MS = Ok s)
  ∧ (∀ s, aggregate_time_series ext df level W_MON MS = Ok s →
       Forall (λ q, ∃ z, (q == inject_Z z)%Q ∧ (Z.abs z ≤ 2 ^ 53)%Z) s.*2
       ∧ (Qsum s.*2 == inject_Z (Zsum zs))%Q).
Proof.
  intros Hds Hy Hn Hlen Hb.
  rewrite (aggregate_time_series_stamps ext df level kd ky ds cells _ Hds Hy Hn).
  split.
  - intros [-> | ->]; by eexists.
  - intros s Hs.
    assert (∃ r, (r = W_MON ∨ r = MS)
                 ∧ s = resample_sum r (zip ds (inject_Z <$> zs)))
      as (r & Hr & ->).
    { destruct (String.eqb level "weekly"); [exists W_MON; split; [auto | congruence]|].
      destruct (String.eqb level "monthly"); [|done].
      exists MS; split; [auto | congruence]. }
    split; [by apply resample_sum_whole|].
    rewrite resample_sum_total by done.
    rewrite zip_whole, Qsum_whole. by rewrite snd_zip by lia.
Qed.

End Buckets.

Section AggregatorExamples.
Import Preprocess Reference Samples.

Lemma buckets_cover_the_dates_witness :
  ∃ s, aggregate_time_series reference_externals normalized_days "weekly" W_MON MS = Ok s
    ∧ s.*1 = [19723; 19730; 19737; 19744]%Z
    ∧ head s.*1 = Some (bin_label W_MON 19722)
    ∧ last s.*1 = Some (bin_label W_MON 19744)
    ∧ Forall (anchored W_MON) s.*1
    ∧ (∀ i l l', s.*1 !! i = Some l → s.*1 !! S i = Some l' →
         l' = next_period W_MON l ∧ (l < l')%Z)
    ∧ (∀ d, d ∈ [19722; 19723; 19724; 19744]%Z → ∃ l, l ∈ s.*1 ∧ holds W_MON l d).
Proof.
  eexists. split; [vm_compute; reflexivity|]. split; [reflexivity|].
  refine (buckets_cover_the_dates reference_externals normalized_days "weekly"
           "ds" "y" [19722; 19723; 19724; 19744]%Z (Num <$> [5; 6; 7; 9]%Q)
           [5; 6; 7; 9]%Q _ eq_refl eq_refl eq_refl eq_refl _ _);
    [discriminate | vm_compute; reflexivity].
Defined.

Lemma aggregation_keeps_the_total_witness :
  (Zsum (Z.abs <$> [5; 6; 7; 9]%Z) ≤ 2 ^ 53)%Z
  ∧ ∃ s, aggregate_time_series reference_externals normalized_days "monthly" W_MON MS
         = Ok s
    ∧ s = [(19692%Z, 5%Q); (19723%Z, (6 + (7 + (9 + 0)))%Q)]
    ∧ (Qsum s.*2 == inject_Z (Zsum [5; 6; 7; 9]%Z))%Q.
Proof.
  assert (Zsum (Z.abs <$> [5; 6; 7; 9]%Z) ≤ 2 ^ 53)%Z as Hb by (vm_compute; discriminate).
  split; [exact Hb|].
  destruct (aggregation_keeps_the_total reference_externals normalized_days "monthly"
              "ds" "y" [19722; 19723; 19724; 19744]%Z (Num <$> [5; 6; 7; 9]%Q)
              [5; 6; 7; 9]%Z eq_refl eq_refl eq_refl eq_refl Hb) as [_ H].
  eexists. split; [vm_compute; reflexivity|]. split; [reflexivity|].
  apply H. vm_compute. reflexivity.
Defined.

End AggregatorExamples.

(** ** Sorting by date *)

Section Sorting.
Import Preprocess.

Lemma insert_by_Permutation (x : Z * nat) (l : list (Z * nat)) :
  insert_by x l ≡ₚ x :: l.
Proof.
  induction l as [|y l IH]; [done|]. simpl.
  destruct (x.1 <=? y.1)%Z; [done|]. by rewrite IH, Permutation_swap.
Qed.

Lemma insert_by_sorted (x : Z * nat) (l : list (Z * nat)) :
  StronglySorted (λ a b, a.1 ≤ b.1)%Z l →
  StronglySorted (λ a b, a.1 ≤ b.1)%Z (insert_by x l).
Proof.
  induction 1 as [|y l Hl IH Hy]; simpl.
  - repeat constructor.
  - destruct (x.1 <=? y.1)%Z eqn:E.
    + apply Z.leb_le in E. constructor; [by constructor|].
      constructor; [done|]. eapply Forall_impl; [exact Hy|]. intros z Hz. simpl in Hz. lia.
    + apply Z.leb_gt in E. constructor; [done|].
      rewrite insert_by_Permutation. constructor; [lia | done].
Qed.

Lemma sort_keys_Permutation (keys : list Z) :
  sort_keys keys ≡ₚ zip keys (seq 0 (length keys)).
Proof.
  unfold sort_keys. induction (zip keys (seq 0 (length keys))) as [|x l IH]; [done|].
  simpl. by rewrite insert_by_Permutation, IH.
Qed.

Lemma sort_keys_sorted (keys : list Z) :
  StronglySorted (λ a b, a.1 ≤ b.1)%Z (sort_keys keys).
Proof.
  unfold sort_keys. induction (zip keys (seq 0 (length keys))) as [|x l IH].
  - constructor.
  - simpl. by apply insert_by_sorted.
Qed.

(** The sorted keys are the keys, in ascending order. *)
Lemma sort_keys_fst (keys : list Z) :
  (sort_keys keys).*1 ≡ₚ keys ∧ StronglySorted Z.le (sort_keys keys).*1.
Proof.
  split.
  - rewrite sort_keys_Permutation, fst_zip; [done|]. by rewrite length_seq.
  - pose proof (sort_keys_sorted keys) as H.
    induction H as [|y l Hl IH Hy]; [constructor|].
    rewrite fmap_cons. constructor; [done|]. by apply Forall_fmap.
Qed.

(** [argsort] is a rearrangement of the row numbers, each paired with the
    key of its row. *)
Lemma argsort_Permutation (keys : list Z) : argsort keys ≡ₚ seq 0 (length keys).
Proof.
  unfold argsort. rewrite sort_keys_Permutation, snd_zip; [done|]. by rewrite length_seq.
Qed.

Lemma length_argsort (keys : list Z) : length (argsort keys) = length keys.
Proof. by rewrite argsort_Permutation, length_seq. Qed.

Lemma sort_keys_lookup (keys : list Z) (k : Z) (i : nat) :
  (k, i) ∈ sort_keys keys → keys !! i = Some k.
Proof.
  rewrite sort_keys_Permutation. intros H.
  apply list_elem_of_lookup in H as [j Hj].
  apply lookup_zip_with_Some in Hj as (k' & i' & [= <- <-] & Hk & Hi).
  apply lookup_seq in Hi as [-> _]. done.
Qed.

(** Reading a column in the order of [argsort] gives the keys in ascending
    order. *)
Lemma argsort_keys {A} (f : A → Z) (d : A) (col : list A) :
  f <$> ((λ i, default d (col !! i)) <$> argsort (f <$> col))
  = (sort_keys (f <$> col)).*1.
Proof.
  unfold argsort. rewrite <- !list_fmap_compose.
  apply list_fmap_ext. intros j [k i] Hj. cbn.
  apply list_elem_of_lookup_2, sort_keys_lookup in Hj.
  rewrite list_lookup_fmap in Hj.
  destruct (col !! i) as [a|]; [|done]. cbn in *. congruence.
Qed.

End Sorting.

(** ** The normaliser *)

Section Normalizer.
Import Preprocess.
Context (ext : externals).

Lemma elem_of_take_rows (rows : list nat) (df : DataFrame) (c : column) :
  c ∈ take_rows rows df →
  ∃ c', c' ∈ df ∧ c = (c'.1, (λ i, default NaN (c'.2 !! i)) <$> rows).
Proof.
  unfold take_rows. intros (c' & -> & Hc')%list_elem_of_fmap. by exists c'.
Qed.

Lemma elem_of_labelled (l : string) (df : DataFrame) (c : column) :
  c ∈ labelled l df ↔ c.1 = l ∧ c ∈ df.
Proof. unfold labelled. by rewrite list_elem_of_filter. Qed.

Lemma columns_take_rows (rows : list nat) (df : DataFrame) :
  columns (take_rows rows df) = columns df.
Proof.
  unfold columns, take_rows. rewrite <- list_fmap_compose.
  by apply list_fmap_ext.
Qed.

Lemma columns_select (labels : list string) (df : DataFrame) (l : string) :
  l ∈ labels → l ∈ columns df → l ∈ columns (select labels df).
Proof.
  unfold columns, select. intros Hl (c & -> & Hc)%list_elem_of_fmap.
  apply list_elem_of_fmap. exists c. split; [done|].
  apply list_elem_of_bind. exists c.1. split; [|done]. by apply elem_of_labelled.
Qed.

Lemma elem_of_select (labels : list string) (df : DataFrame) (c : column) :
  c ∈ select labels df → c ∈ df ∧ c.1 ∈ labels.
Proof.
  unfold select. intros (l & Hc & Hl)%list_elem_of_bind.
  apply elem_of_labelled in Hc as [<- Hc]. done.
Qed.

Lemma labelled_set_column (l l' : string) (vs : list cell) (df : DataFrame) :
  labelled l (set_column l' vs df)
  = if decide (l = l') then (λ _, (l', vs)) <$> labelled l df else labelled l df.
Proof.
  induction df as [|[k old] df IH]; [by case_decide|].
  unfold set_column in *. rewrite fmap_cons. cbn [fst].
  destruct (String.eqb k l') eqn:E.
  - apply String.eqb_eq in E. subst k. rewrite !labelled_cons. cbn [fst].
    rewrite IH. destruct (decide (l = l')) as [->|Hne].
    + rewrite !decide_True by done. by rewrite fmap_cons.
    + rewrite !decide_False by congruence. done.
  - apply String.eqb_neq in E. rewrite !labelled_cons. cbn [fst].
    rewrite IH. destruct (decide (l = l')) as [->|Hne].
    + rewrite !decide_False by done. done.
    + by destruct (decide (k = l)).
Qed.

Lemma elem_of_set_column (l : string) (vs : list cell) (df : DataFrame) (c : column) :
  c ∈ set_column l vs df → c = (l, vs) ∨ (c ∈ df ∧ c.1 ≠ l).
Proof.
  unfold set_column. intros ([k old] & -> & Hc)%list_elem_of_fmap. cbn [fst].
  destruct (String.eqb k l) eqn:E; [by left|].
  apply String.eqb_neq in E. by right.
Qed.

(** What [dropna] keeps: whole rows, each with a value in every column of
    the subset. *)
Lemma dropna_Ok (subset : list string) (df out : DataFrame) :
  dropna subset df = Ok out →
  ∃ rows,
    out = take_rows rows df
    ∧ Forall (λ l, l ∈ columns df) subset
    ∧ ∀ c i, c ∈ df → c.1 ∈ subset → i ∈ rows →
        ∃ v, c.2 !! i = Some v ∧ is_null v = false.
Proof.
  unfold dropna. destruct (forallb _ subset) eqn:E; [|done]. intros [= <-].
  eexists. split; [done|]. split.
  - apply Forall_forall. intros l Hl.
    rewrite forallb_forall in E. apply list_elem_of_In, E in Hl.
    by apply bool_decide_eq_true in Hl.
  - intros c i Hc Hs Hi. apply list_elem_of_filter in Hi as [Hi _].
    unfold complete_row in Hi. rewrite forallb_forall in Hi.
    specialize (Hi c). rewrite <- list_elem_of_In, list_elem_of_filter in Hi.
    specialize (Hi (conj Hs Hc)). apply negb_true_iff in Hi.
    destruct (c.2 !! i) as [v|]; [by exists v | done].
Qed.

Lemma lookup_argsort (keys : list Z) (i : nat) :
  i ∈ argsort keys → (i < length keys)%nat.
Proof. rewrite argsort_Permutation, elem_of_seq. lia. Qed.

(** A column with a value in every row, read at rows that exist, has a value
    in every row read. *)
Lemma taken_values (P : cell → Prop) (vs : list cell) (rows : list nat) :
  (∀ i, i ∈ rows → ∃ v, vs !! i = Some v ∧ P v) →
  Forall P ((λ i, default NaN (vs !! i)) <$> rows).
Proof.
  intros H. apply Forall_fmap, Forall_forall. intros i Hi.
  destruct (H i Hi) as (v & Hv & HP). cbn. by rewrite Hv.
Qed.

Lemma Forall_lookup_lt (P : cell → Prop) (vs : list cell) (i : nat) :
  Forall P vs → (i < length vs)%nat → ∃ v, vs !! i = Some v ∧ P v.
Proof.
  intros H Hi. destruct (lookup_lt_is_Some_2 vs i Hi) as [v Hv].
  exists v. split; [done|]. by eapply Forall_lookup_1.
Qed.

Lemma stamps_of_column (vs : list cell) :
  Forall (λ v, is_null v = false ∧ ∃ o, v = stamp_cell o) vs →
  vs = Stamp <$> (stamp_of <$> vs).
Proof.
  induction 1 as [|v vs [Hn [o ->]] _ IH]; [done|].
  rewrite !fmap_cons, <- IH. by destruct o.
Qed.

(** A frame that comes out of the normaliser has exactly one column [ds],
    of timestamps in ascending order, and a column [y]; no value is missing
    from either, and every column is as long as [ds]. *)
Theorem normalized_frames_are_sorted (df out : DataFrame) (mapping : detected)
    (feature_columns : list string) :
  normalize_schema ext df mapping feature_columns = Ok out →
  ∃ ds,
    labelled "ds" out = [("ds"%string, Stamp <$> ds)]
    ∧ StronglySorted Z.le ds
    ∧ ("y"%string ∈ columns out)
    ∧ (∀ c, c ∈ out → length c.2 = length ds)
    ∧ (∀ c, c ∈ out → c.1 = "y"%string → Forall (λ v, is_null v = false) c.2).
Proof.
  unfold normalize_schema.
  destruct (labelled "ds" (rename mapping df)) as [|[k vs] [|? ?]] eqn:Eds; try done.
  change (Ok ?a ≫= ?f) with (f a). cbv beta.
  set (stamps := stamp_cell <$> pd_to_datetime_coerce ext vs).
  set (out1 := set_column "ds" stamps (rename mapping df)).
  destruct (dropna ["ds"; "y"]%string out1) as [out2|e] eqn:Edrop; [|done].
  change (Ok ?a ≫= ?f) with (f a). cbv beta zeta.
  set (kept := filter (λ c, c ∈ columns out2) feature_columns).
  destruct (dropna_Ok _ _ _ Edrop) as (rows & -> & Hsub & Hrows).
  set (out2 := take_rows rows out1) in *.
  set (sel := select ("ds" :: "y" :: kept)%string out2).
  assert (labelled "ds" out1 = [("ds"%string, stamps)]) as Hds1.
  { unfold out1. by rewrite labelled_set_column, decide_True, Eds by done. }
  set (dsc := (λ i, default NaN (stamps !! i)) <$> rows).
  assert (labelled "ds" out2 = [("ds"%string, dsc)]) as Hds2.
  { unfold out2. by rewrite labelled_take_rows, Hds1. }
  assert (("ds"%string, stamps) ∈ out1) as Hin1.
  { apply (elem_of_labelled "ds"). rewrite Hds1. apply list_elem_of_here. }
  assert (Forall (λ v, is_null v = false ∧ ∃ o, v = stamp_cell o) dsc) as Hdsc.
  { apply taken_values. intros i Hi.
    destruct (Hrows _ i Hin1 (list_elem_of_here _ _) Hi) as (v & Hv & Hn).
    cbn [snd] in Hv. exists v. split_and!; [done | done |].
    unfold stamps in Hv. rewrite list_lookup_fmap in Hv.
    destruct (_ !! i) as [o|]; [|done]. injection Hv as <-. by exists o. }
  assert (∀ c, c ∈ sel → length c.2 = length rows) as Hlen.
  { intros c [Hc _]%elem_of_select.
    apply elem_of_take_rows in Hc as (c' & _ & ->). cbn. by rewrite length_fmap. }
  assert (∀ c, c ∈ sel → c.1 = "y"%string → Forall (λ v, is_null v = false) c.2) as Hy.
  { intros c [Hc _]%elem_of_select Hcy.
    apply elem_of_take_rows in Hc as (c' & Hc' & ->). cbn in *.
    apply taken_values. intros i Hi. apply (Hrows c' i Hc'); [|done].
    rewrite Hcy. apply list_elem_of_further, list_elem_of_here. }
  unfold sort_values_ds.
  assert (labelled "ds" sel = ("ds"%string, dsc) :: labelled "ds" (select kept out2))
    as Hsel.
  { unfold sel, select. rewrite !bind_cons, !labelled_app, !labelled_labelled.
    rewrite decide_True, decide_False by done. by rewrite Hds2. }
  rewrite Hsel. destruct (labelled "ds" (select kept out2)) eqn:Ek; [|done].
  intros [= <-].
  set (keys := stamp_of <$> dsc).
  exists (sort_keys keys).*1.
  assert (length dsc = length rows) as Ldsc by (unfold dsc; by rewrite length_fmap).
  assert (length (argsort keys) = length rows) as Larg.
  { rewrite length_argsort. unfold keys. by rewrite length_fmap. }
  split_and!.
  - rewrite labelled_take_rows, Hsel. unfold take_rows. rewrite fmap_cons, fmap_nil.
    cbn [fst snd]. do 2 f_equal.
    unfold keys. rewrite <- (argsort_keys stamp_of NaN dsc). fold keys.
    apply stamps_of_column, taken_values. intros i Hi.
    apply lookup_argsort in Hi. unfold keys in Hi. rewrite length_fmap in Hi.
    by apply Forall_lookup_lt.
  - apply sort_keys_fst.
  - rewrite columns_take_rows. apply columns_select; [apply list_elem_of_further, list_elem_of_here|].
    unfold out2. rewrite columns_take_rows.
    by apply Forall_cons in Hsub as [_ [Hy1 _]%Forall_cons].
  - intros c (c' & Hc' & ->)%elem_of_take_rows. cbn.
    unfold argsort. by rewrite !length_fmap.
  - intros c (c' & Hc' & ->)%elem_of_take_rows Hcy. cbn in *.
    apply taken_values. intros i Hi. apply Forall_lookup_lt; [by apply Hy|].
    apply lookup_argsort in Hi. unfold keys in Hi. rewrite length_fmap in Hi.
    rewrite Hlen by done. lia.
Qed.

End Normalizer.

Section NormalizerExamples.
Import Preprocess Reference Samples.

Lemma normalized_frames_are_sorted_witness :
  normalize_schema reference_externals (from_records unsorted_rows)
    (Detected "date" "sales") []
  = Ok [("ds", [Stamp 19723; Stamp 19744]); ("y", [Num 6; Num 7])]%string
  ∧ ∃ ds,
      labelled "ds" [("ds", [Stamp 19723; Stamp 19744]); ("y", [Num 6; Num 7])]%string
      = [("ds"%string, Stamp <$> ds)]
      ∧ StronglySorted Z.le ds
      ∧ ("y"%string ∈ columns [("ds", [Stamp 19723; Stamp 19744]); ("y", [Num 6; Num 7])]%string)
      ∧ (∀ c, c ∈ [("ds", [Stamp 19723; Stamp 19744]); ("y", [Num 6; Num 7])]%string →
           length c.2 = length ds)
      ∧ (∀ c, c ∈ [("ds", [Stamp 19723; Stamp 19744]); ("y", [Num 6; Num 7])]%string →
           c.1 = "y"%string → Forall (λ v, is_null v = false) c.2).
Proof.
  assert (normalize_schema reference_externals (from_records unsorted_rows)
            (Detected "date" "sales") []
          = Ok [("ds", [Stamp 19723; Stamp 19744]); ("y", [Num 6; Num 7])]%string) as H
    by (vm_compute; reflexivity).
  split; [exact H|].
  exact (normalized_frames_are_sorted reference_externals _ _ _ _ H).
Defined.

End NormalizerExamples.

(** ** The order of the predictions *)

Section ForecastRows.
Import Preprocess Predictor.

Lemma omap_lookup_seq {A} (l : list A) : omap (λ i, l !! i) (seq 0 (length l)) = l.
Proof.
  induction l as [|x l IH]; [done|].
  cbn [length seq omap list_omap]. cbn. f_equal.
  rewrite <- fmap_S_seq. rewrite <- IH at 2.
  clear IH. induction (seq 0 (length l)) as [|i s IHs]; [done|].
  rewrite fmap_cons. cbn. by rewrite IHs.
Qed.

Lemma omap_lookup_pairs {A} (f : A → Z) (l : list A) (ps : list (Z * nat)) :
  Forall (λ p, (f <$> l) !! p.2 = Some p.1) ps →
  f <$> omap (λ i, l !! i) ps.*2 = ps.*1.
Proof.
  induction 1 as [|[k i] ps Hp _ IH]; [done|].
  rewrite !fmap_cons. cbn in *. rewrite list_lookup_fmap in Hp.
  destruct (l !! i) as [a|]; [|done]. cbn in *. injection Hp as <-.
  by rewrite IH.
Qed.

(** Sorting forecast rows rearranges them, none lost and none repeated, into
    ascending order of date. *)
Lemma sort_rows_sorted (l : list forecast_row) :
  sort_rows l ≡ₚ l ∧ StronglySorted Z.le (f_ds <$> sort_rows l).
Proof.
  unfold sort_rows. split.
  - rewrite argsort_Permutation, length_fmap. by rewrite omap_lookup_seq.
  - unfold argsort. rewrite omap_lookup_pairs; [apply sort_keys_fst|].
    apply Forall_forall. intros [k i] Hp. by apply sort_keys_lookup.
Qed.

End ForecastRows.

Section Predictions.
Import Preprocess Pipeline.
Context (ext : externals) (self : PredictionPipeline).

(** The predictions of a returned payload are the rows of the engine, each
    once, in ascending order of date whatever order the engine gave them
    in: as many predictions as rows, and the dates read in that order. *)
Theorem predictions_in_date_order (records : list (list (string * cell))) t result :
  run ext self records = (t, Ok result) →
  ∃ clean out rows,
    df_clean ext self records = Ok clean
    ∧ prophet ext clean (Predictor._freq_rule (forecaster_of self))
        (prediction_period self) = Ok out
    ∧ rows ≡ₚ out
    ∧ StronglySorted Z.le (f_ds <$> rows)
    ∧ field "date" <$> predictions result
      = (λ row, Some (JStr (isoformat (f_ds row)))) <$> rows
    ∧ length (predictions result) = length out.
Proof.
  intros Hrun.
  destruct (run_Ok _ _ _ _ _ Hrun) as (clean & out & m & Hclean & _ & Hout & ->).
  exists clean, out, (Predictor.sort_rows (Predictor.sort_rows out)).
  destruct (sort_rows_sorted out) as [P1 _].
  destruct (sort_rows_sorted (Predictor.sort_rows out)) as [P2 S2].
  split_and!; [done | done | by rewrite P2 | done | |].
  - unfold predictions. cbn. rewrite <- list_fmap_compose.
    apply list_fmap_ext. intros i row _. cbn. unfold item.
    by destruct (non_negative self).
  - unfold predictions. cbn. by rewrite length_fmap, P2, P1.
Qed.

End Predictions.

Section PredictionsExamples.
Import Preprocess Pipeline Reference Samples.

Lemma predictions_in_date_order_witness :
  run reference_externals (weekly [] false 3) two_rows = (plain_trace, Ok plain_result)
  ∧ ∃ clean out rows,
      df_clean reference_externals (weekly [] false 3) two_rows = Ok clean
      ∧ prophet reference_externals clean
          (Predictor._freq_rule (forecaster_of (weekly [] false 3)))
          (prediction_period (weekly [] false 3)) = Ok out
      ∧ rows ≡ₚ out
      ∧ StronglySorted Z.le (f_ds <$> rows)
      ∧ field "date" <$> predictions plain_result
        = (λ row, Some (JStr (isoformat (f_ds row)))) <$> rows
      ∧ length (predictions plain_result) = length out.
Proof.
  split; [exact plain_run|].
  exact (predictions_in_date_order reference_externals (weekly [] false 3)
           two_rows plain_trace plain_result plain_run).
Defined.

End PredictionsExamples.

(** ** Quartiles and fences *)

Section Quantiles.
Import Preprocess.

Lemma insertQ_Permutation (x : Q) (l : list Q) : insertQ x l ≡ₚ x :: l.
Proof.
  induction l as [|y l IH]; [done|]. simpl.
  destruct (Qle_bool x y); [done|]. by rewrite IH, Permutation_swap.
Qed.

Lemma insertQ_sorted (x : Q) (l : list Q) :
  StronglySorted Qle l → StronglySorted Qle (insertQ x l).
Proof.
  induction 1 as [|y l Hl IH Hy]; simpl.
  - repeat constructor.
  - destruct (Qle_bool x y) eqn:E.
    + apply Qle_bool_iff in E. constructor; [by constructor|].
      constructor; [done|]. eapply Forall_impl; [exact Hy|].
      intros z Hz. by apply Qle_trans with y.
    + assert (y <= x)%Q as Hyx.
      { apply Qlt_le_weak, Qnot_le_lt. intros H. apply Qle_bool_iff in H. congruence. }
      constructor; [done|]. rewrite insertQ_Permutation. by constructor.
Qed.

Lemma sortQ_sorted (l : list Q) : sortQ l ≡ₚ l ∧ StronglySorted Qle (sortQ l).
Proof.
  unfold sortQ. induction l as [|x l [IH1 IH2]]; [split; [done | constructor]|].
  simpl. split; [by rewrite insertQ_Permutation, IH1 | by apply insertQ_sorted].
Qed.

Lemma sorted_nth (s : list Q) (i j : nat) (d : Q) :
  StronglySorted Qle s → (i ≤ j < length s)%nat → (nth i s d <= nth j s d)%Q.
Proof.
  intros H. revert i j. induction H as [|x s Hs IH Hx]; intros i j Hij.
  - simpl in Hij. lia.
  - destruct i as [|i], j as [|j]; simpl in *.
    + apply Qle_refl.
    + rewrite Forall_forall in Hx. apply Hx.
      apply list_elem_of_In, nth_In. lia.
    + lia.
    + apply IH. lia.
Qed.

(** Linear interpolation in a sorted column grows with the position. *)
Lemma interpolation_mono (s : list Q) (p p' : Q) :
  StronglySorted Qle s →
  (0 <= p)%Q → (p <= p')%Q → (p' <= inject_Z (Z.of_nat (length s)) - 1)%Q →
  let v := λ p : Q,
    let lo := Qfloor p in
    let a := nth (Z.to_nat lo) s 0%Q in
    let b := nth (Z.to_nat (lo + 1)) s a in
    (a + (b - a) * (p - inject_Z lo))%Q in
  (v p <= v p')%Q.
Proof.
  intros Hs H0 Hp Hn v.
  assert (∀ q : Q, (0 <= q)%Q → (q <= inject_Z (Z.of_nat (length s)) - 1)%Q →
            let lo := Qfloor q in
            let a := nth (Z.to_nat lo) s 0%Q in
            let b := nth (Z.to_nat (lo + 1)) s a in
            (0 ≤ lo ≤ Z.of_nat (length s) - 1)%Z
            ∧ (a <= v q)%Q ∧ (v q <= b)%Q
            ∧ (0 <= q - inject_Z lo)%Q ∧ (a <= b)%Q) as B.
  { intros q Hq0 Hqn lo a b.
    assert (0 ≤ lo)%Z as Hlo0 by (change 0%Z with (Qfloor 0); by apply Qfloor_resp_le).
    assert (lo ≤ Z.of_nat (length s) - 1)%Z as Hlon.
    { pose proof (Qfloor_le q) as F. fold lo in F.
      assert (inject_Z lo <= inject_Z (Z.of_nat (length s) - 1))%Q as L.
      { unfold Z.sub. rewrite inject_Z_plus. change (inject_Z (- (1))) with (- (1))%Q.
        eapply Qle_trans; [exact F|]. exact Hqn. }
      by rewrite <- Zle_Qle in L. }
    pose proof (Qfloor_le q) as F1. pose proof (Qlt_floor q) as F2. fold lo in F1, F2.
    assert (a <= b)%Q as Hab.
    { unfold b. destruct (decide (Z.to_nat (lo + 1) < length s)%nat) as [Hin|Hout].
      - unfold a. rewrite (nth_indep s a 0%Q) by done.
        apply sorted_nth; [done|]. lia.
      - rewrite nth_overflow by lia. apply Qle_refl. }
    assert (q - inject_Z lo < 1)%Q as Hf1.
    { rewrite inject_Z_plus in F2. change (inject_Z 1) with 1%Q in F2. lra. }
    split_and!; [done | done | | | lra | done]; unfold v; fold lo; fold a; fold b.
    - nra.
    - nra. }
  destruct (B p H0 ltac:(lra)) as ([L1 L2] & A1 & A2 & F & AB).
  destruct (B p' ltac:(lra) Hn) as ([L1' L2'] & A1' & A2' & F' & AB').
  assert (Qfloor p ≤ Qfloor p')%Z as Hll by by apply Qfloor_resp_le.
  destruct (decide (Qfloor p = Qfloor p')) as [Heq|Hne].
  - unfold v. rewrite <- Heq.
    set (a := nth (Z.to_nat (Qfloor p)) s 0%Q) in *.
    set (b := nth (Z.to_nat (Qfloor p + 1)) s a) in *.
    rewrite <- Heq in *. fold a in AB'. fold b in AB'. nra.
  - eapply Qle_trans; [exact A2|]. eapply Qle_trans; [|exact A1'].
    rewrite (nth_indep s _ 0%Q) by lia.
    apply sorted_nth; [done|]. lia.
Qed.

Lemma quartiles_ordered (vs : list Q) :
  vs ≠ [] → (quantile (1 # 4) vs <= quantile (3 # 4) vs)%Q.
Proof.
  intros Hne. destruct (sortQ_sorted vs) as [P S].
  assert (length (sortQ vs) = length vs) as L by by rewrite P.
  assert (1 ≤ Z.of_nat (length vs))%Z as Hn by (destruct vs; [done | simpl; lia]).
  assert (0 <= inject_Z (Z.of_nat (length vs)) - 1)%Q as Hq.
  { rewrite (Zle_Qle 1) in Hn. change (inject_Z 1) with 1%Q in Hn. lra. }
  unfold quantile.
  apply (interpolation_mono (sortQ vs)); [done | | |]; rewrite ?L; lra.
Qed.

(** The fences are in order, and clipping lands between them. *)
Lemma fences_ordered (vs : list Q) :
  vs ≠ [] → ((fences vs).1 <= (fences vs).2)%Q.
Proof.
  intros Hne. pose proof (quartiles_ordered vs Hne). unfold fences. cbn [fst snd]. lra.
Qed.

Lemma clip_bounds (lower upper v : Q) :
  (lower <= upper)%Q → (lower <= clip lower upper v)%Q ∧ (clip lower upper v <= upper)%Q.
Proof.
  intros H. unfold clip. split.
  - apply Q.min_glb; [apply Q.le_max_r | done].
  - apply Q.le_min_r.
Qed.

End Quantiles.

Section Fences.
Import Preprocess.
Context (ext : externals).

(** On a series of three periods or more that lies on an anchored grid the
    sanitiser returns, with the same dates; the lower fence is at most the
    upper one; every value it returns lies between the two; and each is the
    value it was given, clipped, so that a value already between the fences
    comes out as it went in. *)
Theorem sanitized_within_fences (s : series) :
  gridded s → (3 ≤ length s)%nat →
  let lower := (fences s.*2).1 in
  let upper := (fences s.*2).2 in
  ∃ out,
    sanitize_outliers_and_missing ext s = Ok out
    ∧ out.*1 = s.*1
    ∧ (lower <= upper)%Q
    ∧ Forall (λ y, lower <= y ∧ y <= upper)%Q out.*2
    ∧ (∀ i y, s.*2 !! i = Some y →
         out.*2 !! i = Some (clip lower upper y)
         ∧ ((lower <= y)%Q → (y <= upper)%Q → out.*2 !! i = Some y)).
Proof.
  intros Hg Hlen lower upper.
  pose proof (sanitize_gridded ext s Hg) as S.
  destruct (Nat.eqb (length s) 2) eqn:E2; [apply Nat.eqb_eq in E2; lia|].
  exists (zip s.*1 (reclip s.*2)). split; [done|].
  assert (reclip s.*2 = clip lower upper <$> s.*2) as R.
  { unfold reclip. rewrite length_fmap. by rewrite (proj2 (Nat.ltb_ge _ _)) by lia. }
  assert (lower <= upper)%Q as Hlu.
  { apply fences_ordered. destruct s; [simpl in Hlen; lia | done]. }
  rewrite fst_zip, snd_zip by (rewrite length_reclip, !length_fmap; lia).
  rewrite R. split_and!; [done | done | |].
  - apply Forall_fmap, Forall_true. intros y. by apply clip_bounds.
  - intros i y Hy. rewrite list_lookup_fmap, Hy. cbn. split; [done|].
    intros H1 H2. by rewrite clip_within.
Qed.

End Fences.

Section FencesExamples.
Import Preprocess Reference Samples.

Lemma sanitized_within_fences_witness :
  gridded spiky ∧ (3 ≤ length spiky)%nat
  ∧ ∃ out,
      sanitize_outliers_and_missing reference_externals spiky = Ok out
      ∧ out.*1 = spiky.*1
      ∧ ((fences spiky.*2).1 <= (fences spiky.*2).2)%Q
      ∧ Forall (λ y, (fences spiky.*2).1 <= y ∧ y <= (fences spiky.*2).2)%Q out.*2
      ∧ (∀ i y, spiky.*2 !! i = Some y →
           out.*2 !! i = Some (clip (fences spiky.*2).1 (fences spiky.*2).2 y)
           ∧ (((fences spiky.*2).1 <= y)%Q → (y <= (fences spiky.*2).2)%Q →
              out.*2 !! i = Some y)).
Proof.
  assert (gridded spiky) as Hg.
  { right. exists W_MON. split; [by left | vm_compute; reflexivity]. }
  assert (3 ≤ length spiky)%nat as Hlen by (vm_compute; lia).
  split; [exact Hg|]. split; [exact Hlen|].
  exact (sanitized_within_fences reference_externals spiky Hg Hlen).
Defined.

End FencesExamples.

(** ** The backtest metrics *)

Section Metrics.
Import Preprocess Predictor.

Lemma Qsum_nonneg (l : list Q) : Forall (λ x, 0 <= x)%Q l → (0 <= Qsum l)%Q.
Proof.
  induction 1 as [|x l Hx _ IH]; [done|].
  change (0 <= x + Qsum l)%Q. lra.
Qed.

Lemma Qsum_zero (l : list Q) : Forall (λ x, x == 0)%Q l → (Qsum l == 0)%Q.
Proof.
  induction 1 as [|x l Hx _ IH]; [done|].
  change (x + Qsum l == 0)%Q. lra.
Qed.

Lemma mean_nonneg (l : list Q) : Forall (λ x, 0 <= x)%Q l → (0 <= mean l)%Q.
Proof.
  intros H. unfold mean, Qdiv. apply Qmult_le_0_compat; [by apply Qsum_nonneg|].
  apply Qinv_le_0_compat. rewrite <- (Zle_Qle 0). lia.
Qed.

Lemma mean_zero (l : list Q) : Forall (λ x, x == 0)%Q l → (mean l == 0)%Q.
Proof. intros H. unfold mean, Qdiv. rewrite (Qsum_zero l H). ring. Qed.

(** The metrics of a backtest, computed on two merged rows or more: MAE is
    a number that is not negative; RMSE is the root of one; MAPE is null
    exactly when every held-out value is zero, and is not negative when no
    held-out value is, the percentage being taken of the value itself and
    not of its size; and a forecast that meets every held-out value has all
    three at zero. *)
Theorem metrics_are_errors (merged : list (Q * Q)) :
  (2 ≤ length merged)%nat →
  (∃ q, mae (metrics_of merged) = JNum q ∧ (0 <= q)%Q)
  ∧ (∃ q, rmse (metrics_of merged) = JSqrt q ∧ (0 <= q)%Q)
  ∧ (mape (metrics_of merged) = JNull ↔ Forall (λ p, p.1 == 0)%Q merged)
  ∧ (Forall (λ p, 0 <= p.1)%Q merged →
     ∀ q, mape (metrics_of merged) = JNum q → (0 <= q)%Q)
  ∧ (Forall (λ p, p.1 == p.2)%Q merged →
     (∃ q, mae (metrics_of merged) = JNum q ∧ q == 0)%Q
     ∧ (∃ q, rmse (metrics_of merged) = JSqrt q ∧ q == 0)%Q
     ∧ (∀ q, mape (metrics_of merged) = JNum q → q == 0)%Q).
Proof.
  intros _. unfold metrics_of. cbn [mae rmse mape].
  remember (filter (λ p : Q * Q, Qeq_bool p.1 0 = false) merged) as non_zero eqn:E.
  assert (∀ p, p ∈ non_zero ↔ Qeq_bool p.1 0 = false ∧ p ∈ merged) as Hnz.
  { intros p. rewrite E. by rewrite list_elem_of_filter. }
  assert (∀ p, p ∈ non_zero → ¬ (p.1 == 0)%Q) as Hnz0.
  { intros p [Hp _]%Hnz H. apply Qeq_bool_iff in H. congruence. }
  clear E. split_and!.
  - eexists. split; [done|]. apply mean_nonneg, Forall_fmap, Forall_true.
    intros p. apply Qabs_nonneg.
  - eexists. split; [done|]. apply mean_nonneg, Forall_fmap, Forall_true.
    intros p. unfold compose. cbv beta. generalize (p.1 - p.2)%Q. intros d.
    destruct (Qlt_le_dec d 0) as [Hd|Hd]; [|by apply Qmult_le_0_compat].
    assert (d * d == (- d) * (- d))%Q as -> by ring.
    apply Qmult_le_0_compat; lra.
  - split.
    + intros H. destruct non_zero as [|p l]; [|done].
      apply Forall_forall. intros p Hp.
      destruct (Qeq_bool p.1 0) eqn:Eq; [by apply Qeq_bool_iff|].
      assert (p ∈ @nil (Q * Q)) as Hin by (by apply Hnz).
      by apply elem_of_nil in Hin.
    + intros H. destruct non_zero as [|p l]; [done|]. exfalso.
      assert (p ∈ p :: l) as Hin by apply list_elem_of_here.
      apply (Hnz0 p Hin). rewrite Forall_forall in H. apply H. by apply Hnz in Hin as [_ ?].
  - intros Hpos q. destruct non_zero as [|p l] eqn:E; [done|]. rewrite <- E in *.
    intros [= <-]. apply Qmult_le_0_compat; [|done].
    apply mean_nonneg, Forall_fmap, Forall_forall. intros x Hx.
    pose proof (Hnz0 x Hx) as Hx0. apply Hnz in Hx as [_ Hx].
    rewrite Forall_forall in Hpos. specialize (Hpos x Hx). unfold compose. cbv beta.
    change (0 <= Qabs (x.1 - x.2) / x.1)%Q.
    unfold Qdiv. apply Qmult_le_0_compat; [apply Qabs_nonneg|].
    by apply Qinv_le_0_compat.
  - intros Hperfect. rewrite Forall_forall in Hperfect. split_and!.
    + eexists. split; [done|]. apply mean_zero, Forall_fmap, Forall_forall.
      intros p Hp. unfold compose. cbv beta. rewrite (Hperfect p Hp).
      assert (p.2 - p.2 == 0)%Q as -> by ring. done.
    + eexists. split; [done|]. apply mean_zero, Forall_fmap, Forall_forall.
      intros p Hp. unfold compose. cbv beta. rewrite (Hperfect p Hp). ring.
    + intros q. destruct non_zero as [|p l] eqn:E; [done|]. rewrite <- E in *.
      intros [= <-].
      rewrite mean_zero; [ring|]. apply Forall_fmap, Forall_forall.
      intros x Hx. apply Hnz in Hx as [_ Hx]. unfold compose. cbv beta.
      change (Qabs (x.1 - x.2) / x.1 == 0)%Q.
      rewrite (Hperfect x Hx) at 1.
      assert (x.2 - x.2 == 0)%Q as -> by ring.
      change (Qabs 0) with 0%Q. unfold Qdiv. ring.
Qed.

End Metrics.

Section MetricsExamples.
Import Preprocess Predictor Samples.

Lemma metrics_are_errors_witness :
  (2 ≤ length held_out_pairs)%nat
  ∧ (∃ q, mae (metrics_of held_out_pairs) = JNum q ∧ (0 <= q)%Q)
  ∧ (∃ q, rmse (metrics_of held_out_pairs) = JSqrt q ∧ (0 <= q)%Q)
  ∧ (∀ q, mape (metrics_of held_out_pairs) = JNum q → (0 <= q)%Q).
Proof.
  assert (2 ≤ length held_out_pairs)%nat as H by (cbn; lia).
  destruct (metrics_are_errors held_out_pairs H) as (Hmae & Hrmse & _ & Hmape & _).
  split_and!; [exact H | exact Hmae | exact Hrmse |].
  apply Hmape. repeat constructor; by vm_compute.
Defined.

End MetricsExamples.

(** ** The fits of a run *)

Section Fits.
Import Preprocess Pipeline.
Context (ext : externals) (self : PredictionPipeline).

(** The fits of the forecaster, in order. *)
Lemma fit_predict_fits (f : Predictor.EnsembleForecaster) (df : series) :
  (Predictor.fit_predict ext f df).1
  = Fit model df (Predictor._freq_rule f) (Predictor.horizon f)
    :: match prophet ext df (Predictor._freq_rule f) (Predictor.horizon f) with
       | Ok _ =>
           if Predictor.backtest_guard f df then
             [Fit bt_model
                (take (length df - Z.to_nat (Predictor.n_val f df)) df)
                (Predictor._freq_rule f) (Predictor.n_val f df)]
           else []
       | Raise _ => []
       end.
Proof.
  unfold Predictor.fit_predict, Predictor.fit_and_predict.
  destruct (prophet ext df _ _) as [out|e]; cbn; [|done].
  destruct (Predictor.backtest_guard f df); cbn; [|done].
  by destruct (prophet ext (take _ df) _ _).
Qed.

(** The fits of a run are those of its forecaster, and there is none when
    the run stops before it. *)
Lemma run_fits (records : list (list (string * cell))) :
  (run ext self records).1
  = match df_clean ext self records with
    | Ok clean =>
        if (Z.of_nat (length clean) <? min_data_points self)%Z then []
        else (Predictor.fit_predict ext (forecaster_of self) clean).1
    | Raise _ => []
    end.
Proof.
  unfold run.
  destruct (df_clean ext self records) as [clean|e];
    cbn -[Predictor.fit_predict]; [|done].
  destruct (Z.of_nat (length clean) <? min_data_points self)%Z;
    cbn -[Predictor.fit_predict]; [done|].
  destruct (Predictor.fit_predict ext (forecaster_of self) clean)
    as [t [[[fc mi] ds]|e]] eqn:Ef; cbn; [|done].
  destruct (fit_predict_Ok _ _ _ _ _ _ _ Ef) as (out & m & _ & -> & -> & ->).
  cbn. by rewrite app_nil_r.
Qed.

(** Whatever a run ends with, it fits at most two models, on the rule of
    the forecaster; a model is fitted only when the clean series has the
    minimum of points; the first model is fitted on the whole clean series
    for the period asked; the backtest model is fitted on a start of it of
    five rows or more, and is asked for as many periods as the rows it
    leaves out, between two and the larger of four and the period. *)
Theorem models_see_enough_data (records : list (list (string * cell)))
    (m : instance) (train : series) (r : rule) (periods : Z) :
  Fit m train r periods ∈ (run ext self records).1 →
  ∃ clean,
    df_clean ext self records = Ok clean
    ∧ (min_data_points self ≤ Z.of_nat (length clean))%Z
    ∧ r = Predictor._freq_rule (forecaster_of self)
    ∧ (length (run ext self records).1 ≤ 2)%nat
    ∧ match m with
      | model => train = clean ∧ periods = prediction_period self
      | bt_model =>
          ∃ held_out,
            clean = train ++ held_out
            ∧ (5 ≤ length train)%nat
            ∧ Z.of_nat (length held_out) = periods
            ∧ (2 ≤ periods ≤ Z.max 4 (prediction_period self))%Z
      end.
Proof.
  rewrite run_fits.
  destruct (df_clean ext self records) as [clean|e]; [|by intros ?%elem_of_nil].
  destruct (Z.of_nat (length clean) <? min_data_points self)%Z eqn:Em;
    [by intros ?%elem_of_nil|].
  apply Z.ltb_ge in Em. rewrite fit_predict_fits.
  set (f := forecaster_of self).
  pose proof (eq_refl : Predictor.horizon f = prediction_period self) as Hh.
  intros Hin. exists clean. split_and!; [done | done | | |].
  - destruct (prophet ext clean _ _); [destruct (Predictor.backtest_guard f clean)|];
      members Hin; by simplify_eq.
  - destruct (prophet ext clean _ _); [destruct (Predictor.backtest_guard f clean)|];
      simpl; lia.
  - destruct (prophet ext clean _ _) as [out|e].
    + destruct (Predictor.backtest_guard f clean) eqn:Eg.
      * members Hin; simplify_eq; [done|].
        unfold Predictor.backtest_guard in Eg. apply andb_true_iff in Eg as [G1 G2].
        apply Z.leb_le in G1, G2.
        set (n := Predictor.n_val f clean) in *.
        exists (drop (length clean - Z.to_nat n) clean).
        split_and!.
        -- by rewrite take_drop.
        -- rewrite length_take. lia.
        -- rewrite length_drop. lia.
        -- lia.
        -- unfold n, Predictor.n_val. rewrite Hh. lia.
      * members Hin. by simplify_eq.
    + members Hin. by simplify_eq.
Qed.

End Fits.

Section FitsExamples.
Import Preprocess Pipeline Reference Samples.

Lemma models_see_enough_data_witness :
  Fit bt_model (take 5 seven_clean) W_MON 2
  ∈ (run reference_externals (weekly [] false 3) seven_weeks).1
  ∧ ∃ clean,
      df_clean reference_externals (weekly [] false 3) seven_weeks = Ok clean
      ∧ (min_data_points (weekly [] false 3) ≤ Z.of_nat (length clean))%Z
      ∧ W_MON = Predictor._freq_rule (forecaster_of (weekly [] false 3))
      ∧ (length (run reference_externals (weekly [] false 3) seven_weeks).1 ≤ 2)%nat
      ∧ ∃ held_out,
          clean = take 5 seven_clean ++ held_out
          ∧ (5 ≤ length (take 5 seven_clean))%nat
          ∧ Z.of_nat (length held_out) = 2%Z
          ∧ (2 ≤ 2 ≤ Z.max 4 (prediction_period (weekly [] false 3)))%Z.
Proof.
  assert (Fit bt_model (take 5 seven_clean) W_MON 2
          ∈ (run reference_externals (weekly [] false 3) seven_weeks).1) as H.
  { vm_compute. apply list_elem_of_further, list_elem_of_here. }
  split; [exact H|].
  exact (models_see_enough_data reference_externals (weekly [] false 3) seven_weeks
           bt_model _ W_MON 2 H).
Defined.

End FitsExamples.

(** ** Edges of the input *)

Section Edges.
Import Preprocess Pipeline Routes.
Context (ext : externals) (self : PredictionPipeline).

Lemma first_seen_nil (ks : list string) : first_seen ks = [] → ks = [].
Proof.
  unfold first_seen. destruct ks as [|k ks]; [done|]. simpl.
  assert (∀ acc, acc ≠ [] →
            foldl (λ acc k, if decide (k ∈ acc) then acc else acc ++ [k]) acc ks ≠ [])
    as H.
  { induction ks as [|k' ks IH]; intros acc Hacc; [done|]. simpl.
    apply IH. destruct (decide (k' ∈ acc)); [done|]. by destruct acc. }
  intros E. by apply (H [k]) in E.
Qed.

(** A frame of records is empty exactly when no record has a field. *)
Lemma empty_from_records (records : list (list (string * cell))) :
  empty (from_records records) = true ↔ Forall (λ r, r = []) records.
Proof.
  unfold from_records.
  set (keys := concat ((λ r : list (string * cell), r.*1) <$> records)).
  assert (keys = [] ↔ Forall (λ r, r = []) records) as K.
  { unfold keys. clear keys. induction records as [|r records IH].
    - split; [constructor | done].
    - rewrite fmap_cons. cbn [concat]. rewrite Forall_cons, <- IH. split.
      + intros [H1 H2]%app_eq_nil. split; [by destruct r | done].
      + intros [-> ->]. done. }
  rewrite <- K. destruct (first_seen keys) as [|k ks] eqn:E.
  - apply first_seen_nil in E. done.
  - rewrite fmap_cons. cbn [empty]. rewrite length_fmap.
    destruct records as [|r records].
    + unfold keys in *. cbn in E. done.
    + cbn [length Nat.eqb]. split; [done|]. intros Hk. by rewrite Hk in E.
Qed.

(** The frame of the records is empty exactly when no record has a field;
    a run on such records fails at once with [EmptyDataset], no model
    fitted, and the dispatcher answers 422 with that message. *)
Theorem rows_without_fields (records : list (list (string * cell))) :
  (empty (from_records records) = true ↔ Forall (λ r, r = []) records)
  ∧ (Forall (λ r, r = []) records →
     run ext self records = ([], Raise EmptyDataset)
     ∧ respond (run ext self records).2
       = Response 422 (JObj [("error", JStr "insufficient_data");
                             ("message", JStr "Boş veri kümesi")]%string)).
Proof.
  split; [apply empty_from_records|]. intros H.
  apply empty_from_records in H.
  assert (run ext self records = ([], Raise EmptyDataset)) as ->; [|done].
  unfold run, df_clean, df_agg. by rewrite H.
Qed.

Lemma find_alias_in (cols candidates : list string) (c : string) :
  find_alias (lower_map cols) candidates = Some c → Unicode.lower c ∈ candidates.
Proof.
  induction candidates as [|a rest IH]; simpl; [done|].
  destruct (lower_map cols !! a) as [c'|] eqn:E.
  - intros [= ->]. pose proof (lower_map_foldl cols ∅ a) as L.
    unfold lower_map in E. rewrite E in L.
    destruct L as [[_ <-]|L]; [apply list_elem_of_here | by rewrite lookup_empty in L].
  - intros H. by apply list_elem_of_further, IH.
Qed.

Lemma columns_rename (mapping : detected) (df : DataFrame) (l : string) :
  l ∈ columns (rename mapping df) →
  l ∈ columns df ∨ l = "y"%string
  ∨ (l = "ds"%string ∧ date mapping ≠ target mapping).
Proof.
  unfold columns, rename. rewrite <- list_fmap_compose.
  intros ([k vs] & -> & Hc)%list_elem_of_fmap. cbn.
  destruct (String.eqb k (target mapping)) eqn:Et; cbn; [by auto|].
  destruct (String.eqb k (date mapping)) eqn:Ed; cbn.
  - right. right. split; [done|].
    apply String.eqb_eq in Ed. apply String.eqb_neq in Et. congruence.
  - left. by apply (list_elem_of_fmap_2 fst) in Hc.
Qed.

(** When detection gives the date role and the target role to the same
    column, which it does only when no header matches a date alias and the
    column found by parsing is the target, and no column is called [ds],
    the renaming keeps the later entry of its dictionary, no column [ds]
    comes out of it, and the normaliser fails with [KeyError], which the
    dispatcher answers with 500. *)
Theorem one_column_for_both_roles (df : DataFrame) (mapping : detected)
    (feature_columns : list string) :
  detect_columns ext df = Ok mapping →
  date mapping = target mapping →
  "ds"%string ∉ columns df →
  find_alias (lower_map (columns df)) DATE_CANDIDATES = None
  ∧ parses ext df (date mapping) = true
  ∧ normalize_schema ext df mapping feature_columns = Raise (Exn KeyError "ds")
  ∧ ∃ body,
      respond (Raise (Exn KeyError "ds")) = Response 500 body
      ∧ field "error" body = Some (JStr "internal_error").
Proof.
  intros Hd Heq Hds. unfold detect_columns, find in Hd.
  destruct (find_alias (lower_map (columns df)) TARGET_CANDIDATES) as [t|] eqn:Et.
  2:{ destruct (find_alias _ DATE_CANDIDATES); [done|].
      by destruct (first_parseable ext df (columns df)). }
  pose proof (find_alias_in _ _ _ Et) as Ht.
  destruct (find_alias (lower_map (columns df)) DATE_CANDIDATES) as [d|] eqn:Ed.
  { cbn in Hd. injection Hd as <-. cbn in Heq. subst t.
    pose proof (find_alias_in _ _ _ Ed) as Hd'.
    exfalso. members Hd'; rewrite Hd' in Ht; members Ht; discriminate. }
  destruct (first_parseable ext df (columns df)) as [d|] eqn:Ep; [|done].
  cbn in Hd. injection Hd as <-. cbn in Heq. subst t.
  destruct (first_parseable_Some ext df _ _ Ep) as (_ & _ & _ & _ & Hp).
  split_and!; [done | done | | by eexists].
  unfold normalize_schema.
  assert (labelled "ds" (rename {| date := d; target := d |} df) = []) as ->; [|done].
  destruct (labelled "ds" _) as [|c l] eqn:E; [done|].
  assert (c ∈ labelled "ds" (rename {| date := d; target := d |} df)) as Hc
    by (rewrite E; apply list_elem_of_here).
  apply elem_of_labelled in Hc as [Hl Hc].
  apply (list_elem_of_fmap_2 fst) in Hc. rewrite Hl in Hc.
  apply columns_rename in Hc as [?|[?|[_ ?]]]; done.
Qed.

End Edges.

Section EdgesExamples.
Import Preprocess Pipeline Routes Reference Samples.

Lemma one_column_for_both_roles_witness :
  detect_columns reference_externals (from_records only_sales)
  = Ok (Detected "sales" "sales")
  ∧ ("ds"%string ∉ columns (from_records only_sales))
  ∧ find_alias (lower_map (columns (from_records only_sales))) DATE_CANDIDATES = None
  ∧ parses reference_externals (from_records only_sales) "sales" = true
  ∧ normalize_schema reference_externals (from_records only_sales)
      (Detected "sales" "sales") [] = Raise (Exn KeyError "ds")
  ∧ ∃ body,
      respond (Raise (Exn KeyError "ds")) = Response 500 body
      ∧ field "error" body = Some (JStr "internal_error").
Proof.
  assert (detect_columns reference_externals (from_records only_sales)
          = Ok (Detected "sales" "sales")) as H by (vm_compute; reflexivity).
  assert ("ds"%string ∉ columns (from_records only_sales)) as Hds.
  { vm_compute. intros Hin. members Hin. discriminate. }
  split; [exact H|]. split; [exact Hds|].
  exact (one_column_for_both_roles reference_externals (from_records only_sales)
           (Detected "sales" "sales") [] H eq_refl Hds).
Defined.

End EdgesExamples.

(** ** The answers of the dispatcher *)

Section Answers.
Import Preprocess Pipeline Routes DispatchSpec.
Context (ext : externals) (cfg : config) (now : Z).

(** What [validate] rejects with. *)
Lemma validate_Rejected (payload : list (string * json)) (o : outcome) :
  validate payload = Rejected o →
  o = Uncaught (Exn TypeError "unhashable type")
  ∨ ∃ message, o = _bad_request message "missing_parameter".
Proof.
  unfold validate. repeat case_match; try done; intros [= <-]; eauto.
Qed.

Lemma respond_cases (r : result json) :
  match r with
  | Ok result => respond r = Response 200 result
  | Raise (Exn cls msg) =>
      match cls with
      | ValueError =>
          respond r = Response 422 (JObj [("error", JStr "insufficient_data");
                                          ("message", JStr msg)]%string)
      | Unmodelled => respond r = NotModelled
      | _ =>
          respond r = Response 500 (JObj [("error", JStr "internal_error");
                                          ("message", JStr msg)]%string)
      end
  end.
Proof. destruct r as [?|[[] ?]]; done. Qed.

(** What the dispatcher answers on a body that parsed to a JSON object, as
    far as the request is followed.  A response has one of four statuses:
    400 with the code [missing_parameter], when validation rejects the
    request; 200 with the payload of the run, which says [success]; 422
    with the code [insufficient_data] and the message of the [ValueError]
    the run raised, whatever raised it; 500 with the code [internal_error],
    when the run raised anything else.  An acknowledgement says [success]
    and [processing] and echoes the truthy value found under the first
    callback indicator.  The only exception that leaves the view is the
    [TypeError] of a frequency that cannot be hashed.  The requests that are
    not followed passed validation and are processed synchronously: they
    have a row that is no object or feature columns of another shape than a
    list of scalars, or their run leaves what is modelled of pandas. *)
Theorem response_contract (payload : list (string * json)) :
  match predict ext cfg now payload with
  | Response status body =>
      (status = 400%Z
       ∧ field "error" body = Some (JStr "missing_parameter")
       ∧ ∃ o, validate payload = Rejected o)
      ∨ ∃ pipeline records,
          job cfg (validate payload) = Some (pipeline, records)
          ∧ ((status = 200%Z ∧ (run ext pipeline records).2 = Ok body
              ∧ field "success" body = Some (JBool true))
             ∨ (status = 422%Z
                ∧ field "error" body = Some (JStr "insufficient_data")
                ∧ ∃ msg, (run ext pipeline records).2 = Raise (Exn ValueError msg)
                         ∧ field "message" body = Some (JStr msg))
             ∨ (status = 500%Z
                ∧ field "error" body = Some (JStr "internal_error")
                ∧ ∃ e, (run ext pipeline records).2 = Raise e
                       ∧ class_of e ≠ ValueError))
  | Processing ack _ =>
      field "success" ack = Some (JBool true)
      ∧ field "status" ack = Some (JStr "processing")
      ∧ ∃ url, first_callback payload url ∧ truthy url = true
               ∧ field "callback_url" ack = Some url
  | Uncaught e => e = Exn TypeError "unhashable type"
  | NotModelled =>
      valid payload
      ∧ (∀ url, first_callback payload url → truthy url = false)
      ∧ (job cfg (validate payload) = None
         ∨ ∃ pipeline records msg,
             job cfg (validate payload) = Some (pipeline, records)
             ∧ (run ext pipeline records).2 = Raise (Exn Unmodelled msg))
  end.
Proof.
  assert (∀ v, match synchronous ext cfg v with
               | Response status body =>
                   ∃ pipeline records,
                     job cfg v = Some (pipeline, records)
                     ∧ ((status = 200%Z ∧ (run ext pipeline records).2 = Ok body
                         ∧ field "success" body = Some (JBool true))
                        ∨ (status = 422%Z
                           ∧ field "error" body = Some (JStr "insufficient_data")
                           ∧ ∃ msg, (run ext pipeline records).2
                                    = Raise (Exn ValueError msg)
                                    ∧ field "message" body = Some (JStr msg))
                        ∨ (status = 500%Z
                           ∧ field "error" body = Some (JStr "internal_error")
                           ∧ ∃ e, (run ext pipeline records).2 = Raise e
                                  ∧ class_of e ≠ ValueError))
               | Processing _ _ => False
               | Uncaught _ => False
               | NotModelled =>
                   job cfg v = None
                   ∨ ∃ pipeline records msg,
                       job cfg v = Some (pipeline, records)
                       ∧ (run ext pipeline records).2 = Raise (Exn Unmodelled msg)
               end) as S.
  { intros v. unfold synchronous.
    destruct (job cfg v) as [[pipeline records]|]; [|by left].
    destruct (run ext pipeline records) as [t [result|[cls msg]]] eqn:Er; cbn [snd].
    - cbn -[run]. exists pipeline, records. rewrite Er. split; [done|]. left.
      split_and!; [done | done |].
      destruct (run_Ok _ _ _ _ _ Er) as (? & ? & ? & _ & _ & _ & ->). done.
    - destruct cls; cbn -[run].
      + exists pipeline, records. rewrite Er. split; [done|]. right. left.
        split_and!; [done | done |]. by exists msg.
      + exists pipeline, records. rewrite Er. split; [done|]. right. right.
        split_and!; [done | done |]. by eexists.
      + exists pipeline, records. rewrite Er. split; [done|]. right. right.
        split_and!; [done | done |]. by eexists.
      + exists pipeline, records. rewrite Er. split; [done|]. right. right.
        split_and!; [done | done |]. by eexists.
      + right. exists pipeline, records, msg. by rewrite Er. }
  pose proof (find_callback_first payload) as F.
  unfold predict.
  destruct (validate payload) as [o|f p fc ci data cb] eqn:Ev.
  - destruct (validate_Rejected _ _ Ev) as [-> | [message ->]]; [done|].
    cbn. left. split_and!; [done | done | by eexists].
  - pose proof (validate_callback _ _ _ _ _ _ _ Ev) as Hcb.
    specialize (S (Accepted f p fc ci data cb)).
    assert (valid payload) as Hv by (intros o Ho; congruence).
    rewrite <- Hcb in F.
    assert (∀ url, first_callback payload url → cb = Some url) as Hfirst.
    { intros url Hu. rewrite Hcb. by apply first_callback_found. }
    destruct cb as [url|].
    + destruct (truthy url) eqn:Et.
      * split_and!; [done | done |]. by exists url.
      * destruct (synchronous ext cfg _) as [status body| | |]; try done.
        -- right. exact S.
        -- split_and!; [done| |done]. intros url' Hu.
           apply Hfirst in Hu. by injection Hu as <-.
    + destruct (synchronous ext cfg _) as [status body| | |]; try done.
      * right. exact S.
      * split_and!; [done| |done]. intros url' Hu. by apply Hfirst in Hu.
Qed.

End Answers.

(** ** The grid of the fits *)

Section Grids.
Import Preprocess.
Context (ext : externals).

Lemma take_seqZ (a n : Z) (k : nat) :
  (Z.of_nat k ≤ n)%Z → take k (seqZ a n) = seqZ a (Z.of_nat k).
Proof.
  intros H. replace n with (Z.of_nat k + (n - Z.of_nat k))%Z by lia.
  rewrite seqZ_app by lia. apply take_app_length'. rewrite length_seqZ. lia.
Qed.

Lemma bin_labels_MS (lo hi : Z) :
  bin_labels MS lo hi
  = month_first <$> seqZ (month_index lo) (month_index hi - month_index lo + 1).
Proof. unfold bin_labels. reflexivity. Qed.

(** A grid is a run of periods from its first, and so is every start of
    it. *)
Lemma on_grid_shape (r : rule) (idx : list Z) :
  r = W_MON ∨ r = MS → on_grid r idx = true →
  ∃ (f : Z → Z) (a n : Z),
    idx = f <$> seqZ a n
    ∧ ∀ k, (1 ≤ k)%Z → on_grid r (f <$> seqZ a k) = true.
Proof.
  intros Hr Hg. apply bool_decide_eq_true in Hg.
  destruct Hr as [-> | ->].
  - exists (λ k, bin_label_week (minimum idx) + 7 * k)%Z, 0%Z,
      ((bin_label_week (maximum idx) - bin_label_week (minimum idx)) / 7 + 1)%Z.
    split; [exact Hg|]. intros k Hk.
    exact (week_grid_on_grid (bin_label_week (minimum idx)) k (week_label_fixed _) Hk).
  - rewrite bin_labels_MS in Hg.
    exists month_first, (month_index (minimum idx)),
      (month_index (maximum idx) - month_index (minimum idx) + 1)%Z.
    split; [exact Hg|]. intros k Hk.
    exact (month_grid_on_grid _ k Hk).
Qed.

Lemma on_grid_take (r : rule) (idx : list Z) (k : nat) :
  r = W_MON ∨ r = MS → on_grid r idx = true → (1 ≤ k)%nat →
  on_grid r (take k idx) = true.
Proof.
  intros Hr Hg Hk. destruct (decide (length idx ≤ k)%nat) as [Hle|Hgt].
  { by rewrite take_ge by lia. }
  destruct (on_grid_shape r idx Hr Hg) as (f & a & n & -> & Hall).
  rewrite length_fmap, length_seqZ in Hgt.
  rewrite <- fmap_take, take_seqZ by lia. apply Hall. lia.
Qed.

(** On a grid every date is on the anchor, and each follows the one before
    by one period. *)
Lemma on_grid_run (r : rule) (idx : list Z) :
  r = W_MON ∨ r = MS → idx ≠ [] → on_grid r idx = true →
  Forall (anchored r) idx
  ∧ (∀ i l l', idx !! i = Some l → idx !! S i = Some l' → l' = next_period r l).
Proof.
  intros Hr Hne Hg. apply bool_decide_eq_true in Hg.
  destruct (bin_labels_run r (minimum idx) (maximum idx) Hr)
    as (n & _ & Hrun & _).
  { by apply minimum_le, maximum_elem. }
  rewrite <- Hg in Hrun. split.
  - apply Forall_lookup. intros i l Hl. apply Hrun in Hl as [_ ->].
    clear Hrun. induction i as [|i IH]; [by apply bin_label_anchored|].
    rewrite Nat.iter_succ. by apply next_period_anchored.
  - intros i l l' Hl Hl'. apply Hrun in Hl as [_ ->]. apply Hrun in Hl' as [_ ->].
    by rewrite Nat.iter_succ.
Qed.

Lemma resample_sum_on_grid (r : rule) (rows : series) :
  r = W_MON ∨ r = MS →
  resample_sum r rows = [] ∨ on_grid r (resample_sum r rows).*1 = true.
Proof.
  intros Hr. unfold resample_sum. destruct rows as [|row rows]; [by left|].
  generalize (minimum (row :: rows).*1) (maximum (row :: rows).*1). intros lo hi.
  rewrite fst_labelled_sums.
  destruct (bin_labels_on_grid r lo hi Hr) as [-> | Hg]; [by left | by right].
Qed.

Lemma aggregate_time_series_rule (df : DataFrame) (level : string) (s : series) :
  aggregate_time_series ext df level W_MON MS = Ok s →
  (level = "weekly"%string ∨ level = "monthly"%string)
  ∧ ∃ rows, s = resample_sum (if String.eqb level "weekly" then W_MON else MS) rows.
Proof.
  unfold aggregate_time_series.
  destruct (String.eqb level "weekly") eqn:Ew; cbn [orb negb].
  - apply String.eqb_eq in Ew.
    destruct (match labelled "ds" df with [] => _ | _ => _ end) as [ds|e]; [|done].
    change (Ok ds ≫= ?f) with (f ds). cbv beta zeta.
    destruct (labelled "y" df) as [|[k ys] [|? ?]]; try done.
    destruct (mapM id ds) as [ds'|]; try done.
    destruct (mapM number ys) as [ys'|]; try done. intros [= <-].
    split; [by left | by eexists].
  - destruct (String.eqb level "monthly") eqn:Em; cbn [negb]; [|done].
    apply String.eqb_eq in Em.
    destruct (match labelled "ds" df with [] => _ | _ => _ end) as [ds|e]; [|done].
    change (Ok ds ≫= ?f) with (f ds). cbv beta zeta.
    destruct (labelled "y" df) as [|[k ys] [|? ?]]; try done.
    destruct (mapM id ds) as [ds'|]; try done.
    destruct (mapM number ys) as [ys'|]; try done. intros [= <-].
    split; [by right | by eexists].
Qed.

End Grids.

Section DispatcherGrid.
Import Preprocess Pipeline Routes.
Context (ext : externals) (cfg : config).

Lemma job_pipeline (v : validated) (pipeline : PredictionPipeline)
    (records : list (list (string * cell))) :
  job cfg v = Some (pipeline, records) →
  ∃ f p features ci,
    pipeline = build_pipeline f f p features ci (MIN_DATA_POINTS cfg).
Proof.
  unfold job. destruct v as [|f p fc ci data cb]; [done|].
  destruct (records_of data); [|done]. destruct (features_of fc); [|done].
  intros [= <- _]. by eexists _, _, _, _.
Qed.

(** The clean series of a pipeline of the dispatcher lies on the grid of the
    frequency asked for. *)
Lemma dispatcher_clean_on_grid (v : validated) (pipeline : PredictionPipeline)
    (records : list (list (string * cell))) (clean : series) :
  job cfg v = Some (pipeline, records) →
  df_clean ext pipeline records = Ok clean → clean ≠ [] →
  let r := Predictor._freq_rule (forecaster_of pipeline) in
  (r = W_MON ∨ r = MS)
  ∧ r = (if String.eqb (prediction_frequency pipeline) "monthly" then MS else W_MON)
  ∧ on_grid r clean.*1 = true.
Proof.
  intros Hjob Hclean Hne r.
  destruct (job_pipeline _ _ _ Hjob) as (f & p & features & ci & ->).
  unfold df_clean in Hclean.
  destruct (df_agg ext _ records) as [agg|e] eqn:Eagg; [|done].
  change (Ok agg ≫= ?f) with (f agg) in Hclean. cbv beta in Hclean.
  assert ((f = "weekly"%string ∨ f = "monthly"%string)
          ∧ ∃ rows, agg = resample_sum (if String.eqb f "weekly" then W_MON else MS) rows)
    as [Hf [rows ->]].
  { unfold df_agg in Eagg. destruct (empty _); [done|].
    destruct (detect_columns ext _) as [m|e]; [|done].
    change (Ok m ≫= ?f) with (f m) in Eagg. cbv beta in Eagg.
    destruct (normalize_schema ext _ m _) as [n|e]; [|done].
    change (Ok n ≫= ?f) with (f n) in Eagg. cbv beta in Eagg.
    by apply aggregate_time_series_rule in Eagg. }
  assert (r = if String.eqb f "weekly" then W_MON else MS) as Hr.
  { unfold r, Predictor._freq_rule. cbn. by destruct Hf as [-> | ->]. }
  rewrite <- Hr in *. clearbody r.
  assert (r = W_MON ∨ r = MS) as Ha.
  { rewrite Hr. destruct (String.eqb f "weekly"); auto. }
  split_and!; [done | cbn; by destruct Hf as [-> | ->] |].
  pose proof (resample_sum_on_grid r rows Ha) as G.
  set (agg := resample_sum r rows) in *.
  assert (gridded agg) as Hg.
  { destruct G as [-> | G]; [by left | right; by exists r]. }
  pose proof (sanitize_gridded ext agg Hg) as S.
  destruct (Nat.eqb (length agg) 2); [congruence|].
  rewrite S in Hclean. injection Hclean as <-.
  rewrite fst_zip by (rewrite length_reclip, !length_fmap; lia).
  destruct G as [E | G]; [|done].
  rewrite E in Hne. done.
Qed.

(** With a minimum of one point or more, every model the dispatcher has
    fitted is fitted on a series that lies on the grid of the rule it is
    asked to forecast on, [MS] for a monthly request and [W-MON] otherwise:
    every date on the anchor, each one period after the one before, none
    missing. *)
Theorem dispatcher_fits_on_its_grid (v : validated) (pipeline : PredictionPipeline)
    (records : list (list (string * cell)))
    (m : instance) (train : series) (r : rule) (periods : Z) :
  (1 ≤ MIN_DATA_POINTS cfg)%Z →
  job cfg v = Some (pipeline, records) →
  Fit m train r periods ∈ (run ext pipeline records).1 →
  r = (if String.eqb (prediction_frequency pipeline) "monthly" then MS else W_MON)
  ∧ on_grid r train.*1 = true
  ∧ Forall (anchored r) train.*1
  ∧ (∀ i l l', train.*1 !! i = Some l → train.*1 !! S i = Some l' →
       l' = next_period r l).
Proof.
  intros Hmin Hjob Hin. rewrite run_fits in Hin.
  destruct (df_clean ext pipeline records) as [clean|e] eqn:Eclean;
    [|by apply elem_of_nil in Hin].
  destruct (Z.of_nat (length clean) <? min_data_points pipeline)%Z eqn:Em;
    [by apply elem_of_nil in Hin|].
  apply Z.ltb_ge in Em.
  assert (min_data_points pipeline = MIN_DATA_POINTS cfg) as Emin.
  { by destruct (job_pipeline _ _ _ Hjob) as (f & p & features & ci & ->). }
  assert (clean ≠ []) as Hne by (intros ->; simpl in Em; lia).
  destruct (dispatcher_clean_on_grid v pipeline records clean Hjob Eclean Hne)
    as (Ha & Hr & Hg).
  rewrite fit_predict_fits in Hin.
  set (f := forecaster_of pipeline) in *.
  assert (r = Predictor._freq_rule f
          ∧ (train = clean
             ∨ ∃ k, (5 ≤ k)%nat ∧ (k ≤ length clean)%nat ∧ train = take k clean))
    as [-> Htrain].
  { destruct (prophet ext clean _ _) as [out|e'].
    - destruct (Predictor.backtest_guard f clean) eqn:Eg.
      + members Hin; simplify_eq; [by auto|]. split; [done|]. right.
        unfold Predictor.backtest_guard in Eg. apply andb_true_iff in Eg as [G1 G2].
        apply Z.leb_le in G1, G2. eexists. split_and!; [| |done]; lia.
      + members Hin. simplify_eq. auto.
    - members Hin. simplify_eq. auto. }
  assert (on_grid (Predictor._freq_rule f) train.*1 = true ∧ train.*1 ≠ [])
    as [Hgt Hnt].
  { destruct Htrain as [-> | (k & Hk1 & Hk2 & ->)].
    - split; [done|]. by destruct clean.
    - rewrite fmap_take. split; [apply on_grid_take; [done | done | lia]|].
      destruct clean as [|c1 clean]; [simpl in Hk2; lia|].
      destruct k; [lia | done]. }
  destruct (on_grid_run _ _ Ha Hnt Hgt) as [A N]. done.
Qed.

End DispatcherGrid.

Section DispatcherGridExamples.
Import Preprocess Pipeline Routes Reference Samples.

Lemma dispatcher_fits_on_its_grid_witness :
  (1 ≤ MIN_DATA_POINTS three)%Z
  ∧ job three (validate served_request)
    = Some (build_pipeline "weekly" "weekly" 4 [] false 3, two_rows)
  ∧ Fit model four_clean W_MON 4
    ∈ (run reference_externals (build_pipeline "weekly" "weekly" 4 [] false 3) two_rows).1
  ∧ four_clean.*1
    = [19723; 19730; 19737; 19744]%Z
  ∧ on_grid W_MON [19723; 19730; 19737; 19744]%Z = true
  ∧ Forall (anchored W_MON) [19723; 19730; 19737; 19744]%Z.
Proof.
  assert (1 ≤ MIN_DATA_POINTS three)%Z as Hmin by (vm_compute; discriminate).
  assert (job three (validate served_request)
          = Some (build_pipeline "weekly" "weekly" 4 [] false 3, two_rows)) as Hjob
    by (vm_compute; reflexivity).
  assert (Fit model four_clean W_MON 4
          ∈ (run reference_externals (build_pipeline "weekly" "weekly" 4 [] false 3)
               two_rows).1) as Hin.
  { vm_compute. apply list_elem_of_here. }
  assert (four_clean.*1
          = [19723; 19730; 19737; 19744]%Z) as E by (vm_compute; reflexivity).
  destruct (dispatcher_fits_on_its_grid reference_externals three _ _ _ _ _ _ _
              Hmin Hjob Hin) as (_ & Hg & Ha & _).
  rewrite E in Hg, Ha.
  split_and!; [exact Hmin | exact Hjob | exact Hin | exact E | exact Hg | exact Ha].
Defined.

End DispatcherGridExamples.

(** ** Stripping and splitting *)

Section Strings.
Import Auth.

Lemma length_lstrip (s : string) : (String.length (lstrip s) ≤ String.length s)%nat.
Proof. induction s as [|c r IH]; simpl; [lia|]. destruct (isspace c); simpl; lia. Qed.

Lemma length_rstrip (s : string) : (String.length (rstrip s) ≤ String.length s)%nat.
Proof.
  induction s as [|c r IH]; simpl; [lia|].
  destruct (rstrip r); [destruct (isspace c)|]; simpl in *; lia.
Qed.

(** White space only. *)
Lemma rstrip_blank (s : string) : lstrip s = ""%string → rstrip s = ""%string.
Proof.
  induction s as [|c r IH]; simpl; [done|].
  destruct (isspace c) eqn:E; [|done]. intros H. by rewrite (IH H).
Qed.

Lemma lstrip_app_blank (pad s : string) :
  lstrip pad = ""%string → lstrip (pad +:+ s) = lstrip s.
Proof.
  induction pad as [|c r IH]; simpl; [done|].
  destruct (isspace c); [exact IH | done].
Qed.

Lemma rstrip_app_blank (s pad : string) :
  lstrip pad = ""%string → rstrip (s +:+ pad) = rstrip s.
Proof.
  intros H. induction s as [|c r IH]; simpl; [by apply rstrip_blank|]. by rewrite IH.
Qed.

Lemma rstrip_head (c : ascii) (r : string) :
  isspace c = false → ∃ r', rstrip (String c r) = String c r'.
Proof. intros H. simpl. destruct (rstrip r); rewrite ?H; by eexists. Qed.

Lemma lstrip_head (s : string) :
  lstrip s = ""%string ∨ ∃ c r, lstrip s = String c r ∧ isspace c = false.
Proof.
  induction s as [|c r IH]; simpl; [by left|].
  destruct (isspace c) eqn:E; [done|]. right. by exists c, r.
Qed.

Lemma rstrip_rstrip (s : string) : rstrip (rstrip s) = rstrip s.
Proof.
  induction s as [|c r IH]; simpl; [done|].
  destruct (rstrip r) as [|c' r'] eqn:E.
  - destruct (isspace c) eqn:Ec; simpl; [done|]. by rewrite Ec.
  - simpl in *. rewrite IH. done.
Qed.

(** Stripping again changes nothing. *)
Lemma strip_strip (s : string) : strip (strip s) = strip s.
Proof.
  unfold strip. destruct (lstrip_head s) as [-> | (c & r & -> & Hc)]; [done|].
  destruct (rstrip_head c r Hc) as [r' E]. rewrite E.
  cbn [lstrip]. rewrite Hc, <- E. apply rstrip_rstrip.
Qed.

(** A string that stripping leaves alone, and is not empty, starts and ends
    with something else than white space. *)
Lemma stripped_fixed (s : string) :
  strip s = s → lstrip s = s ∧ rstrip s = s.
Proof.
  intros H. assert (lstrip s = s) as L; [|split; [done|]; unfold strip in H; by rewrite L in H].
  destruct s as [|c r]; [done|]. simpl. destruct (isspace c) eqn:E; [|done].
  exfalso. unfold strip in H. simpl in H. rewrite E in H.
  pose proof (length_rstrip (lstrip r)). pose proof (length_lstrip r).
  rewrite H in *. simpl in *. lia.
Qed.

Lemma strip_padded (pad tok pad' : string) :
  lstrip pad = ""%string → lstrip pad' = ""%string →
  strip tok = tok → tok ≠ ""%string →
  strip (pad +:+ tok +:+ pad') = tok.
Proof.
  intros Hp Hp' Ht Hne. destruct (stripped_fixed tok Ht) as [L R].
  unfold strip. rewrite lstrip_app_blank by done.
  assert (lstrip (tok +:+ pad') = tok +:+ pad') as ->.
  { destruct tok as [|c r]; [by destruct Hne|]. simpl in *.
    destruct (isspace c); [|done].
    pose proof (length_lstrip r) as B. rewrite L in B. simpl in B. lia. }
  by rewrite rstrip_app_blank.
Qed.

Lemma lower_app (a b : string) : lower (a +:+ b) = lower a +:+ lower b.
Proof. induction a as [|c r IH]; simpl; [done|]. by rewrite IH. Qed.

Lemma lower_ascii_space (c : ascii) : lower_ascii c = " "%char → c = " "%char.
Proof.
  destruct c as [[] [] [] [] [] [] [] []]; vm_compute; intros H; first [done | discriminate].
Qed.

Lemma prefix_lower (p h : string) :
  String.prefix p (lower h) = true → ∃ a b, h = a +:+ b ∧ lower a = p.
Proof.
  revert h. induction p as [|c p IH]; intros h H.
  - by exists ""%string, h.
  - destruct h as [|c' h]; [done|]. simpl in H.
    destruct (Ascii.ascii_dec c (lower_ascii c')) as [->|]; [|done].
    destruct (IH h H) as (a & b & -> & <-). by exists (String c' a), b.
Qed.

(** The header splits after its first word when that word has no space,
    which its lower-cased form shows. *)
Lemma split_space_word (a r : string) :
  split_space (lower a) = (lower a, None) →
  split_space (a +:+ " " +:+ r) = (a, Some r).
Proof.
  induction a as [|c a IH]; simpl; [done|].
  destruct (Ascii.eqb (lower_ascii c) " ") eqn:E; [done|].
  destruct (Ascii.eqb c " ") eqn:E'.
  { apply Ascii.eqb_eq in E'. subst c. done. }
  destruct (split_space (lower a)) as [x [y|]] eqn:Es; [done|].
  intros [= Hx]. rewrite Hx in IH. by rewrite IH.
Qed.

Lemma lower_inv_app (a : string) (x y : string) :
  lower a = x +:+ y → ∃ a1 a2, a = a1 +:+ a2 ∧ lower a1 = x ∧ lower a2 = y.
Proof.
  revert a. induction x as [|c x IH]; intros a H.
  - by exists ""%string, a.
  - destruct a as [|c' a]; [done|]. simpl in H. injection H as Hc H.
    destruct (IH a H) as (a1 & a2 & -> & <- & <-).
    exists (String c' a1), a2. simpl. by rewrite Hc.
Qed.

End Strings.

(** ** Bearer tokens *)

Section Bearer.
Import Auth.

Lemma given_Some (s : string) : given (Some s) = true ↔ s ≠ ""%string.
Proof.
  unfold given. rewrite negb_true_iff. split.
  - intros H ->. done.
  - intros H. by apply String.eqb_neq.
Qed.

(** A header that opens with the word, whatever its case, and a space:
    the token is what follows, stripped. *)
Lemma get_bearer_token_word (scheme rest : string) :
  lower scheme = "bearer"%string →
  _get_bearer_token (Some (scheme +:+ " " +:+ rest))
  = if given (Some (strip rest)) then Some (strip rest) else None.
Proof.
  intros Hs. unfold _get_bearer_token.
  assert (given (Some (scheme +:+ " " +:+ rest)) = true) as ->.
  { apply given_Some. destruct scheme; done. }
  cbn [negb].
  assert (String.prefix BEARER_PREFIX (lower (scheme +:+ " " +:+ rest)) = true) as ->.
  { rewrite lower_app, Hs. simpl. by destruct rest. }
  assert (split_space (scheme +:+ " " +:+ rest) = (scheme, Some rest)) as ->; [|done].
  apply split_space_word. by rewrite Hs.
Qed.

(** The bearer token of an [Authorization] header: there is one exactly
    when the header is the word [bearer], in any case, one space, and a rest
    that is not white space only, and the token is that rest without the
    white space around it; so a token that has none around it is read back
    from any such header, whatever the padding.  No header, or an empty one,
    has no token. *)
Theorem bearer_token_spec (header token : string) :
  (_get_bearer_token (Some header) = Some token
   ↔ ∃ scheme rest,
       header = scheme +:+ " " +:+ rest
       ∧ lower scheme = "bearer"%string
       ∧ strip rest = token ∧ token ≠ ""%string)
  ∧ (∀ scheme pad pad',
       lower scheme = "bearer"%string →
       lstrip pad = ""%string → lstrip pad' = ""%string →
       strip token = token → token ≠ ""%string →
       _get_bearer_token (Some (scheme +:+ " " +:+ pad +:+ token +:+ pad'))
       = Some token)
  ∧ _get_bearer_token None = None
  ∧ _get_bearer_token (Some ""%string) = None.
Proof.
  pose proof get_bearer_token_word as Hb.
  split_and!; [split| | done | done].
  - unfold _get_bearer_token. destruct (given (Some header)); cbn [negb]; [|done].
    destruct (String.prefix BEARER_PREFIX (lower header)) eqn:Ep; [|done].
    apply prefix_lower in Ep as (a & b & -> & Ha).
    apply (lower_inv_app a "bearer" " ") in Ha as (scheme & sp & -> & Hs & Hsp).
    assert (sp = " "%string) as ->.
    { destruct sp as [|c [|? ?]]; try done. simpl in Hsp. injection Hsp as Hc.
      by rewrite (lower_ascii_space c Hc). }
    assert ((scheme +:+ " ") +:+ b = scheme +:+ " " +:+ b)%string as E.
    { clear. induction scheme as [|c s IH]; [done|].
      change (String c ((s +:+ " ") +:+ b) = String c (s +:+ " " +:+ b))%string.
      by rewrite IH. }
    rewrite E. rewrite (split_space_word scheme b) by by rewrite Hs.
    destruct (given (Some (strip b))) eqn:Eg; [|done].
    intros [= <-]. exists scheme, b. split_and!; try done. by apply given_Some.
  - intros (scheme & rest & -> & Hs & <- & Hne).
    rewrite Hb by done. by rewrite (proj2 (given_Some _) Hne).
  - intros scheme pad pad' Hs Hp Hp' Ht Hne.
    rewrite (Hb scheme (pad +:+ token +:+ pad') Hs).
    rewrite strip_padded by done. by rewrite (proj2 (given_Some _) Hne).
Qed.

End Bearer.

(** ** Authorisation *)

Section Authorization.
Import Auth.
Context (iterate : gset string → list string).
Hypothesis iterate_elements : ∀ (X : gset string) (x : string), x ∈ iterate X ↔ x ∈ X.

Lemma contains_secure_Ok (token : string) (allowed : list string) (b : bool) :
  _contains_secure token allowed = Ok b → (b = true ↔ token ∈ allowed).
Proof.
  induction allowed as [|t rest IH]; simpl.
  - intros [= <-]. split; [done | by intros ?%elem_of_nil].
  - unfold compare_digest. destruct (is_ascii token && is_ascii t); [|done]. cbn.
    destruct (String.eqb token t) eqn:E.
    + apply String.eqb_eq in E. subst t. intros [= <-].
      split; [intros _; apply list_elem_of_here | done].
    + apply String.eqb_neq in E. intros H. rewrite (IH H).
      rewrite elem_of_cons. tauto.
Qed.

Lemma contains_secure_Raise (token : string) (allowed : list string) (e : exn) :
  _contains_secure token allowed = Raise e →
  e = NotASCII
  ∧ (is_ascii token = false ∨ ∃ t, t ∈ allowed ∧ is_ascii t = false).
Proof.
  induction allowed as [|t rest IH]; simpl; [done|].
  unfold compare_digest. destruct (is_ascii token) eqn:Et; cbn.
  - destruct (is_ascii t) eqn:Ea; cbn.
    + destruct (String.eqb token t); [done|]. intros H.
      destruct (IH H) as [-> [?|(t' & Ht' & Ha')]]; [done|].
      split; [done|]. right. exists t'. split; [by apply list_elem_of_further | done].
    + intros [= <-]. split; [done|]. right. exists t. split; [apply list_elem_of_here | done].
  - intros [= <-]. split; [done | by left].
Qed.

Lemma contains_secure_ascii (token : string) (allowed : list string) :
  is_ascii token = true → Forall (λ t, is_ascii t = true) allowed →
  ∃ b, _contains_secure token allowed = Ok b.
Proof.
  intros Ht. induction 1 as [|t rest Ha _ IH]; simpl; [by eexists|].
  unfold compare_digest. rewrite Ht, Ha. cbn.
  destruct (String.eqb token t); [by eexists | done].
Qed.

Lemma contains_secure_not_ascii (token : string) (allowed : list string) :
  is_ascii token = false → allowed ≠ [] → _contains_secure token allowed = Raise NotASCII.
Proof.
  intros Ht Hne. destruct allowed as [|t rest]; [done|]. simpl.
  unfold compare_digest. by rewrite Ht.
Qed.

(** The values a normalised set holds. *)
Lemma elem_of_normalize_set (values : option (list json)) (t : string) :
  t ∈ _normalize_set values
  ↔ t ≠ ""%string ∧ ∃ l s, values = Some l ∧ JStr s ∈ l ∧ strip s = t.
Proof.
  unfold _normalize_set. destruct values as [[|v l]|].
  - rewrite elem_of_empty. split; [done|]. intros (_ & l & s & [= <-] & H & _).
    by apply elem_of_nil in H.
  - rewrite elem_of_list_to_set, list_elem_of_omap. split.
    + intros (x & Hx & Hs). destruct x as [| | | | |s| |]; try done.
      destruct (given (Some (strip s))) eqn:Eg; [|done]. injection Hs as <-.
      split; [by apply given_Some|]. by exists (v :: l), s.
    + intros (Hne & l' & s & [= <-] & Hin & <-). exists (JStr s). split; [done|].
      by rewrite (proj2 (given_Some _) Hne).
  - rewrite elem_of_empty. split; [done|]. by intros (_ & l & s & [=] & _).
Qed.

(** Whatever the order in which the two sets are iterated: when
    [is_authorized] returns, it returns [True] exactly for a token that is
    not empty and is, as it stands, one of the configured values once these
    are stripped; when it raises, it is the [TypeError] of a comparison with
    a string outside ASCII, the token or a configured value; and it returns
    whenever the token and the configured values are all ASCII. *)
Theorem authorization_is_membership (token : option string)
    (api_secret_tokens api_keys : option (list json)) :
  let allowed := _normalize_set api_secret_tokens ∪ _normalize_set api_keys in
  match is_authorized iterate token api_secret_tokens api_keys with
  | Ok b => b = true ↔ ∃ t, token = Some t ∧ t ≠ ""%string ∧ t ∈ allowed
  | Raise e =>
      e = NotASCII
      ∧ ∃ t, token = Some t
             ∧ (is_ascii t = false ∨ ∃ t', t' ∈ allowed ∧ is_ascii t' = false)
  end
  ∧ ((∀ t, token = Some t → is_ascii t = true) →
     (∀ t', t' ∈ allowed → is_ascii t' = true) →
     ∃ b, is_authorized iterate token api_secret_tokens api_keys = Ok b).
Proof.
  intros allowed. unfold is_authorized.
  destruct token as [t|]; [|split; [|by eexists]].
  2:{ split; [done|]. by intros (t & [=] & _). }
  destruct (given (Some t)) eqn:Eg; cbn [negb].
  2:{ split; [|by eexists]. split; [done|]. intros (t' & [= <-] & Hne & _).
      apply given_Some in Hne. congruence. }
  apply given_Some in Eg.
  set (secrets := _normalize_set api_secret_tokens) in *.
  set (keys := _normalize_set api_keys) in *.
  split.
  - destruct (_contains_secure t (iterate secrets)) as [b1|e] eqn:E1; cbn.
    + apply contains_secure_Ok in E1. rewrite iterate_elements in E1.
      destruct b1.
      * split; [intros _|done]. exists t. split_and!; try done.
        apply elem_of_union_l. by apply E1.
      * destruct (_contains_secure t (iterate keys)) as [b2|e] eqn:E2.
        -- apply contains_secure_Ok in E2. rewrite iterate_elements in E2.
           rewrite E2. split.
           ++ intros H. exists t. split_and!; try done. by apply elem_of_union_r.
           ++ intros (t' & [= <-] & _ & [H|H]%elem_of_union); [|done].
              apply E1 in H. done.
        -- apply contains_secure_Raise in E2 as [-> [H|(t' & Ht' & Ha)]].
           ++ split; [done|]. exists t. split; [done | by left].
           ++ split; [done|]. exists t. split; [done|]. right. exists t'.
              split; [|done]. apply elem_of_union_r. by apply iterate_elements.
    + apply contains_secure_Raise in E1 as [-> [H|(t' & Ht' & Ha)]].
      * split; [done|]. exists t. split; [done | by left].
      * split; [done|]. exists t. split; [done|]. right. exists t'.
        split; [|done]. apply elem_of_union_l. by apply iterate_elements.
  - intros Ht Ha. specialize (Ht t eq_refl).
    destruct (contains_secure_ascii t (iterate secrets) Ht) as [b1 ->].
    { apply Forall_forall. intros t' Ht'. apply Ha, elem_of_union_l.
      by apply iterate_elements. }
    cbn. destruct b1; [by eexists|].
    apply contains_secure_ascii; [done|].
    apply Forall_forall. intros t' Ht'. apply Ha, elem_of_union_r.
    by apply iterate_elements.
Qed.

(** With no credential configured nobody is authorised, whatever the
    token; with one or more, a token outside ASCII is not refused with
    [False]: the comparison raises [TypeError]. *)
Theorem token_outside_ascii_raises (t : string)
    (api_secret_tokens api_keys : option (list json)) :
  let allowed := _normalize_set api_secret_tokens ∪ _normalize_set api_keys in
  (allowed = ∅ →
     ∀ token, is_authorized iterate token api_secret_tokens api_keys = Ok false)
  ∧ (allowed ≠ ∅ → is_ascii t = false →
     is_authorized iterate (Some t) api_secret_tokens api_keys = Raise NotASCII).
Proof.
  intros allowed. unfold is_authorized.
  set (secrets := _normalize_set api_secret_tokens) in *.
  set (keys := _normalize_set api_keys) in *.
  assert (∀ X : gset string, X = ∅ → iterate X = []) as Hnil.
  { intros X ->. destruct (iterate ∅) as [|x l] eqn:E; [done|].
    assert (x ∈ iterate (∅ : gset string)) as H by (rewrite E; apply list_elem_of_here).
    apply iterate_elements in H. by apply elem_of_empty in H. }
  assert (∀ X : gset string, X ≠ ∅ → iterate X ≠ []) as Hcons.
  { intros X HX E. apply HX. apply set_eq. intros x.
    rewrite <- iterate_elements, E, elem_of_empty. apply elem_of_nil. }
  split.
  - intros He token. apply empty_union_L in He as [Hs Hk].
    destruct token as [t'|]; [|done]. destruct (given (Some t')); cbn [negb]; [|done].
    by rewrite (Hnil _ Hs), (Hnil _ Hk).
  - intros Hne Ht.
    assert (given (Some t) = true) as ->.
    { apply given_Some. intros ->. done. }
    cbn [negb]. destruct (decide (secrets = ∅)) as [Hs|Hs].
    + rewrite (Hnil _ Hs). cbn.
      apply contains_secure_not_ascii; [done|]. apply Hcons.
      intros Hk. apply Hne. unfold allowed. rewrite Hs, Hk. apply union_empty_r_L.
    + by rewrite (contains_secure_not_ascii t _ Ht (Hcons _ Hs)).
Qed.

End Authorization.

Section AuthorizationExamples.
Import Auth Samples.

Lemma authorization_is_membership_witness :
  (∀ (X : gset string) (x : string), x ∈ elements X ↔ x ∈ X)
  ∧ is_authorized elements (Some "s3cret"%string)
      (Some [JStr " s3cret "; JInt 7]) None = Ok true
  ∧ is_authorized elements (Some "guess"%string)
      (Some [JStr " s3cret "; JInt 7]) None = Ok false.
Proof.
  assert (∀ (X : gset string) (x : string), x ∈ elements X ↔ x ∈ X) as He
    by (intros X x; apply elem_of_elements).
  assert (∀ t', t' ∈ _normalize_set (Some [JStr " s3cret "; JInt 7]) ∪ _normalize_set None
                → t' = "s3cret"%string) as Hall.
  { intros t' [H|H]%elem_of_union.
    - apply elem_of_normalize_set in H as (_ & l & s & [= <-] & Hs & <-).
      members Hs; by simplify_eq.
    - apply elem_of_normalize_set in H as (_ & l & s & [=] & _). }
  assert ("s3cret"%string ∈ _normalize_set (Some [JStr " s3cret "; JInt 7])
                            ∪ _normalize_set None) as Hin.
  { apply elem_of_union_l, elem_of_normalize_set. split; [done|].
    exists [JStr " s3cret "; JInt 7], " s3cret "%string.
    split_and!; [done | apply list_elem_of_here | reflexivity]. }
  split; [exact He|]. split.
  - destruct (authorization_is_membership elements He (Some "s3cret"%string)
                (Some [JStr " s3cret "; JInt 7]) None) as [H1 H2].
    destruct H2 as [b Hb].
    { by intros t [= <-]. }
    { intros t' Ht'. by rewrite (Hall t' Ht'). }
    rewrite Hb in H1 |- *. f_equal. apply H1. exists "s3cret"%string.
    split; [reflexivity|]. split; [discriminate | exact Hin].
  - destruct (authorization_is_membership elements He (Some "guess"%string)
                (Some [JStr " s3cret "; JInt 7]) None) as [H1 H2].
    destruct H2 as [b Hb].
    { by intros t [= <-]. }
    { intros t' Ht'. by rewrite (Hall t' Ht'). }
    rewrite Hb in H1 |- *. f_equal. destruct b; [|done].
    destruct H1 as [H1 _]. destruct (H1 eq_refl) as (t & [= <-] & _ & Ht).
    apply Hall in Ht. discriminate.
Defined.

Lemma token_outside_ascii_raises_witness :
  (∀ (X : gset string) (x : string), x ∈ elements X ↔ x ∈ X)
  ∧ is_ascii accented = false
  ∧ is_authorized elements (Some accented) (Some [JStr "s3cret"]) None = Raise NotASCII
  ∧ is_authorized elements (Some accented) None (Some []) = Ok false.
Proof.
  assert (∀ (X : gset string) (x : string), x ∈ elements X ↔ x ∈ X) as He
    by (intros X x; apply elem_of_elements).
  split; [exact He|]. split; [reflexivity|]. split.
  - apply (token_outside_ascii_raises elements He accented (Some [JStr "s3cret"]) None);
      [|reflexivity].
    intros H. assert ("s3cret"%string ∈ (∅ : gset string)) as Hin; [|by apply elem_of_empty in Hin].
    rewrite <- H. apply elem_of_union_l, elem_of_normalize_set. split; [done|].
    exists [JStr "s3cret"], "s3cret"%string.
    split_and!; [done | apply list_elem_of_here | reflexivity].
  - apply (token_outside_ascii_raises elements He accented None (Some [])).
    apply union_empty_r_L.
Defined.

End AuthorizationExamples.

(** ** The configuration *)

Section Configuration.
Import Auth Config.

Lemma split_not_nil (sep : ascii) (s : string) : split sep s ≠ [].
Proof.
  destruct s as [|c r]; [done|]. simpl.
  destruct (Ascii.eqb c sep); [done|]. by destruct (split sep r).
Qed.

Lemma split_cons (sep c : ascii) (r : string) :
  split sep (String c r) = [String c r] ↔ c ≠ sep ∧ split sep r = [r].
Proof.
  pose proof (split_not_nil sep r) as Hne. simpl.
  destruct (Ascii.eqb c sep) eqn:E.
  - apply Ascii.eqb_eq in E. split; [done | by intros [? _]].
  - apply Ascii.eqb_neq in E. destruct (split sep r) as [|h t]; [done|].
    split.
    + intros [= -> ->]. done.
    + intros [_ [= -> ->]]. done.
Qed.

Lemma split_pieces (sep : ascii) (s : string) :
  Forall (λ x, split sep x = [x]) (split sep s).
Proof.
  induction s as [|c r IH]; [by repeat constructor|]. simpl.
  destruct (Ascii.eqb c sep) eqn:E; [by constructor|].
  apply Ascii.eqb_neq in E.
  pose proof (split_not_nil sep r) as Hne.
  destruct (split sep r) as [|h t]; [done|].
  apply Forall_cons in IH as [Hh Ht]. constructor; [|done]. by apply split_cons.
Qed.

Lemma split_lstrip (sep : ascii) (s : string) :
  split sep s = [s] → split sep (lstrip s) = [lstrip s].
Proof.
  induction s as [|c r IH]; [done|]. intros H. simpl.
  destruct (isspace c); [|done]. apply IH. by apply split_cons in H as [_ ?].
Qed.

Lemma split_rstrip (sep : ascii) (s : string) :
  split sep s = [s] → split sep (rstrip s) = [rstrip s].
Proof.
  induction s as [|c r IH]; [done|]. intros [Hc Hr]%split_cons.
  specialize (IH Hr). simpl.
  destruct (rstrip r) as [|c' r'] eqn:E.
  - destruct (isspace c); [done|]. by apply split_cons.
  - by apply split_cons.
Qed.

Lemma split_strip (sep : ascii) (s : string) :
  split sep s = [s] → split sep (strip s) = [strip s].
Proof. intros H. by apply split_rstrip, split_lstrip. Qed.

Lemma is_ascii_cons (c : ascii) (r : string) :
  is_ascii (String c r) = (nat_of_ascii c <? 128)%nat && is_ascii r.
Proof. done. Qed.

Lemma is_ascii_lstrip (s : string) : is_ascii s = true → is_ascii (lstrip s) = true.
Proof.
  induction s as [|c r IH]; [done|]. simpl lstrip. destruct (isspace c); [|done].
  rewrite is_ascii_cons, andb_true_iff. intros [_ H]. by apply IH.
Qed.

Lemma is_ascii_rstrip (s : string) : is_ascii s = true → is_ascii (rstrip s) = true.
Proof.
  induction s as [|c r IH]; [done|].
  rewrite is_ascii_cons, andb_true_iff. intros [Hc Hr]. specialize (IH Hr). simpl.
  destruct (rstrip r) as [|c' r'] eqn:E.
  - destruct (isspace c); [done|]. by rewrite is_ascii_cons, Hc.
  - by rewrite is_ascii_cons, Hc, IH.
Qed.

Lemma is_ascii_strip (s : string) : is_ascii s = true → is_ascii (strip s) = true.
Proof. intros H. by apply is_ascii_rstrip, is_ascii_lstrip. Qed.

Lemma is_ascii_split (sep : ascii) (s : string) :
  is_ascii s = true → Forall (λ x, is_ascii x = true) (split sep s).
Proof.
  induction s as [|c r IH]; [by repeat constructor|].
  rewrite is_ascii_cons, andb_true_iff. intros [Hc Hr]. specialize (IH Hr). simpl.
  destruct (Ascii.eqb c sep); [by constructor|].
  pose proof (split_not_nil sep r) as Hne.
  destruct (split sep r) as [|h t]; [done|].
  apply Forall_cons in IH as [Hh Ht]. constructor; [|done].
  by rewrite is_ascii_cons, Hc, Hh.
Qed.

(** Splitting undoes joining, for items without the separator. *)
Lemma split_app (sep : ascii) (a b : string) :
  split sep a = [a] → split sep (a +:+ String sep b) = a :: split sep b.
Proof.
  induction a as [|c a IH]; simpl.
  - by rewrite Ascii.eqb_refl.
  - intros H. pose proof (proj1 (split_cons sep c a) H) as [Hc Ha].
    apply Ascii.eqb_neq in Hc. rewrite Hc. by rewrite (IH Ha).
Qed.

Lemma split_joined (sep : ascii) (items : list string) :
  Forall (λ x, split sep x = [x]) items → items ≠ [] →
  split sep (joined (String sep "") items) = items.
Proof.
  induction 1 as [|item rest Hi Hr IH]; [done|]. intros _.
  destruct rest as [|item' rest]; [done|].
  change (joined (String sep "") (item :: item' :: rest))
    with (item +:+ String sep (joined (String sep "") (item' :: rest))).
  rewrite split_app by done. by rewrite IH.
Qed.

Lemma tokens_elem (environ : gmap string string) (key t : string) :
  t ∈ tokens environ key
  ↔ t ≠ ""%string
    ∧ ∃ item, item ∈ split "," (default ""%string (environ !! key)) ∧ strip item = t.
Proof.
  unfold tokens. rewrite list_elem_of_omap. split.
  - intros (item & Hi & Ht). destruct (given (Some (strip item))) eqn:Eg; [|done].
    injection Ht as <-. split; [by apply given_Some | by exists item].
  - intros (Hne & item & Hi & <-). exists item. split; [done|].
    by rewrite (proj2 (given_Some _) Hne).
Qed.

(** What the configured lists hold. *)
Lemma tokens_clean (environ : gmap string string) (key : string) :
  Forall (λ t, t ≠ ""%string ∧ strip t = t ∧ split "," t = [t])
         (tokens environ key).
Proof.
  apply Forall_forall. intros t (Hne & item & Hi & <-)%tokens_elem.
  split_and!; [done | apply strip_strip |].
  apply split_strip.
  pose proof (split_pieces "," (default ""%string (environ !! key))) as P.
  rewrite Forall_forall in P. by apply P.
Qed.

Lemma tokens_ascii (environ : gmap string string) (key : string) :
  is_ascii (default ""%string (environ !! key)) = true →
  Forall (λ t, is_ascii t = true) (tokens environ key).
Proof.
  intros H. apply Forall_forall. intros t (Hne & item & Hi & <-)%tokens_elem.
  apply is_ascii_strip. pose proof (is_ascii_split "," _ H) as P.
  rewrite Forall_forall in P. by apply P.
Qed.

Lemma normalize_tokens (environ : gmap string string) (key : string) :
  _normalize_set (Some (JStr <$> tokens environ key)) = list_to_set (tokens environ key).
Proof.
  apply set_eq. intros t. rewrite elem_of_normalize_set, elem_of_list_to_set.
  pose proof (tokens_clean environ key) as C. rewrite Forall_forall in C. split.
  - intros (Hne & l & s & [= <-] & Hs & <-).
    apply list_elem_of_fmap in Hs as (s' & [= <-] & Hs').
    destruct (C _ Hs') as (_ & -> & _). done.
  - intros Ht. destruct (C _ Ht) as (Hne & Hs & _). split; [done|].
    exists (JStr <$> tokens environ key), t. split_and!; [done | | done].
    by apply list_elem_of_fmap_2.
Qed.

(** The list of tokens read from a variable of the environment: every
    token is not empty, has no white space around it and no comma in it; an
    unset variable gives no token; normalising the list again, as
    [is_authorized] does, changes nothing; and a variable that joins items
    with commas, none of them white space only, reads back as the items
    stripped. *)
Theorem configured_tokens (environ : gmap string string) (key : string) :
  Forall (λ t, t ≠ ""%string ∧ strip t = t ∧ split "," t = [t]) (tokens environ key)
  ∧ (environ !! key = None → tokens environ key = [])
  ∧ _normalize_set (Some (JStr <$> tokens environ key))
    = list_to_set (tokens environ key)
  ∧ (∀ items : list string,
       Forall (λ item, split "," item = [item] ∧ strip item ≠ ""%string) items →
       environ !! key = Some (joined "," items) →
       tokens environ key = strip <$> items).
Proof.
  split_and!; [apply tokens_clean | | apply normalize_tokens |].
  - intros E. unfold tokens. by rewrite E.
  - intros items Hitems E. unfold tokens. rewrite E. cbn [default from_option id].
    destruct (decide (items = [])) as [->|Hne]; [done|].
    rewrite split_joined; [|by eapply Forall_impl; [exact Hitems|]; intros x [? _] | done].
    clear E Hne. induction Hitems as [|x l [_ Hx] _ IH]; [done|].
    rewrite fmap_cons. cbn [omap list_omap]. rewrite (proj2 (given_Some _) Hx).
    cbn [omap] in IH. by rewrite IH.
Qed.

End Configuration.

Section Switches.
Import Auth Config.

Lemma isspace_lower (c : ascii) : isspace (lower_ascii c) = isspace c.
Proof. destruct c as [[] [] [] [] [] [] [] []]; reflexivity. Qed.

Lemma lower_lstrip (s : string) : lower (lstrip s) = lstrip (lower s).
Proof.
  induction s as [|c r IH]; [done|]. simpl. rewrite isspace_lower.
  by destruct (isspace c).
Qed.

Lemma lower_rstrip (s : string) : lower (rstrip s) = rstrip (lower s).
Proof.
  induction s as [|c r IH]; [done|]. simpl. rewrite <- IH, isspace_lower.
  destruct (rstrip r); [by destruct (isspace c) | done].
Qed.

Lemma lower_strip (s : string) : lower (strip s) = strip (lower s).
Proof. unfold strip. by rewrite lower_rstrip, lower_lstrip. Qed.

(** A switch read from the environment: an unset variable gives the
    default; a set one never does, the default playing no part; one of the
    four words 1, true, yes, on, in any case and with any white space
    around it, gives [True]; and a variable set to white space only gives
    [False], also where the default is [True]. *)
Theorem env_bool_reads_words (environ : gmap string string) (key : string) :
  (environ !! key = None → ∀ default, _env_bool environ key default = default)
  ∧ (∀ val, environ !! key = Some val →
       _env_bool environ key true = _env_bool environ key false)
  ∧ (∀ pad word pad',
       environ !! key = Some (pad +:+ word +:+ pad') →
       lstrip pad = ""%string → lstrip pad' = ""%string →
       lower word ∈ ["1"; "true"; "yes"; "on"]%string →
       ∀ default, _env_bool environ key default = true)
  ∧ (∀ val, environ !! key = Some val → strip val = ""%string →
       ∀ default, _env_bool environ key default = false).
Proof.
  unfold _env_bool. split_and!.
  - by intros ->.
  - by intros val ->.
  - intros pad word pad' -> Hp Hp' Hw default.
    apply bool_decide_eq_true. rewrite lower_strip, !lower_app.
    rewrite strip_padded; [done | | | |].
    + by rewrite <- lower_lstrip, Hp.
    + by rewrite <- lower_lstrip, Hp'.
    + members Hw; by rewrite Hw.
    + members Hw; by rewrite Hw.
  - intros val -> Hs default. rewrite Hs. apply bool_decide_eq_false.
    intros H. members H; discriminate.
Qed.

(** [freq_to_rule] has a rule exactly for the allowed frequencies, the
    weekly and the monthly rule of the configuration, and raises
    [ValueError] with the frequency in its message for any other; every
    frequency the dispatcher accepts is an allowed one. *)
Theorem allowed_frequencies_have_rules (cls : Config.Config) (freq : string) :
  ((∃ r, freq_to_rule cls freq = Ok r) ↔ freq ∈ ALLOWED_FREQUENCIES)
  ∧ (freq ∉ ALLOWED_FREQUENCIES →
     freq_to_rule cls freq = Raise (Exn ValueError ("Unsupported frequency: " +:+ freq)))
  ∧ (freq_to_rule cls "weekly" = Ok (WEEKLY_RULE cls))
  ∧ (freq_to_rule cls "monthly" = Ok (MONTHLY_RULE cls))
  ∧ (∀ payload p fc ci data cb,
       Routes.validate payload = Routes.Accepted freq p fc ci data cb →
       freq ∈ ALLOWED_FREQUENCIES).
Proof.
  unfold freq_to_rule, ALLOWED_FREQUENCIES.
  assert (freq ∈ ["weekly"; "monthly"]%string
          ↔ String.eqb freq "weekly" || String.eqb freq "monthly" = true) as M.
  { rewrite orb_true_iff, !String.eqb_eq, !elem_of_cons, elem_of_nil. tauto. }
  split_and!; try done.
  - rewrite M. destruct (String.eqb freq "weekly"), (String.eqb freq "monthly"); cbn;
      split; try done; try (by intros _; eexists); by intros [r [=]].
  - rewrite M. by destruct (String.eqb freq "weekly"), (String.eqb freq "monthly").
  - intros payload p fc ci data cb. rewrite M. unfold Routes.validate.
    repeat case_match; try done; by intros [= <- <- <- <- <- <-].
Qed.

End Switches.

Section Credentials.
Import Auth Config.
Context (iterate : gset string → list string).
Hypothesis iterate_elements : ∀ (X : gset string) (x : string), x ∈ iterate X ↔ x ∈ X.

Lemma contains_secure_decides (token : string) (allowed : list string) :
  is_ascii token = true → Forall (λ t, is_ascii t = true) allowed →
  _contains_secure token allowed = Ok (bool_decide (token ∈ allowed)).
Proof.
  intros Ht Ha. destruct (contains_secure_ascii token allowed Ht Ha) as [b Hb].
  rewrite Hb. f_equal. apply contains_secure_Ok in Hb.
  destruct b; symmetry.
  - apply bool_decide_eq_true. by apply Hb.
  - apply bool_decide_eq_false. intros H. by apply Hb in H.
Qed.

Lemma is_authorized_ascii (t : string) (api_secret_tokens api_keys : option (list json)) :
  t ≠ ""%string → is_ascii t = true →
  (∀ t', t' ∈ _normalize_set api_secret_tokens ∪ _normalize_set api_keys →
         is_ascii t' = true) →
  is_authorized iterate (Some t) api_secret_tokens api_keys
  = Ok (bool_decide (t ∈ _normalize_set api_secret_tokens ∪ _normalize_set api_keys)).
Proof.
  intros Hne Ht Ha. unfold is_authorized.
  rewrite (proj2 (given_Some _) Hne). cbn [negb].
  rewrite !contains_secure_decides; try done.
  - cbn. rewrite (bool_decide_ext _ _ (iterate_elements _ t)).
    destruct (bool_decide (t ∈ _normalize_set api_secret_tokens)) eqn:H1.
    + apply bool_decide_eq_true in H1. f_equal. symmetry.
      apply bool_decide_eq_true. by apply elem_of_union_l.
    + apply bool_decide_eq_false in H1. f_equal.
      rewrite (bool_decide_ext _ _ (iterate_elements _ t)).
      apply bool_decide_ext. rewrite elem_of_union. tauto.
  - apply Forall_forall. intros t' Ht'. apply Ha, elem_of_union_l.
    exact (proj1 (iterate_elements _ _) Ht').
  - apply Forall_forall. intros t' Ht'. apply Ha, elem_of_union_r.
    exact (proj1 (iterate_elements _ _) Ht').
Qed.

(** With the two lists read from an environment of ASCII values, and
    whatever the order in which the sets are iterated: an ASCII token is
    authorised exactly when it is in one of the two lists; and a token of
    the lists is what [extract_token_from_headers] reads from a header
    [Authorization: Bearer <token>], whatever the other header, and from
    [X-API-Key: <token>] alone. *)
Theorem configured_token_is_authorized (environ : gmap string string) (t : string) :
  let secrets := tokens environ "API_SECRET_TOKENS" in
  let keys := tokens environ "API_KEYS" in
  is_ascii (default ""%string (environ !! "API_SECRET_TOKENS"%string)) = true →
  is_ascii (default ""%string (environ !! "API_KEYS"%string)) = true →
  is_ascii t = true →
  (t ∈ secrets ++ keys →
     (∀ key, extract_token_from_headers
               {| Authorization := Some ("Bearer " +:+ t); X_API_Key := key |} = Some t)
     ∧ extract_token_from_headers
         {| Authorization := None; X_API_Key := Some t |} = Some t)
  ∧ is_authorized iterate (Some t) (Some (JStr <$> secrets)) (Some (JStr <$> keys))
    = Ok (bool_decide (t ∈ secrets ++ keys)).
Proof.
  intros secrets keys Hs Hk Ht.
  pose proof (tokens_clean environ "API_SECRET_TOKENS") as Cs.
  pose proof (tokens_clean environ "API_KEYS") as Ck.
  fold secrets in Cs. fold keys in Ck.
  rewrite Forall_forall in Cs, Ck.
  assert (∀ x, x ∈ secrets ++ keys → x ≠ ""%string ∧ strip x = x) as C.
  { intros x [H|H]%elem_of_app; [destruct (Cs x H) as (? & ? & _)
                                | destruct (Ck x H) as (? & ? & _)]; done. }
  split.
  - intros Hin. destruct (C t Hin) as [Hne Hst]. split.
    + intros key. unfold extract_token_from_headers. cbn [Authorization].
      assert (_get_bearer_token (Some ("Bearer " +:+ t)) = Some t) as ->.
      { change ("Bearer " +:+ t)%string with ("Bearer" +:+ " " +:+ t)%string.
        rewrite (get_bearer_token_word "Bearer" t eq_refl), Hst.
        by rewrite (proj2 (given_Some _) Hne). }
      by rewrite (proj2 (given_Some _) Hne).
    + unfold extract_token_from_headers. cbn.
      rewrite (proj2 (String.eqb_neq _ _) Hne). cbn. by rewrite Hst.
  - destruct (decide (t = ""%string)) as [->|Hne].
    + cbn. f_equal. symmetry. apply bool_decide_eq_false. intros H.
      by destruct (C _ H).
    + rewrite is_authorized_ascii; [|done|done|].
      * f_equal. apply bool_decide_ext. unfold secrets, keys.
        rewrite !normalize_tokens, elem_of_union, !elem_of_list_to_set, elem_of_app.
        done.
      * intros t'. unfold secrets, keys.
        rewrite !normalize_tokens, elem_of_union, !elem_of_list_to_set.
        pose proof (tokens_ascii environ "API_SECRET_TOKENS" Hs) as As.
        pose proof (tokens_ascii environ "API_KEYS" Hk) as Ak.
        rewrite Forall_forall in As, Ak. intros [H|H]; auto.
Qed.

End Credentials.

Section CredentialsExamples.
Import Auth Config Samples.

Lemma configured_token_is_authorized_witness :
  (∀ (X : gset string) (x : string), x ∈ elements X ↔ x ∈ X)
  ∧ tokens environ "API_SECRET_TOKENS" = ["alpha"; "beta"]%string
  ∧ tokens environ "API_KEYS" = []
  ∧ extract_token_from_headers
      {| Authorization := Some "Bearer beta"%string; X_API_Key := None |}
    = Some "beta"%string
  ∧ is_authorized elements (Some "beta"%string)
      (Some (JStr <$> tokens environ "API_SECRET_TOKENS"))
      (Some (JStr <$> tokens environ "API_KEYS"))
    = Ok true.
Proof.
  assert (∀ (X : gset string) (x : string), x ∈ elements X ↔ x ∈ X) as He
    by (intros X x; apply elem_of_elements).
  assert (environ !! "API_SECRET_TOKENS"%string = Some "alpha, beta"%string) as E1
    by apply lookup_singleton_eq.
  assert (environ !! "API_KEYS"%string = None) as E2
    by (by apply lookup_singleton_ne).
  assert (tokens environ "API_SECRET_TOKENS" = ["alpha"; "beta"]%string) as T1
    by (unfold tokens; rewrite E1; reflexivity).
  assert (tokens environ "API_KEYS" = []) as T2
    by (unfold tokens; rewrite E2; reflexivity).
  destruct (configured_token_is_authorized elements He environ "beta"%string)
    as [H1 H2].
  { by rewrite E1. }
  { by rewrite E2. }
  { reflexivity. }
  assert ("beta"%string ∈ tokens environ "API_SECRET_TOKENS" ++ tokens environ "API_KEYS")
    as Hin.
  { rewrite T1, T2. apply list_elem_of_further, list_elem_of_here. }
  split_and!; [exact He | exact T1 | exact T2 | |].
  - apply (proj1 (H1 Hin) None).
  - rewrite H2. apply f_equal. apply bool_decide_eq_true. exact Hin.
Defined.

End CredentialsExamples.
